(** * be-BOP point-of-sale sessions: a shallow embedding

    The development follows the session module [src/lib/server/pos-sessions.ts]
    (opening, closing, income aggregation, interim and final tickets), the
    types of [src/lib/types/PosSession.ts] and the closing page
    [src/routes/(app)/pos/closing/+page.server.ts].

    JavaScript numbers are IEEE 754 binary64 values and are modelled by
    Rocq's primitive floats; dates are milliseconds since the epoch; the
    MongoDB collections are lists of documents in natural (insertion) order;
    an [async] function is a tree of effects whose [Await] nodes are the
    points where other requests may be served. *)

From Stdlib Require Import List String Ascii ZArith NArith Bool Lia DecimalString.
From Stdlib Require Import PrimFloat FloatOps SpecFloat.
Import ListNotations.

Local Open Scope string_scope.
Local Open Scope Z_scope.

(** ** Data model ([PosSession.ts]) *)

Definition Date := Z.
Definition ObjectId := N.
Definition Currency := string.
Definition PaymentMethod := string.

Inductive PosSessionStatus := active | closed.

Definition PosSessionStatus_eqb (a b : PosSessionStatus) : bool :=
  match a, b with
  | active, active | closed, closed => true
  | _, _ => false
  end.

Record PosSessionUser := mkUser {
  userId : ObjectId;
  userLogin : string;
  userAlias : option string
}.

(** The anonymous [{ amount: number; currency: Currency }] object type. *)
Record Money := mkMoney {
  amount : float;
  currency : Currency
}.

Record PosSessionIncome := mkIncome {
  paymentMethod : PaymentMethod;
  income_amount : float;
  income_currency : Currency
}.

Record PosSessionOutcome := mkOutcome {
  category : string;
  outcome_amount : float;
  outcome_currency : Currency
}.

Record PosSessionXTicket := mkXTicket {
  generatedAt : Date;
  generatedBy : PosSessionUser
}.

Record PosSession := mkPosSession {
  _id : ObjectId;
  status : PosSessionStatus;
  openedAt : Date;
  openedBy : PosSessionUser;
  closedAt : option Date;
  closedBy : option PosSessionUser;
  cashOpening : Money;
  cashClosing : option Money;
  cashClosingTheoretical : option Money;
  cashDelta : option Money;
  cashDeltaJustification : option string;
  dailyIncomes : list PosSessionIncome;
  dailyOutcomes : list PosSessionOutcome;
  xTickets : list PosSessionXTicket;
  createdAt : Date;
  updatedAt : Date
}.

(** The part of an order and of its payments that the aggregation reads:
    [payment.currencySnapshot.main.price] is [price]. *)
Record OrderPayment := mkPayment {
  method : PaymentMethod;
  payment_status : string;
  price : Money
}.

Record Order := mkOrder {
  order_createdAt : Date;
  order_status : string;
  payments : list OrderPayment
}.

(** ** The world an operation runs in *)

Record Collections := mkCollections {
  posSessions : list PosSession;
  orders : list Order
}.

Record RuntimeConfig := mkRuntimeConfig {
  posSessionsEnabled : bool;
  posCashDeltaJustificationMandatory : bool;
  brandName : string
}.

(** What [console.warn] received in [openPosSession]: the expected and the
    given opening cash. *)
Record Warning := mkWarning {
  expected : Money;
  got : Money
}.

(** [clock] lists the successive readings of [new Date()] and [tick] counts
    the readings made so far; [objectIds] and [minted] do the same for
    [new ObjectId()].  [toLocaleString] is the host's rendering of a date
    (it depends on the locale and time zone of the process). *)
Record World := mkWorld {
  collections : Collections;
  runtimeConfig : RuntimeConfig;
  console : list Warning;
  clock : nat -> Date;
  tick : nat;
  objectIds : nat -> ObjectId;
  minted : nat;
  toLocaleString : Date -> string
}.

Definition set_collections (c : Collections) (w : World) : World :=
  mkWorld c (runtimeConfig w) (console w) (clock w) (tick w)
          (objectIds w) (minted w) (toLocaleString w).

Definition set_posSessions (l : list PosSession) (w : World) : World :=
  set_collections (mkCollections l (orders (collections w))) w.

Definition set_orders (os : list Order) (w : World) : World :=
  set_collections (mkCollections (posSessions (collections w)) os) w.

Definition set_runtimeConfig (c : RuntimeConfig) (w : World) : World :=
  mkWorld (collections w) c (console w) (clock w) (tick w)
          (objectIds w) (minted w) (toLocaleString w).

(** ** Errors and asynchronous computations *)

(** [error status message] and [redirect status location] are SvelteKit's;
    [MongoDuplicateKey] is the driver's E11000 on the unique [_id] index;
    [BSONError] is thrown by [new ObjectId] on a string it does not accept,
    and [TypeError] is the rejection of [request.formData()]. *)
Inductive Thrown :=
| error (code : Z) (message : string)
| redirect (code : Z) (location : string)
| MongoDuplicateKey
| BSONError
| TypeError.

Inductive Result (A : Type) :=
| Ok (a : A)
| Err (e : Thrown).
Arguments Ok {A} a.
Arguments Err {A} e.

(** An effect is one atomic access to the world. *)
Definition Effect (X : Type) := World -> X * World.

(** [Sync] runs an effect in the current turn of the event loop; [Await]
    issues it and suspends the caller until its answer is there. *)
Inductive Async (A : Type) : Type :=
| Ret (a : A)
| Throw (e : Thrown)
| Sync {X : Type} (op : Effect X) (k : X -> Async A)
| Await {X : Type} (op : Effect X) (k : X -> Async A).
Arguments Ret {A} a.
Arguments Throw {A} e.
Arguments Sync {A X} op k.
Arguments Await {A X} op k.

Fixpoint bind {A B : Type} (m : Async A) (f : A -> Async B) : Async B :=
  match m with
  | Ret a => f a
  | Throw e => Throw e
  | Sync op k => Sync op (fun x => bind (k x) f)
  | Await op k => Await op (fun x => bind (k x) f)
  end.

Declare Scope async_scope.
Delimit Scope async_scope with async.
Notation "x <- m ;; k" := (bind m (fun x => k))
  (at level 100, m at next level, right associativity) : async_scope.
Notation "m ;;; k" := (bind m (fun _ => k))
  (at level 100, right associativity) : async_scope.
Local Open Scope async_scope.

Definition sync {X} (op : Effect X) : Async X := Sync op Ret.
Definition await {X} (op : Effect X) : Async X := Await op Ret.

(** One request served alone, from its call to its return or throw. *)
Fixpoint run {A : Type} (m : Async A) (w : World) : Result A * World :=
  match m with
  | Ret a => (Ok a, w)
  | Throw e => (Err e, w)
  | Sync op k => let (x, w') := op w in run (k x) w'
  | Await op k => let (x, w') := op w in run (k x) w'
  end.

Definition awaitResult {X} (op : Effect (Result X)) : Async X :=
  Await op (fun r => match r with Ok x => Ret x | Err e => Throw e end).

(** *** Concurrent requests

    A request runs without interruption up to its next [Await]; the awaited
    effect is atomic, and its continuation runs up to the following
    [Await]. *)

Fixpoint settle {A : Type} (m : Async A) (w : World) : Async A * World :=
  match m with
  | Sync op k => let (x, w') := op w in settle (k x) w'
  | _ => (m, w)
  end.

Definition turn {A : Type} (m : Async A) (w : World) : Async A * World :=
  match m with
  | Await op k => let (x, w') := op w in settle (k x) w'
  | _ => settle m w
  end.

Inductive Who := First | Second.

Fixpoint interleave {A B : Type} (schedule : list Who)
    (a : Async A) (b : Async B) (w : World) : Async A * Async B * World :=
  match schedule with
  | [] => (a, b, w)
  | First :: rest => let (a', w') := turn a w in interleave rest a' b w'
  | Second :: rest => let (b', w') := turn b w in interleave rest a b' w'
  end.

Definition settled {A : Type} (m : Async A) : option (Result A) :=
  match m with
  | Ret a => Some (Ok a)
  | Throw e => Some (Err e)
  | _ => None
  end.

(** ** The host: clock, identifiers, console, configuration *)

Definition bump_tick (w : World) : World :=
  mkWorld (collections w) (runtimeConfig w) (console w) (clock w) (S (tick w))
          (objectIds w) (minted w) (toLocaleString w).

Definition bump_minted (w : World) : World :=
  mkWorld (collections w) (runtimeConfig w) (console w) (clock w) (tick w)
          (objectIds w) (S (minted w)) (toLocaleString w).

Definition new_Date : Effect Date :=
  fun w => (clock w (tick w), bump_tick w).

Definition new_ObjectId : Effect ObjectId :=
  fun w => (objectIds w (minted w), bump_minted w).

Definition console_warn (msg : Warning) : Effect unit :=
  fun w => (tt, mkWorld (collections w) (runtimeConfig w) (console w ++ [msg])
                        (clock w) (tick w) (objectIds w) (minted w)
                        (toLocaleString w)).

Definition read_runtimeConfig : Effect RuntimeConfig :=
  fun w => (runtimeConfig w, w).

Definition read_toLocaleString : Effect (Date -> string) :=
  fun w => (toLocaleString w, w).

(** ** MongoDB collections *)

Definition has_id (id : ObjectId) (s : PosSession) : bool := N.eqb (_id s) id.

Definition has_status (st : PosSessionStatus) (s : PosSession) : bool :=
  PosSessionStatus_eqb (status s) st.

(** A missing sort key orders below every date. *)
Definition key_ltb (a b : option Date) : bool :=
  match a, b with
  | None, Some _ => true
  | Some x, Some y => x <? y
  | _, _ => false
  end.

(** [{ sort: { key: -1 } }]: the document with the greatest key, the first
    such in natural order. *)
Definition sort_desc_first (key : PosSession -> option Date)
    (l : list PosSession) : option PosSession :=
  fold_left (fun best s =>
               match best with
               | None => Some s
               | Some b => if key_ltb (key b) (key s) then Some s else Some b
               end) l None.

Definition posSessions_findOne_sorted (st : PosSessionStatus)
    (key : PosSession -> option Date) : Effect (option PosSession) :=
  fun w => (sort_desc_first key (filter (has_status st) (posSessions (collections w))), w).

Definition posSessions_findOne (id : ObjectId) : Effect (option PosSession) :=
  fun w => (find (has_id id) (posSessions (collections w)), w).

Definition posSessions_insertOne (doc : PosSession) : Effect (Result unit) :=
  fun w =>
    if existsb (has_id (_id doc)) (posSessions (collections w))
    then (Err MongoDuplicateKey, w)
    else (Ok tt, set_posSessions (posSessions (collections w) ++ [doc]) w).

(** The first document that matches the filter is the one written. *)
Fixpoint update_first {A : Type} (p : A -> bool) (f : A -> A) (l : list A) : list A :=
  match l with
  | [] => []
  | x :: rest => if p x then f x :: rest else x :: update_first p f rest
  end.

Definition posSessions_replaceOne (id : ObjectId) (doc : PosSession) : Effect unit :=
  fun w => (tt, set_posSessions
                  (update_first (has_id id) (fun _ => doc) (posSessions (collections w))) w).

Definition posSessions_updateOne (id : ObjectId) (f : PosSession -> PosSession)
  : Effect unit :=
  fun w => (tt, set_posSessions
                  (update_first (has_id id) f (posSessions (collections w))) w).

Definition orders_find (p : Order -> bool) : Effect (list Order) :=
  fun w => (filter p (orders (collections w)), w).

(** ** JavaScript values *)

(** Truthiness of an optional string: [undefined] and [''] are falsy. *)
Definition truthy (s : option string) : bool :=
  match s with
  | Some "" | None => false
  | Some _ => true
  end.

(** An insertion-ordered [Map] with string keys. *)
Definition JsMap (V : Type) := list (string * V).

Definition Map_get {V} (m : JsMap V) (k : string) : option V :=
  option_map snd (find (fun e => String.eqb (fst e) k) m).

Fixpoint Map_set {V} (m : JsMap V) (k : string) (v : V) : JsMap V :=
  match m with
  | [] => [(k, v)]
  | (k', v') :: rest =>
      if String.eqb k' k then (k', v) :: rest else (k', v') :: Map_set rest k v
  end.

Local Open Scope float_scope.

(** ** [pos-sessions.ts] *)

Definition getCurrentPosSession : Async (option PosSession) :=
  await (posSessions_findOne_sorted active (fun s => Some (openedAt s))).

Definition getLastClosedSession : Async (option PosSession) :=
  await (posSessions_findOne_sorted closed closedAt).

Module Open.
Record params := mk {
  cashOpening : Money;
  user : PosSessionUser
}.
End Open.

Definition openPosSession (params : Open.params) : Async ObjectId :=
  config <- sync read_runtimeConfig ;;
  if negb (posSessionsEnabled config) then
    Throw (error 400 "POS sessions are not enabled")
  else
    existingSession <- getCurrentPosSession ;;
    match existingSession with
    | Some _ => Throw (error 400 "There is already an active POS session")
    | None =>
        lastSession <- getLastClosedSession ;;
        let yesterdayClosing :=
          match lastSession with Some l => cashClosing l | None => None end in
        match yesterdayClosing with
        | Some y =>
            if negb (amount y =? amount (Open.cashOpening params))
               || negb (String.eqb (currency y) (currency (Open.cashOpening params)))
            then sync (console_warn (mkWarning y (Open.cashOpening params)))
            else Ret tt
        | None => Ret tt
        end ;;;
        id <- sync new_ObjectId ;;
        opened <- sync new_Date ;;
        created <- sync new_Date ;;
        updated <- sync new_Date ;;
        let session :=
          {| _id := id;
             status := active;
             openedAt := opened;
             openedBy := Open.user params;
             closedAt := None;
             closedBy := None;
             cashOpening := Open.cashOpening params;
             cashClosing := None;
             cashClosingTheoretical := None;
             cashDelta := None;
             cashDeltaJustification := None;
             dailyIncomes := [];
             dailyOutcomes := [];
             xTickets := [];
             createdAt := created;
             updatedAt := updated |} in
        awaitResult (posSessions_insertOne session) ;;;
        Ret (_id session)
    end.

(** The body of the [forEach] over the paid payments. *)
Definition add_payment (incomes : JsMap Money) (payment : OrderPayment) : JsMap Money :=
  match Map_get incomes (method payment) with
  | Some existing =>
      Map_set incomes (method payment)
        (mkMoney (amount existing + amount (price payment)) (currency existing))
  | None =>
      Map_set incomes (method payment)
        (mkMoney (amount (price payment)) (currency (price payment)))
  end.

Definition calculateDailyIncomes (session : PosSession) : Async (JsMap Money) :=
  orders <- await (orders_find (fun o =>
              (openedAt session <=? order_createdAt o)%Z
              && String.eqb (order_status o) "paid")) ;;
  let paidPayments :=
    filter (fun p => String.eqb (payment_status p) "paid") (flat_map payments orders) in
  Ret (fold_left add_payment paidPayments []).

(** ** Rendering of numbers, identifiers and operators *)

Definition nl : string := String (ascii_of_nat 10) "".

Definition digits (n : Z) : string := NilZero.string_of_uint (N.to_uint (Z.to_N n)).

(** [Number::toString] for a finite [x >= 1e21] whose exact (integer) value is
    [X]: the shortest digit string that reads back as [x], the closest to
    [X] among those, in exponent notation. *)
Definition reads_back (x : float) (c : Z) : bool :=
  SF2Prim (binary_normalize prec emax c 0 false) =? x.

Fixpoint strip_zeros (fuel : nat) (c : Z) : Z :=
  match fuel with
  | O => c
  | S fuel' => if (c mod 10 =? 0)%Z then strip_zeros fuel' (c / 10)%Z else c
  end.

Fixpoint shortest (fuel : nat) (k : Z) (x : float) (X : Z) : Z :=
  match fuel with
  | O => X
  | S fuel' =>
      let scale := (10 ^ (Z.of_nat (String.length (digits X)) - k))%Z in
      let lo := (X / scale * scale)%Z in
      let hi := (lo + scale)%Z in
      match reads_back x lo, reads_back x hi with
      | true, true =>
          if (X - lo <? hi - X)%Z then lo
          else if (hi - X <? X - lo)%Z then hi
          else if Z.even (lo / scale) then lo else hi
      | true, false => lo
      | false, true => hi
      | false, false => shortest fuel' (k + 1)%Z x X
      end
  end.

Definition exponent_notation (v : Z) : string :=
  let s := digits (strip_zeros 400 v) in
  let e := digits (Z.of_nat (String.length (digits v)) - 1) in
  match s with
  | String d "" => String d "" ++ "e+" ++ e
  | String d rest => String d "" ++ "." ++ rest ++ "e+" ++ e
  | "" => ""
  end.

(** [Number.prototype.toFixed(2)] (ECMA-262, 21.1.3.3). *)
Definition toFixed2 (x : float) : string :=
  match Prim2SF x with
  | S754_nan => "NaN"
  | S754_infinity false => "Infinity"
  | S754_infinity true => "-Infinity"
  | S754_zero _ => "0.00"
  | S754_finite neg m e =>
      let s := if neg then "-" else "" in
      if 0x1.b1ae4d6e2ef5p+69 <=? abs x then
        s ++ exponent_notation (shortest 17 1 (abs x) (Z.pos m * 2 ^ e))
      else
        let n := if (0 <=? e)%Z then (Z.pos m * 100 * 2 ^ e)%Z
                 else ((2 * Z.pos m * 100 + 2 ^ (- e)) / (2 * 2 ^ (- e)))%Z in
        let cents := digits (n mod 100) in
        s ++ digits (n / 100) ++ "." ++
          (if (n mod 100 <? 10)%Z then "0" ++ cents else cents)
  end.

Definition hex_digit (n : N) : ascii :=
  match String.get (N.to_nat n) "0123456789abcdef" with
  | Some c => c
  | None => "0"%char
  end.

Fixpoint hex (len : nat) (n : N) : string :=
  match len with
  | O => ""
  | S len' => hex len' (n / 16)%N ++ String (hex_digit (n mod 16)%N) ""
  end.

(** [ObjectId.prototype.toString]: 24 lowercase hexadecimal digits. *)
Definition ObjectId_toString (id : ObjectId) : string := hex 24 id.

(** [u.userAlias || u.userLogin || u.userId] inside a template literal. *)
Definition operator_name (u : PosSessionUser) : string :=
  match userAlias u with
  | Some a => if truthy (Some a) then a
              else if truthy (Some (userLogin u)) then userLogin u
              else ObjectId_toString (userId u)
  | None => if truthy (Some (userLogin u)) then userLogin u
            else ObjectId_toString (userId u)
  end.

(** ** Tickets *)

Definition join_lines (lines : list string) : string := String.concat nl lines.

Definition total {A : Type} (f : A -> float) (l : list A) : float :=
  fold_left (fun sum x => sum + f x) l 0.

(** 0.01 is read as the nearest binary64 value. *)
Definition tolerance : float := 0x1.47ae147ae147bp-7.

Definition signed (x : float) : string := if 0 <=? x then "+" else "".

Definition generateZTicketText (session : PosSession) : Async string :=
  config <- sync read_runtimeConfig ;;
  toLocaleString <- sync read_toLocaleString ;;
  let ticketCurrency :=
    match dailyIncomes session with
    | inc :: _ => income_currency inc
    | [] => currency (cashOpening session)
    end in
  let totalIncome := total income_amount (dailyIncomes session) in
  let totalOutcome := total outcome_amount (dailyOutcomes session) in
  let cashIncome :=
    match find (fun i => String.eqb (paymentMethod i) "point-of-sale")
               (dailyIncomes session) with
    | Some i => income_amount i
    | None => 0
    end in
  let cashOutcomes := totalOutcome in
  let incomeLines :=
    join_lines (map (fun inc => "  - " ++ paymentMethod inc ++ " : "
                                  ++ toFixed2 (income_amount inc) ++ " "
                                  ++ income_currency inc)
                    (dailyIncomes session)) in
  let outcomeLines :=
    join_lines (map (fun out => "  - " ++ category out ++ " : "
                                  ++ toFixed2 (outcome_amount out) ++ " "
                                  ++ outcome_currency out)
                    (dailyOutcomes session)) in
  Ret (brandName config ++ " Z ticket" ++ nl
       ++ "Opening time : " ++ toLocaleString (openedAt session) ++ " by "
       ++ operator_name (openedBy session) ++ nl
       ++ "Closing time : "
       ++ match closedAt session with
          | Some d => toLocaleString d
          | None => "undefined"
          end
       ++ " by "
       ++ match closedBy session with
          | Some u => operator_name u
          | None => "undefined"
          end
       ++ match cashDelta session with
          | Some d => if tolerance <? abs (amount d)
                      then nl ++ "Daily Z includes cash balance error"
                      else ""
          | None => ""
          end
       ++ nl ++ nl
       ++ "Daily incomes :" ++ nl
       ++ incomeLines ++ nl
       ++ "Daily incomes total :" ++ nl
       ++ "  - " ++ toFixed2 totalIncome ++ " " ++ ticketCurrency ++ nl
       ++ nl
       ++ "Daily outcomes :" ++ nl
       ++ outcomeLines ++ nl
       ++ "Daily outcomes total :" ++ nl
       ++ "  - " ++ toFixed2 totalOutcome ++ " " ++ ticketCurrency ++ nl
       ++ nl
       ++ "Daily delta : " ++ signed (totalIncome - totalOutcome)
       ++ toFixed2 (totalIncome - totalOutcome) ++ " " ++ ticketCurrency ++ nl
       ++ nl
       ++ "Cash balance :" ++ nl
       ++ "  - Initial cash at opening : " ++ toFixed2 (amount (cashOpening session))
       ++ " " ++ currency (cashOpening session) ++ nl
       ++ "  - Daily cash incomes : " ++ toFixed2 cashIncome ++ " " ++ ticketCurrency ++ nl
       ++ "  - Daily cash outcomes : " ++ toFixed2 cashOutcomes ++ " " ++ ticketCurrency
       ++ match cashClosing session with
          | Some c => nl ++ "  - Remaining cash at daily closing : "
                         ++ toFixed2 (amount c) ++ " " ++ currency c
          | None => ""
          end
       ++ match cashClosingTheoretical session with
          | Some c => nl ++ "  - Theorical remaining cash at daily closing : "
                         ++ toFixed2 (amount c) ++ " " ++ currency c
          | None => ""
          end
       ++ match cashDelta session with
          | Some d => nl ++ "Cash delta : " ++ signed (amount d)
                         ++ toFixed2 (amount d) ++ " " ++ currency d
          | None => ""
          end
       ++ match cashDeltaJustification session with
          | Some j => if truthy (Some j) then nl ++ "  - Motive : " ++ j else ""
          | None => ""
          end).

Definition generateXTicketText (session : PosSession) (incomesMap : JsMap Money)
  : Async string :=
  config <- sync read_runtimeConfig ;;
  toLocaleString <- sync read_toLocaleString ;;
  let ticketCurrency := currency (cashOpening session) in
  let incomes := incomesMap in
  let totalIncome := total (fun e => amount (snd e)) incomes in
  let incomeLines :=
    join_lines (map (fun e => "  - " ++ fst e ++ " : " ++ toFixed2 (amount (snd e))
                                ++ " " ++ currency (snd e))
                    incomes) in
  now <- sync new_Date ;;
  Ret (brandName config ++ " X ticket" ++ nl
       ++ "Opening time : " ++ toLocaleString (openedAt session) ++ " by "
       ++ operator_name (openedBy session) ++ nl
       ++ "X ticket current time : " ++ toLocaleString now ++ " by "
       ++ operator_name (openedBy session) ++ nl
       ++ nl
       ++ "Daily incomes so far :" ++ nl
       ++ incomeLines ++ nl
       ++ "Daily incomes total so far :" ++ nl
       ++ "  - " ++ toFixed2 totalIncome ++ " " ++ ticketCurrency).

(** ** Closing a session and interim tickets *)

Module Close.
Record params := mk {
  sessionId : ObjectId;
  cashClosing : Money;
  outcomes : list PosSessionOutcome;
  cashDeltaJustification : option string;
  user : PosSessionUser
}.
End Close.

Definition closePosSession (params : Close.params) : Async (PosSession * string) :=
  session <- await (posSessions_findOne (Close.sessionId params)) ;;
  match session with
  | None => Throw (error 404 "POS session not found")
  | Some session =>
      if PosSessionStatus_eqb (status session) closed then
        Throw (error 400 "POS session is already closed")
      else
        incomesMap <- calculateDailyIncomes session ;;
        let dailyIncomes :=
          map (fun e => mkIncome (fst e) (amount (snd e)) (currency (snd e)))
              incomesMap in
        let cashIncome :=
          match Map_get incomesMap "point-of-sale" with
          | Some data => amount data
          | None => 0
          end in
        let totalOutcomes := total outcome_amount (Close.outcomes params) in
        let cashClosingTheoretical :=
          mkMoney (amount (cashOpening session) + cashIncome - totalOutcomes)
                  (currency (cashOpening session)) in
        let cashDelta :=
          mkMoney (amount (Close.cashClosing params) - amount cashClosingTheoretical)
                  (currency (cashOpening session)) in
        if (tolerance <? abs (amount cashDelta))
           && negb (truthy (Close.cashDeltaJustification params)) then
          Throw (error 400
                   "Cash delta justification is required when there is a difference")
        else
          closed_at <- sync new_Date ;;
          updated_at <- sync new_Date ;;
          let updatedSession :=
            {| _id := _id session;
               status := closed;
               openedAt := openedAt session;
               openedBy := openedBy session;
               closedAt := Some closed_at;
               closedBy := Some (Close.user params);
               cashOpening := cashOpening session;
               cashClosing := Some (Close.cashClosing params);
               cashClosingTheoretical := Some cashClosingTheoretical;
               cashDelta := Some cashDelta;
               cashDeltaJustification := Close.cashDeltaJustification params;
               dailyIncomes := dailyIncomes;
               dailyOutcomes := Close.outcomes params;
               xTickets := xTickets session;
               createdAt := createdAt session;
               updatedAt := updated_at |} in
          await (posSessions_replaceOne (Close.sessionId params) updatedSession) ;;;
          zTicketText <- generateZTicketText updatedSession ;;
          Ret (updatedSession, zTicketText)
  end.

Module XTicket.
Record params := mk {
  sessionId : ObjectId;
  user : PosSessionUser
}.
End XTicket.

(** [$push] on [xTickets] and [$set] on [updatedAt]. *)
Definition push_xTicket (entry : PosSessionXTicket) (updated : Date) (s : PosSession)
  : PosSession :=
  {| _id := _id s;
     status := status s;
     openedAt := openedAt s;
     openedBy := openedBy s;
     closedAt := closedAt s;
     closedBy := closedBy s;
     cashOpening := cashOpening s;
     cashClosing := cashClosing s;
     cashClosingTheoretical := cashClosingTheoretical s;
     cashDelta := cashDelta s;
     cashDeltaJustification := cashDeltaJustification s;
     dailyIncomes := dailyIncomes s;
     dailyOutcomes := dailyOutcomes s;
     xTickets := xTickets s ++ [entry];
     createdAt := createdAt s;
     updatedAt := updated |}.

Definition generateXTicket (params : XTicket.params) : Async string :=
  session <- await (posSessions_findOne (XTicket.sessionId params)) ;;
  match session with
  | None => Throw (error 404 "POS session not found")
  | Some session =>
      if negb (PosSessionStatus_eqb (status session) active) then
        Throw (error 400 "POS session is not active")
      else
        incomesMap <- calculateDailyIncomes session ;;
        generated <- sync new_Date ;;
        updated <- sync new_Date ;;
        await (posSessions_updateOne (XTicket.sessionId params)
                 (push_xTicket (mkXTicket generated (XTicket.user params)) updated)) ;;;
        generateXTicketText session incomesMap
  end.

(** ** The error kinds of the specification *)

Definition NotEnabled : Thrown := error 400 "POS sessions are not enabled".
Definition AlreadyActive : Thrown := error 400 "There is already an active POS session".
Definition NotFound : Thrown := error 404 "POS session not found".
Definition AlreadyClosed : Thrown := error 400 "POS session is already closed".
Definition NotActive : Thrown := error 400 "POS session is not active".
Definition JustificationRequired : Thrown :=
  error 400 "Cash delta justification is required when there is a difference".

(** ** The closing page ([routes/(app)/pos/closing/+page.server.ts]) *)

Module Closing.

Record SessionInfo := mkSessionInfo {
  session_id : string;
  session_openedAt : Date;
  session_cashOpening : Money
}.

Record IncomeRow := mkIncomeRow {
  row_method : PaymentMethod;
  row_amount : float;
  row_currency : Currency
}.

Record UserInfo := mkUserInfo {
  alias : option string;
  login : string
}.

Record PageData := mkPageData {
  session : SessionInfo;
  incomes : list IncomeRow;
  cashDeltaJustificationMandatory : bool;
  user : option UserInfo
}.

(** [locals.user], as far as the page reads it. *)
Definition load (locals_user : option PosSessionUser) : Async PageData :=
  posSession <- getCurrentPosSession ;;
  match posSession with
  | None => Throw (error 404 "No active POS session")
  | Some posSession =>
      incomesMap <- calculateDailyIncomes posSession ;;
      config <- sync read_runtimeConfig ;;
      Ret {| session :=
               {| session_id := ObjectId_toString (_id posSession);
                  session_openedAt := openedAt posSession;
                  session_cashOpening := cashOpening posSession |};
             incomes :=
               map (fun e => mkIncomeRow (fst e) (amount (snd e)) (currency (snd e)))
                   incomesMap;
             cashDeltaJustificationMandatory :=
               posCashDeltaJustificationMandatory config;
             user :=
               match locals_user with
               | Some u => Some (mkUserInfo (userAlias u) (userLogin u))
               | None => None
               end |}
  end.

(** What [FormData.get] returns for a field that is present: a string or a
    [File]. *)
Inductive FormDataEntryValue :=
| entry_string (s : string)
| entry_File.

(** The entries of a [FormData], in order. *)
Definition FormData := list (string * FormDataEntryValue).

(** [formData.get(name)]: the first value under [name], or [null]. *)
Definition FormData_get (formData : FormData) (name : string)
  : option FormDataEntryValue :=
  option_map snd (find (fun e => String.eqb (fst e) name) formData).

(** [request.formData()]: the promise resolves to the entries of the body, or
    rejects when the body cannot be read as a form. *)
Definition request_formData (body : option FormData) : Effect (Result FormData) :=
  fun w => (match body with Some formData => Ok formData | None => Err TypeError end, w).

(** The fields of the submitted form, once read by [new ObjectId], [Number]
    and [String]. *)
Record Form := mkForm {
  sessionId : ObjectId;
  cashClosingAmount : float;
  bankDepositAmount : float;
  justification : string;
  form_currency : string
}.

Definition isNaN (x : float) : bool := negb (x =? x).

Section Host.

(** The host's conversion of a string to a number, and the driver's
    [new ObjectId(string)], which returns an identifier or throws. *)
Variable StringToNumber : string -> float.
Variable ObjectId_of : string -> option ObjectId.

(** [String(v)] for [v] a form value or [null]. *)
Definition String_of (v : option FormDataEntryValue) : string :=
  match v with
  | Some (entry_string s) => s
  | Some entry_File => "[object File]"
  | None => "null"
  end.

(** [Number(v)]: [Number(null)] is 0, and a [File] is converted through its
    string '[object File]', which is not a number. *)
Definition Number_of (v : option FormDataEntryValue) : float :=
  match v with
  | Some (entry_string s) => StringToNumber s
  | Some entry_File => nan
  | None => 0
  end.

(** The five constants read from the form; [None] when [new ObjectId]
    throws, which it does before any other field is read. *)
Definition read_form (formData : FormData) : option Form :=
  match ObjectId_of (String_of (FormData_get formData "sessionId")) with
  | None => None
  | Some id =>
      Some {| sessionId := id;
              cashClosingAmount := Number_of (FormData_get formData "cashClosingAmount");
              bankDepositAmount := Number_of (FormData_get formData "bankDepositAmount");
              justification :=
                match FormData_get formData "justification" with
                | Some v => String_of (Some v)
                | None => ""
                end;
              form_currency := String_of (FormData_get formData "currency") |}
  end.

(** The action from its two checks of the amounts on: the checks, the close
    and the redirect that ends it. *)
Definition submit (u : PosSessionUser) (form : Form) : Async unit :=
  if isNaN (cashClosingAmount form) || (cashClosingAmount form <? 0) then
    Throw (error 400 "Invalid cash closing amount")
  else if isNaN (bankDepositAmount form) || (bankDepositAmount form <? 0) then
    Throw (error 400 "Invalid bank deposit amount")
  else
    closePosSession
      {| Close.sessionId := sessionId form;
         Close.cashClosing := mkMoney (cashClosingAmount form) (form_currency form);
         Close.outcomes :=
           [mkOutcome "bank-deposit" (bankDepositAmount form) (form_currency form)];
         Close.cashDeltaJustification :=
           if truthy (Some (justification form)) then Some (justification form)
           else None;
         Close.user := u |} ;;;
    Throw (redirect 303 ("/pos/history/" ++ ObjectId_toString (sessionId form)
                          ++ "/z-ticket?justClosed=true")).

(** The default action; it ends by throwing its redirect. *)
Definition action (locals_user : option PosSessionUser) (body : option FormData)
  : Async unit :=
  match locals_user with
  | None => Throw (error 401 "Unauthorized")
  | Some u =>
      formData <- awaitResult (request_formData body) ;;
      match read_form formData with
      | None => Throw BSONError
      | Some form => submit u form
      end
  end.

End Host.

End Closing.

(** ** The aggregation in the words of the specification *)

(** The payments that count for [session], in the order of the collection:
    those with status 'paid' of the orders with status 'paid' that were
    created at or after the opening of the session. *)
Definition counted (session : PosSession) (os : list Order) : list OrderPayment :=
  flat_map (fun o =>
              if (openedAt session <=? order_createdAt o)%Z
                 && String.eqb (order_status o) "paid"
              then filter (fun p => String.eqb (payment_status p) "paid") (payments o)
              else [])
           os.

(** The distinct elements of a list, in the order of their first
    occurrence. *)
Definition first_seen (l : list string) : list string :=
  fold_left (fun seen x => if existsb (String.eqb x) seen then seen else (seen ++ [x])%list)
            l [].

(** The amounts of the payments made with [m], added one after the other to
    the first, with the currency of the first; nothing when there is no such
    payment. *)
Definition method_total (m : PaymentMethod) (ps : list OrderPayment) : option Money :=
  match filter (fun p => String.eqb (method p) m) ps with
  | [] => None
  | p :: rest =>
      Some {| amount := fold_left (fun sum q => sum + amount (price q)) rest
                                  (amount (price p));
              currency := currency (price p) |}
  end.

(** ** Frames *)

(** [b] is [a] in every field but [xTickets] and [updatedAt]. *)
Definition same_but_xTickets_updatedAt (a b : PosSession) : Prop :=
  _id b = _id a
  /\ status b = status a
  /\ openedAt b = openedAt a
  /\ openedBy b = openedBy a
  /\ closedAt b = closedAt a
  /\ closedBy b = closedBy a
  /\ cashOpening b = cashOpening a
  /\ cashClosing b = cashClosing a
  /\ cashClosingTheoretical b = cashClosingTheoretical a
  /\ cashDelta b = cashDelta a
  /\ cashDeltaJustification b = cashDeltaJustification a
  /\ dailyIncomes b = dailyIncomes a
  /\ dailyOutcomes b = dailyOutcomes a
  /\ createdAt b = createdAt a.

(** [l'] is [l] with one occurrence of [x], the first document with the id
    of [x], replaced by [y]. *)
Definition replaced_in (x y : PosSession) (l l' : list PosSession) : Prop :=
  exists before after,
    l = (before ++ x :: after)%list
    /\ l' = (before ++ y :: after)%list
    /\ forall z, In z before -> _id z <> _id x.

(** ** Sequences of requests *)

Inductive Request :=
| OpenSession (params : Open.params)
| CloseSession (params : Close.params)
| InterimTicket (params : XTicket.params).

(** The world after a request has been served, whatever it answered. *)
Definition serve (r : Request) (w : World) : World :=
  match r with
  | OpenSession p => snd (run (openPosSession p) w)
  | CloseSession p => snd (run (closePosSession p) w)
  | InterimTicket p => snd (run (generateXTicket p) w)
  end.

Definition serve_all (rs : list Request) (w : World) : World :=
  fold_left (fun w r => serve r w) rs w.

Definition active_sessions (w : World) : list PosSession :=
  filter (has_status active) (posSessions (collections w)).

Definition at_most_one_active (w : World) : Prop :=
  (List.length (active_sessions w) <= 1)%nat.

(** ** A host and a till for the examples *)

Module Example.

Definition two_digits (n : Z) : string :=
  if (n <? 10)%Z then "0" ++ digits n else digits n.

(** Day, month and year of the proleptic Gregorian calendar, from the
    number of days since 1970-01-01. *)
Definition civil_from_days (days : Z) : Z * Z * Z :=
  let z := (days + 719468)%Z in
  let era := (z / 146097)%Z in
  let doe := (z - era * 146097)%Z in
  let yoe := ((doe - doe / 1460 + doe / 36524 - doe / 146096) / 365)%Z in
  let doy := (doe - (365 * yoe + yoe / 4 - yoe / 100))%Z in
  let mp := ((5 * doy + 2) / 153)%Z in
  let d := (doy - (153 * mp + 2) / 5 + 1)%Z in
  let m := if (mp <? 10)%Z then (mp + 3)%Z else (mp - 9)%Z in
  let y := (yoe + era * 400 + (if (m <=? 2)%Z then 1 else 0))%Z in
  (d, m, y).

(** [Date.prototype.toLocaleString] of a process whose locale is en-GB and
    whose time zone is UTC, for dates from 1970 on:
    [dd/mm/yyyy, hh:mm:ss]. *)
Definition enGB_UTC (t : Date) : string :=
  let s := (t / 1000)%Z in
  let '(d, m, y) := civil_from_days (s / 86400) in
  let r := (s mod 86400)%Z in
  two_digits d ++ "/" ++ two_digits m ++ "/" ++ digits y ++ ", "
    ++ two_digits (r / 3600) ++ ":" ++ two_digits (r mod 3600 / 60) ++ ":"
    ++ two_digits (r mod 60).

Definition alice : PosSessionUser := mkUser 0x65a1b2c3d4e5f60718293a4b%N "alice" (Some "Alice").
Definition bob : PosSessionUser := mkUser 0x65a1b2c3d4e5f60718293a4c%N "bob" None.

Definition eur (x : float) : Money := mkMoney x "EUR".

Definition config : RuntimeConfig :=
  {| posSessionsEnabled := true;
     posCashDeltaJustificationMandatory := true;
     brandName := "be-BOP" |}.

(** 2 November 2026, 08:00:00 UTC, and one reading of the clock per
    second from then on. *)
Definition morning : Date := 1793606400000%Z.

Definition empty : World :=
  {| collections := mkCollections [] [];
     runtimeConfig := config;
     console := [];
     clock := fun n => (morning + 1000 * Z.of_nat n)%Z;
     tick := 0%nat;
     objectIds := fun n => (0x6907000000000000000000a0 + N.of_nat n)%N;
     minted := 0%nat;
     toLocaleString := enGB_UTC |}.

Definition till : ObjectId := 0x6907000000000000000000a0%N.

(** The session that Alice opens on the empty world with [opening] euros,
    and the world it leaves. *)
Definition session (opening : float) : PosSession :=
  {| _id := till;
     status := active;
     openedAt := morning;
     openedBy := alice;
     closedAt := None;
     closedBy := None;
     cashOpening := eur opening;
     cashClosing := None;
     cashClosingTheoretical := None;
     cashDelta := None;
     cashDeltaJustification := None;
     dailyIncomes := [];
     dailyOutcomes := [];
     xTickets := [];
     createdAt := (morning + 1000)%Z;
     updatedAt := (morning + 2000)%Z |}.

Definition opened (opening : float) : World :=
  {| collections := mkCollections [session opening] [];
     runtimeConfig := config;
     console := [];
     clock := clock empty;
     tick := 3%nat;
     objectIds := objectIds empty;
     minted := 1%nat;
     toLocaleString := enGB_UTC |}.

Definition cash (t : Date) (x : float) : Order :=
  mkOrder t "paid" [mkPayment "point-of-sale" "paid" (eur x)].

End Example.

(** ** Tab groups ([src/lib/types/PosTabGroup.ts]) *)

Record PosTab := mkPosTab {
  label : option string;
  color : option string
}.

Record PosTabGroup := mkPosTabGroup {
  name : string;
  tabs : list PosTab
}.

Definition defaultPosTabGroups : list PosTabGroup :=
  [ {| name := "Tables"; tabs := repeat (mkPosTab None None) 5 |};
    {| name := "Terrasse";
       tabs := [mkPosTab (Some "Sunny") None; mkPosTab None (Some "#f59e0b")] |} ].

(** [array[i]] for a number [i]: the element at [i] when [i] is a
    non-negative integer below the length, [undefined] otherwise. *)
Definition array_index (i : float) : option Z :=
  match Prim2SF i with
  | S754_zero _ => Some 0%Z
  | S754_finite false m e =>
      if (0 <=? e)%Z then Some (Z.pos m * 2 ^ e)%Z
      else if (Z.pos m mod 2 ^ (- e) =? 0)%Z then Some (Z.pos m / 2 ^ (- e))%Z
      else None
  | _ => None
  end.

Definition array_get {A : Type} (l : list A) (i : float) : option A :=
  match array_index i with
  | Some n => if (n <? Z.of_nat (List.length l))%Z then nth_error l (Z.to_nat n) else None
  | None => None
  end.

(** The character class [[a-z0-9]]. *)
Definition is_slug_char (c : ascii) : bool :=
  let n := nat_of_ascii c in
  ((97 <=? n) && (n <=? 122) || (48 <=? n) && (n <=? 57))%nat.

Definition dash : ascii := "-"%char.

(** [.replace(/[^a-z0-9]+/g, '-')]: every maximal run of characters outside
    the class becomes one dash; [in_run] tells that the run being read has
    already been replaced. *)
Fixpoint replace_runs (in_run : bool) (s : string) : string :=
  match s with
  | EmptyString => EmptyString
  | String c rest =>
      if is_slug_char c then String c (replace_runs false rest)
      else if in_run then replace_runs true rest
      else String dash (replace_runs true rest)
  end.

Fixpoint drop_last_dash (s : string) : string :=
  match s with
  | EmptyString => EmptyString
  | String c EmptyString => if Ascii.eqb c dash then EmptyString else s
  | String c rest => String c (drop_last_dash rest)
  end.

(** [.replace(/^-|-$/g, '')]: a dash at the start goes, then a dash at the
    end of what is left. *)
Definition strip_dashes (s : string) : string :=
  drop_last_dash
    match s with
    | String c rest => if Ascii.eqb c dash then rest else s
    | EmptyString => s
    end.

(** [toLowerCase] and the rendering of a number in a template literal belong
    to the host; [None] is the [TypeError] thrown when
    [posTabGroups[groupIndex]] is [undefined]. *)
Definition sluggifyTab
    (toLowerCase : string -> string) (Number_toString : float -> string)
    (posTabGroups : list PosTabGroup) (groupIndex tabIndex : float)
  : option string :=
  match array_get posTabGroups groupIndex with
  | None => None
  | Some group =>
      Some (strip_dashes
              (replace_runs false
                 (toLowerCase (name group ++ "-" ++ Number_toString tabIndex))))
  end.

(** A slug: characters of [[a-z0-9-]], no dash at either end, no two dashes
    in a row. *)
Fixpoint no_double_dash (s : string) : Prop :=
  match s with
  | String c (String d _ as rest) => ~ (c = dash /\ d = dash) /\ no_double_dash rest
  | _ => True
  end.

Fixpoint all_chars (p : ascii -> bool) (s : string) : Prop :=
  match s with
  | EmptyString => True
  | String c rest => p c = true /\ all_chars p rest
  end.

Fixpoint last_char (s : string) : option ascii :=
  match s with
  | EmptyString => None
  | String c EmptyString => Some c
  | String _ rest => last_char rest
  end.

Definition is_slug (s : string) : Prop :=
  all_chars (fun c => is_slug_char c || Ascii.eqb c dash) s
  /\ String.get 0 s <> Some dash
  /\ last_char s <> Some dash
  /\ no_double_dash s.

(** ** What a computation leaves alone *)

(** Every effect of [m], in whatever turn it is performed, relates the
    world it finds to the world it leaves by [R]. *)
Fixpoint keeps {A : Type} (R : World -> World -> Prop) (m : Async A) : Prop :=
  match m with
  | Ret _ | Throw _ => True
  | Sync op k | Await op k => (forall w, R w (snd (op w))) /\ forall x, keeps R (k x)
  end.

(** The session operations against the orders, the configuration and the
    host: they read them only.  The clock and the identifiers are consumed,
    never rewound. *)
Definition reads_only (w w' : World) : Prop :=
  orders (collections w') = orders (collections w)
  /\ runtimeConfig w' = runtimeConfig w
  /\ clock w' = clock w
  /\ objectIds w' = objectIds w
  /\ toLocaleString w' = toLocaleString w
  /\ (tick w <= tick w')%nat
  /\ (minted w <= minted w')%nat.

(** The answer of a request served alone. *)
Definition failure (r : Request) (w : World) : option Thrown :=
  match r with
  | OpenSession p =>
      match fst (run (openPosSession p) w) with Err e => Some e | Ok _ => None end
  | CloseSession p =>
      match fst (run (closePosSession p) w) with Err e => Some e | Ok _ => None end
  | InterimTicket p =>
      match fst (run (generateXTicket p) w) with Err e => Some e | Ok _ => None end
  end.

(** The facts of a session that are set when it is opened. *)
Definition same_opening (a b : PosSession) : Prop :=
  _id b = _id a
  /\ openedAt b = openedAt a
  /\ openedBy b = openedBy a
  /\ cashOpening b = cashOpening a
  /\ createdAt b = createdAt a.

Definition is_prefix {A : Type} (l l' : list A) : Prop :=
  exists more, l' = (l ++ more)%list.

(** A request as a computation without a result. *)
Definition request (r : Request) : Async unit :=
  match r with
  | OpenSession p => openPosSession p ;;; Ret tt
  | CloseSession p => closePosSession p ;;; Ret tt
  | InterimTicket p => generateXTicket p ;;; Ret tt
  end.

(** How a request may change a document: the opening facts stay, the log of
    interim tickets grows at its end, and a closed document stays as it is. *)
Definition step_doc (x y : PosSession) : Prop :=
  same_opening x y
  /\ is_prefix (xTickets x) (xTickets y)
  /\ (status x = closed -> y = x).


(** What an interim ticket may change of a document: the log of interim
    tickets grows at its end, and [updatedAt] moves. *)
Definition logged (x y : PosSession) : Prop :=
  same_but_xTickets_updatedAt x y /\ is_prefix (xTickets x) (xTickets y).

(** From [w] to [w'] every session is still there, in place, changed at most
    as [logged] allows; sessions may have been added after them. *)
Definition only_logs (w w' : World) : Prop :=
  exists l1 new,
    posSessions (collections w') = (l1 ++ new)%list
    /\ Forall2 logged (posSessions (collections w)) l1.
(** * Properties *)

(** ** Running a computation *)

Lemma run_bind {A B : Type} (m : Async A) (f : A -> Async B) (w : World) :
  run (bind m f) w =
  match run m w with
  | (Ok a, w') => run (f a) w'
  | (Err e, w') => (Err e, w')
  end.
Proof.
  revert w. induction m as [a | e | X op k IH | X op k IH]; intro w; cbn.
  - reflexivity.
  - reflexivity.
  - destruct (op w) as [x w']. apply IH.
  - destruct (op w) as [x w']. apply IH.
Qed.

Lemma run_settle {A : Type} (m : Async A) (w : World) :
  run (fst (settle m w)) (snd (settle m w)) = run m w.
Proof.
  revert w. induction m as [a | e | X op k IH | X op k IH]; intro w; cbn;
    try reflexivity.
  destruct (op w) as [x w']. apply IH.
Qed.

(** Serving a request turn by turn, with nothing in between, is [run]. *)
Lemma run_turn {A : Type} (m : Async A) (w : World) :
  run (fst (turn m w)) (snd (turn m w)) = run m w.
Proof.
  destruct m as [a | e | X op k | X op k]; cbn; try reflexivity.
  - destruct (op w) as [x w']. apply run_settle.
  - destruct (op w) as [x w']. apply run_settle.
Qed.

Lemma run_sync {X : Type} (op : Effect X) (w : World) :
  run (sync op) w = (Ok (fst (op w)), snd (op w)).
Proof. unfold sync. cbn. destruct (op w); reflexivity. Qed.

Lemma run_await {X : Type} (op : Effect X) (w : World) :
  run (await op) w = (Ok (fst (op w)), snd (op w)).
Proof. unfold await. cbn. destruct (op w); reflexivity. Qed.

(** ** Rendering reads the world and leaves it as it is *)

Lemma run_generateZTicketText (session : PosSession) (w : World) :
  exists text, run (generateZTicketText session) w = (Ok text, w).
Proof.
  unfold generateZTicketText.
  rewrite run_bind, run_sync. cbn [read_runtimeConfig fst snd].
  rewrite run_bind, run_sync. cbn [read_toLocaleString fst snd run].
  eexists. reflexivity.
Qed.

Lemma run_generateXTicketText (session : PosSession) (incomes : JsMap Money) (w : World) :
  exists text, run (generateXTicketText session incomes) w = (Ok text, bump_tick w).
Proof.
  unfold generateXTicketText.
  rewrite run_bind, run_sync. cbn [read_runtimeConfig fst snd].
  rewrite run_bind, run_sync. cbn [read_toLocaleString fst snd].
  rewrite run_bind, run_sync. cbn [new_Date fst snd run].
  eexists. reflexivity.
Qed.

Lemma run_calculateDailyIncomes (session : PosSession) (w : World) :
  exists incomes, run (calculateDailyIncomes session) w = (Ok incomes, w).
Proof.
  unfold calculateDailyIncomes.
  rewrite run_bind, run_await. cbn [orders_find fst snd run].
  eexists. reflexivity.
Qed.

Arguments generateZTicketText : simpl never.
Arguments generateXTicketText : simpl never.
Arguments calculateDailyIncomes : simpl never.

(** ** Documents found and written *)

Lemma find_update_first {A : Type} (p : A -> bool) (f : A -> A) (l : list A) (x : A) :
  find p l = Some x -> p (f x) = true -> find p (update_first p f l) = Some (f x).
Proof.
  induction l as [| y l IH]; cbn; intros Hfind Hp.
  - discriminate.
  - destruct (p y) eqn:Hy.
    + injection Hfind as ->. cbn. now rewrite Hp.
    + cbn. rewrite Hy. now apply IH.
Qed.

Lemma update_first_none {A : Type} (p : A -> bool) (f : A -> A) (l : list A) :
  find p l = None -> update_first p f l = l.
Proof.
  induction l as [| y l IH]; cbn; intro Hfind.
  - reflexivity.
  - destruct (p y); [discriminate |]. f_equal. now apply IH.
Qed.

Lemma update_first_same {A : Type} (p : A -> bool) (l : list A) :
  update_first p (fun x => x) l = l.
Proof.
  induction l as [| y l IH]; cbn; [reflexivity |].
  destruct (p y); [reflexivity | now rewrite IH].
Qed.

Lemma find_has_id (id : ObjectId) (l : list PosSession) (s : PosSession) :
  find (has_id id) l = Some s -> _id s = id.
Proof.
  intro H. apply find_some in H as [_ H]. now apply N.eqb_eq in H.
Qed.

(** ** What [closePosSession] does with the session it finds *)

Section FoundSession.

Variable params : Close.params.
Variable w : World.
Variable session : PosSession.

Hypothesis found :
  find (has_id (Close.sessionId params)) (posSessions (collections w)) = Some session.

Lemma close_closed :
  status session = closed ->
  run (closePosSession params) w = (Err AlreadyClosed, w).
Proof.
  intro Hst. unfold closePosSession.
  rewrite run_bind, run_await. cbn [posSessions_findOne fst snd].
  rewrite found, Hst. reflexivity.
Qed.

Variable incomesMap : JsMap Money.
Hypothesis aggregated : run (calculateDailyIncomes session) w = (Ok incomesMap, w).

Let cashIncome : float :=
  match Map_get incomesMap "point-of-sale" with
  | Some data => amount data
  | None => 0
  end.
Let theoretical : float :=
  amount (cashOpening session) + cashIncome - total outcome_amount (Close.outcomes params).
Let delta : float := amount (Close.cashClosing params) - theoretical.

Lemma close_rejected :
  status session = active ->
  (tolerance <? abs delta) && negb (truthy (Close.cashDeltaJustification params)) = true ->
  run (closePosSession params) w = (Err JustificationRequired, w).
Proof.
  intros Hst Hgate. unfold closePosSession.
  rewrite run_bind, run_await. cbn [posSessions_findOne fst snd].
  rewrite found, Hst. cbn [PosSessionStatus_eqb].
  rewrite run_bind, aggregated. cbv zeta.
  fold cashIncome. fold theoretical. cbn [amount]. fold delta.
  rewrite Hgate. reflexivity.
Qed.

Lemma close_accepted :
  status session = active ->
  (tolerance <? abs delta) && negb (truthy (Close.cashDeltaJustification params)) = false ->
  exists (updated : PosSession) (text : string),
    run (closePosSession params) w
    = (Ok (updated, text),
       set_posSessions
         (update_first (has_id (Close.sessionId params)) (fun _ => updated)
                       (posSessions (collections w)))
         (bump_tick (bump_tick w)))
    /\ updated
       = {| _id := _id session;
            status := closed;
            openedAt := openedAt session;
            openedBy := openedBy session;
            closedAt := Some (clock w (tick w));
            closedBy := Some (Close.user params);
            cashOpening := cashOpening session;
            cashClosing := Some (Close.cashClosing params);
            cashClosingTheoretical :=
              Some (mkMoney theoretical (currency (cashOpening session)));
            cashDelta := Some (mkMoney delta (currency (cashOpening session)));
            cashDeltaJustification := Close.cashDeltaJustification params;
            dailyIncomes :=
              map (fun e => mkIncome (fst e) (amount (snd e)) (currency (snd e)))
                  incomesMap;
            dailyOutcomes := Close.outcomes params;
            xTickets := xTickets session;
            createdAt := createdAt session;
            updatedAt := clock w (S (tick w)) |}.
Proof.
  intros Hst Hgate. unfold closePosSession.
  rewrite run_bind, run_await. cbn [posSessions_findOne fst snd].
  rewrite found, Hst. cbn [PosSessionStatus_eqb].
  rewrite run_bind, aggregated. cbv zeta.
  fold cashIncome. fold theoretical. cbn [amount]. fold delta.
  rewrite Hgate.
  rewrite run_bind, run_sync. cbn [new_Date fst snd].
  rewrite run_bind, run_sync. cbn [new_Date fst snd bump_tick tick clock].
  rewrite run_bind, run_await. cbn [posSessions_replaceOne fst snd].
  rewrite run_bind.
  match goal with
  | |- context [run (generateZTicketText ?u) ?w'] =>
      destruct (run_generateZTicketText u w') as [text ->]
  end.
  cbn [run]. eexists. exists text. split; reflexivity.
Qed.

End FoundSession.

Lemma truthy_false (s : option string) :
  truthy s = false <-> s = None \/ s = Some "".
Proof.
  destruct s as [[| c s] |]; cbn; split; intro H; try discriminate; auto.
  destruct H as [H | H]; discriminate.
Qed.

(** ** Closing: the cash computation *)

(** C1. A close request on an active session computes the theoretical
    closing cash as [cashOpening.amount + cashIncome - totalOutcomes], where
    [cashIncome] is the aggregated amount of the method ['point-of-sale'] (0
    when the aggregation has no such entry) and [totalOutcomes] is the sum of
    the outcome amounts of the request, and the cash delta as the declared
    closing amount minus that; both carry the currency of [cashOpening].  The
    session returned holds these two values and is the document stored under
    the id; the only answer other than this one is the rejection for a
    missing justification, which is decided by the same computed delta. *)
Theorem closePosSession_cash_formula
    (params : Close.params) (w : World) (session : PosSession) :
  find (has_id (Close.sessionId params)) (posSessions (collections w)) = Some session ->
  status session = active ->
  exists incomesMap,
    run (calculateDailyIncomes session) w = (Ok incomesMap, w) /\
    let cashIncome :=
      match Map_get incomesMap "point-of-sale" with
      | Some data => amount data
      | None => 0
      end in
    let totalOutcomes :=
      fold_left (fun sum outcome => sum + outcome_amount outcome)
                (Close.outcomes params) 0 in
    let theoretical := amount (cashOpening session) + cashIncome - totalOutcomes in
    let delta := amount (Close.cashClosing params) - theoretical in
    match run (closePosSession params) w with
    | (Ok (updated, _), w') =>
        cashClosingTheoretical updated
        = Some {| amount := theoretical; currency := currency (cashOpening session) |}
        /\ cashDelta updated
           = Some {| amount := delta; currency := currency (cashOpening session) |}
        /\ find (has_id (Close.sessionId params)) (posSessions (collections w'))
           = Some updated
    | (Err e, _) =>
        e = JustificationRequired /\ (tolerance <? abs delta) = true
    end.
Proof.
  intros Hfound Hactive.
  destruct (run_calculateDailyIncomes session w) as [incomesMap Hagg].
  exists incomesMap. split; [exact Hagg |]. cbv zeta.
  pose proof (close_rejected params w session Hfound incomesMap Hagg Hactive) as Hrej.
  pose proof (close_accepted params w session Hfound incomesMap Hagg Hactive) as Hacc.
  cbv zeta in Hrej, Hacc. unfold total in Hrej, Hacc.
  destruct (_ && _) eqn:Hgate in Hrej, Hacc.
  - rewrite (Hrej eq_refl). split; [reflexivity |].
    now apply andb_true_iff in Hgate.
  - destruct (Hacc eq_refl) as (updated & text & -> & Hupd).
    rewrite Hupd at 1 2. cbn [cashClosingTheoretical cashDelta].
    repeat split.
    cbn [set_posSessions set_collections collections posSessions].
    rewrite (find_update_first _ _ _ _ Hfound); [reflexivity |].
    rewrite Hupd. unfold has_id. cbn [_id].
    apply N.eqb_eq. now apply find_has_id with (l := posSessions (collections w)).
Qed.

(** The example of the specification: opening 100, cash income 50 and
    outcomes [30] give a theoretical closing cash of 120. *)
Lemma closePosSession_cash_formula_witness :
  exists updated text w',
    run (closePosSession
           (Close.mk Example.till (Example.eur 120)
                     [mkOutcome "bank-deposit" 30 "EUR"] None Example.bob))
        (set_orders [Example.cash (Example.morning + 5000)%Z 50]
                             (Example.opened 100))
    = (Ok (updated, text), w')
    /\ cashClosingTheoretical updated = Some (Example.eur 120)
    /\ cashDelta updated = Some (Example.eur 0).
Proof.
  destruct (closePosSession_cash_formula
              (Close.mk Example.till (Example.eur 120)
                        [mkOutcome "bank-deposit" 30 "EUR"] None Example.bob)
              (set_orders [Example.cash (Example.morning + 5000)%Z 50]
                                   (Example.opened 100))
              (Example.session 100) eq_refl eq_refl)
    as (incomesMap & Hagg & H).
  apply (f_equal fst) in Hagg. vm_compute in Hagg. injection Hagg as <-.
  cbv zeta in H.
  destruct (run (closePosSession _) _) as [[[updated text] | e] w'].
  - exists updated, text, w'. split; [reflexivity |].
    destruct H as (Ht & Hd & _). split.
    + rewrite Ht. vm_compute. reflexivity.
    + rewrite Hd. vm_compute. reflexivity.
  - destruct H as [_ H]. vm_compute in H. discriminate H.
Defined.

(** A close that succeeds found an active session and leaves, under the
    same id, the closed session it returns. *)
Lemma close_ok_stored (params : Close.params) (w w' : World)
    (updated : PosSession) (text : string) :
  run (closePosSession params) w = (Ok (updated, text), w') ->
  (exists session,
      find (has_id (Close.sessionId params)) (posSessions (collections w)) = Some session
      /\ status session = active)
  /\ find (has_id (Close.sessionId params)) (posSessions (collections w')) = Some updated
  /\ status updated = closed.
Proof.
  intro Hrun.
  destruct (find (has_id (Close.sessionId params)) (posSessions (collections w)))
    as [session |] eqn:Hfound.
  - destruct (status session) eqn:Hst.
    + destruct (run_calculateDailyIncomes session w) as [incomesMap Hagg].
      pose proof (close_rejected params w session Hfound incomesMap Hagg Hst) as Hrej.
      pose proof (close_accepted params w session Hfound incomesMap Hagg Hst) as Hacc.
      cbv zeta in Hrej, Hacc.
      destruct (_ && _) in Hrej, Hacc.
      * rewrite (Hrej eq_refl) in Hrun. discriminate.
      * destruct (Hacc eq_refl) as (u & t & Hrun' & Hu).
        rewrite Hrun' in Hrun. injection Hrun as <- <- <-.
        split; [now exists session |].
        cbn [set_posSessions set_collections collections posSessions].
        rewrite (find_update_first _ _ _ _ Hfound).
        -- split; [reflexivity |]. rewrite Hu. reflexivity.
        -- rewrite Hu. unfold has_id. cbn [_id]. apply N.eqb_eq.
           now apply find_has_id with (l := posSessions (collections w)).
    + rewrite (close_closed params w session Hfound Hst) in Hrun. discriminate.
  - unfold closePosSession in Hrun.
    rewrite run_bind, run_await in Hrun. cbn [posSessions_findOne fst snd] in Hrun.
    rewrite Hfound in Hrun. discriminate.
Qed.

(** ** Closing: the justification gate *)

(** C2. On an active session, close fails with [JustificationRequired]
    exactly when the absolute value of the computed cash delta is strictly
    greater than 0.01 and the justification is missing or empty.  A computed
    delta of exactly 0.01 or -0.01 is accepted without a justification, and a
    close rejected for this reason leaves the world as it was. *)
Theorem closePosSession_justification_gate
    (params : Close.params) (w : World) (session : PosSession)
    (incomesMap : JsMap Money) :
  find (has_id (Close.sessionId params)) (posSessions (collections w)) = Some session ->
  status session = active ->
  run (calculateDailyIncomes session) w = (Ok incomesMap, w) ->
  let cashIncome :=
    match Map_get incomesMap "point-of-sale" with
    | Some data => amount data
    | None => 0
    end in
  let totalOutcomes :=
    fold_left (fun sum outcome => sum + outcome_amount outcome)
              (Close.outcomes params) 0 in
  let delta :=
    amount (Close.cashClosing params)
    - (amount (cashOpening session) + cashIncome - totalOutcomes) in
  let justification := Close.cashDeltaJustification params in
  (fst (run (closePosSession params) w) = Err JustificationRequired
   <-> (tolerance <? abs delta) = true
       /\ (justification = None \/ justification = Some ""))
  /\ (delta = tolerance \/ delta = - tolerance ->
      exists answer, fst (run (closePosSession params) w) = Ok answer)
  /\ (fst (run (closePosSession params) w) = Err JustificationRequired ->
      snd (run (closePosSession params) w) = w).
Proof.
  intros Hfound Hactive Hagg. cbv zeta.
  pose proof (close_rejected params w session Hfound incomesMap Hagg Hactive) as Hrej.
  pose proof (close_accepted params w session Hfound incomesMap Hagg Hactive) as Hacc.
  cbv zeta in Hrej, Hacc. unfold total in Hrej, Hacc.
  destruct (_ && _) eqn:Hgate in Hrej, Hacc.
  - rewrite (Hrej eq_refl). cbn [fst snd].
    apply andb_true_iff in Hgate as [Hbig Hnone].
    apply negb_true_iff, truthy_false in Hnone.
    repeat split; auto.
    intros [Heq | Heq]; rewrite Heq in Hbig; discriminate Hbig.
  - destruct (Hacc eq_refl) as (updated & text & -> & _). cbn [fst snd].
    repeat split.
    + discriminate.
    + discriminate.
    + intros [Hbig Hnone]. apply truthy_false in Hnone.
      rewrite Hbig, Hnone in Hgate. discriminate Hgate.
    + intros _. now exists (updated, text).
    + discriminate.
Qed.

(** A till opened empty and counted at exactly 0.01 closes without a
    justification. *)
Lemma closePosSession_justification_gate_witness :
  exists answer,
    fst (run (closePosSession
                (Close.mk Example.till (Example.eur tolerance) [] None Example.bob))
             (Example.opened 0))
    = Ok answer.
Proof.
  refine (proj1 (proj2 (closePosSession_justification_gate
            (Close.mk Example.till (Example.eur tolerance) [] None Example.bob)
            (Example.opened 0) (Example.session 0) [] eq_refl eq_refl eq_refl)) _).
  left. reflexivity.
Defined.

(** The other side of the boundary: the same till counted at 0.011 (the
    nearest binary64 value) is not closed without a justification. *)
Example closePosSession_0_011_rejected :
  fst (run (closePosSession
              (Close.mk Example.till (Example.eur 0x1.6872b020c49bap-7) [] None
                        Example.bob))
           (Example.opened 0))
  = Err JustificationRequired.
Proof. vm_compute. reflexivity. Qed.

(** ** Closing a closed session *)

(** C5. Closing a session whose status is already [closed] fails with
    [AlreadyClosed] and leaves the world, hence every field of every session,
    as it was; in particular the close that follows a successful close of the
    same id fails in this way. *)
Theorem closePosSession_already_closed (params : Close.params) (w : World) :
  (forall session,
      find (has_id (Close.sessionId params)) (posSessions (collections w)) = Some session ->
      status session = closed ->
      run (closePosSession params) w = (Err AlreadyClosed, w))
  /\ (forall first w0 answer,
         run (closePosSession first) w0 = (Ok answer, w) ->
         Close.sessionId params = Close.sessionId first ->
         run (closePosSession params) w = (Err AlreadyClosed, w)).
Proof.
  split.
  - intros session Hfound Hst. now apply close_closed with (session := session).
  - intros first w0 [updated text] Hrun Hid.
    apply close_ok_stored in Hrun as (_ & Hfound & Hst).
    rewrite <- Hid in Hfound.
    now apply close_closed with (session := updated).
Qed.

(** Bob closes the till of the examples, then Alice tries to. *)
Lemma closePosSession_already_closed_witness :
  exists answer w1,
    run (closePosSession (Close.mk Example.till (Example.eur 200) [] None Example.bob))
        (Example.opened 200)
    = (Ok answer, w1)
    /\ run (closePosSession
              (Close.mk Example.till (Example.eur 0) [] (Some "again") Example.alice))
           w1
       = (Err AlreadyClosed, w1).
Proof.
  destruct (close_accepted
              (Close.mk Example.till (Example.eur 200) [] None Example.bob)
              (Example.opened 200) (Example.session 200) eq_refl [] eq_refl
              eq_refl eq_refl) as (updated & text & Hrun & _).
  match type of Hrun with _ = (_, ?world) => set (w1 := world) in * end.
  exists (updated, text), w1. split; [exact Hrun |].
  exact (proj2 (closePosSession_already_closed
                  (Close.mk Example.till (Example.eur 0) [] (Some "again") Example.alice)
                  w1)
               _ _ _ Hrun eq_refl).
Defined.

(** ** Opening while sessions are disabled *)

(** C10. When [runtimeConfig.posSessionsEnabled] is false, open fails with
    'POS sessions are not enabled' in its first synchronous step: before any
    query for an active session is issued, and with the world left as it
    was. *)
Theorem openPosSession_not_enabled (params : Open.params) (w : World) :
  posSessionsEnabled (runtimeConfig w) = false ->
  settle (openPosSession params) w = (Throw NotEnabled, w)
  /\ run (openPosSession params) w = (Err NotEnabled, w).
Proof.
  intro Hoff. unfold openPosSession, sync.
  cbn [bind settle run read_runtimeConfig]. rewrite Hoff. cbn. split; reflexivity.
Qed.

(** Sessions disabled while a session is active: open answers
    'not enabled', not 'already active'. *)
Lemma openPosSession_not_enabled_witness :
  run (openPosSession (Open.mk (Example.eur 50) Example.bob))
      (set_runtimeConfig (mkRuntimeConfig false true "be-BOP") (Example.opened 200))
  = (Err NotEnabled,
     set_runtimeConfig (mkRuntimeConfig false true "be-BOP") (Example.opened 200)).
Proof.
  exact (proj2 (openPosSession_not_enabled
                  (Open.mk (Example.eur 50) Example.bob)
                  (set_runtimeConfig (mkRuntimeConfig false true "be-BOP")
                                       (Example.opened 200))
                  eq_refl)).
Defined.

(** ** The income aggregation *)

Lemma Map_get_set {V : Type} (m : JsMap V) (k : string) (v : V) (k' : string) :
  Map_get (Map_set m k v) k' = if String.eqb k k' then Some v else Map_get m k'.
Proof.
  unfold Map_get.
  induction m as [| [k0 v0] m IH]; cbn.
  - destruct (String.eqb k k'); reflexivity.
  - destruct (String.eqb k0 k) eqn:Hk0; cbn.
    + apply String.eqb_eq in Hk0 as ->.
      destruct (String.eqb k k'); reflexivity.
    + destruct (String.eqb k0 k') eqn:Hk0'; cbn.
      * apply String.eqb_eq in Hk0' as <-.
        rewrite String.eqb_sym, Hk0. reflexivity.
      * exact IH.
Qed.

Lemma Map_set_keys {V : Type} (m : JsMap V) (k : string) (v : V) :
  map fst (Map_set m k v)
  = if existsb (String.eqb k) (map fst m) then map fst m else (map fst m ++ [k])%list.
Proof.
  induction m as [| [k0 v0] m IH]; cbn.
  - reflexivity.
  - rewrite (String.eqb_sym k k0).
    destruct (String.eqb k0 k); cbn.
    + reflexivity.
    + rewrite IH. destruct (existsb _ _); reflexivity.
Qed.

Lemma first_seen_snoc (l : list string) (x : string) :
  first_seen (l ++ [x])
  = if existsb (String.eqb x) (first_seen l) then first_seen l
    else (first_seen l ++ [x])%list.
Proof. unfold first_seen. rewrite fold_left_app. reflexivity. Qed.

Lemma method_total_snoc (m : PaymentMethod) (ps : list OrderPayment) (p : OrderPayment) :
  method_total m (ps ++ [p])
  = if String.eqb (method p) m then
      match method_total m ps with
      | Some existing =>
          Some {| amount := amount existing + amount (price p);
                  currency := currency existing |}
      | None => Some {| amount := amount (price p); currency := currency (price p) |}
      end
    else method_total m ps.
Proof.
  unfold method_total. rewrite filter_app. cbn [filter].
  destruct (String.eqb (method p) m).
  - destruct (filter _ ps) as [| q rest]; cbn [app].
    + reflexivity.
    + rewrite fold_left_app. reflexivity.
  - now rewrite app_nil_r.
Qed.

Lemma add_payment_keys (incomes : JsMap Money) (p : OrderPayment) :
  map fst (add_payment incomes p)
  = if existsb (String.eqb (method p)) (map fst incomes)
    then map fst incomes else (map fst incomes ++ [method p])%list.
Proof.
  unfold add_payment. destruct (Map_get incomes (method p)); apply Map_set_keys.
Qed.

Lemma add_payment_get (incomes : JsMap Money) (p : OrderPayment) (m : string) :
  Map_get (add_payment incomes p) m
  = if String.eqb (method p) m then
      match Map_get incomes m with
      | Some existing =>
          Some {| amount := amount existing + amount (price p);
                  currency := currency existing |}
      | None => Some {| amount := amount (price p); currency := currency (price p) |}
      end
    else Map_get incomes m.
Proof.
  unfold add_payment.
  destruct (Map_get incomes (method p)) as [existing |] eqn:Hex;
    rewrite Map_get_set;
    destruct (String.eqb (method p) m) eqn:Hm; try reflexivity;
    apply String.eqb_eq in Hm; subst m; rewrite Hex; reflexivity.
Qed.

(** The map built by the [forEach] has the methods in first-seen order and,
    for each, the running sum and the currency of its first payment. *)
Lemma aggregate_payments (ps : list OrderPayment) :
  map fst (fold_left add_payment ps []) = first_seen (map method ps)
  /\ forall m, Map_get (fold_left add_payment ps []) m = method_total m ps.
Proof.
  induction ps as [| p ps [IHkeys IHget]] using rev_ind.
  - split; reflexivity.
  - rewrite fold_left_app, map_app. cbn [fold_left map]. split.
    + rewrite add_payment_keys, first_seen_snoc, IHkeys. reflexivity.
    + intro m. rewrite method_total_snoc, add_payment_get, IHget. reflexivity.
Qed.

Lemma paid_payments_counted (session : PosSession) (os : list Order) :
  filter (fun p => String.eqb (payment_status p) "paid")
         (flat_map payments
            (filter (fun o => (openedAt session <=? order_createdAt o)%Z
                              && String.eqb (order_status o) "paid") os))
  = counted session os.
Proof.
  unfold counted.
  induction os as [| o os IH]; cbn [filter flat_map].
  - reflexivity.
  - destruct (_ && _); cbn [flat_map].
    + rewrite filter_app, IH. reflexivity.
    + exact IH.
Qed.

Lemma counted_spec (session : PosSession) (os : list Order) (p : OrderPayment) :
  In p (counted session os)
  <-> exists o, In o os /\ In p (payments o)
                /\ (openedAt session <= order_createdAt o)%Z
                /\ order_status o = "paid" /\ payment_status p = "paid".
Proof.
  unfold counted. rewrite in_flat_map. split.
  - intros (o & Ho & Hp). exists o.
    destruct (_ && _) eqn:Hwin in Hp; [| contradiction].
    apply andb_true_iff in Hwin as [Hdate Hpaid].
    apply filter_In in Hp as [Hp Hpp].
    apply Z.leb_le in Hdate. apply String.eqb_eq in Hpaid, Hpp. auto.
  - intros (o & Ho & Hp & Hdate & Hpaid & Hpp). exists o. split; [exact Ho |].
    apply Z.leb_le in Hdate. apply String.eqb_eq in Hpaid, Hpp.
    rewrite Hdate, Hpaid. cbn [andb]. apply filter_In. auto.
Qed.

(** C3. For the orders of the collection, whatever they are, the aggregation
    counts exactly the payments with status 'paid' of the orders with status
    'paid' created at or after [session.openedAt].  It returns one entry per
    payment method, in the order in which the methods are first seen; the
    amount of an entry is the sum of the counted payments of its method (added
    in their order) and its currency is that of the first of them.  It writes
    nothing. *)
Theorem calculateDailyIncomes_aggregates (session : PosSession) (w : World) :
  exists incomes,
    run (calculateDailyIncomes session) w = (Ok incomes, w)
    /\ (forall p,
           In p (counted session (orders (collections w)))
           <-> exists o, In o (orders (collections w)) /\ In p (payments o)
                         /\ (openedAt session <= order_createdAt o)%Z
                         /\ order_status o = "paid" /\ payment_status p = "paid")
    /\ map fst incomes
       = first_seen (map method (counted session (orders (collections w))))
    /\ (forall m,
           Map_get incomes m
           = match filter (fun p => String.eqb (method p) m)
                          (counted session (orders (collections w))) with
             | [] => None
             | p :: rest =>
                 Some {| amount := fold_left (fun sum q => sum + amount (price q)) rest
                                             (amount (price p));
                         currency := currency (price p) |}
             end).
Proof.
  eexists. split.
  - unfold calculateDailyIncomes.
    rewrite run_bind, run_await. cbn [orders_find fst snd run].
    rewrite paid_payments_counted. reflexivity.
  - split; [apply counted_spec |].
    apply aggregate_payments.
Qed.

(** The example of the specification: of a cash payment made before the
    opening, one made after it and a pending card payment made after it, only
    the second is counted. *)
Example calculateDailyIncomes_window :
  fst (run (calculateDailyIncomes (Example.session 0))
           (set_orders
              [mkOrder (Example.morning - 1)%Z "paid"
                       [mkPayment "point-of-sale" "paid" (Example.eur 10)];
               mkOrder (Example.morning + 1)%Z "paid"
                       [mkPayment "point-of-sale" "paid" (Example.eur 20)];
               mkOrder (Example.morning + 2)%Z "pending"
                       [mkPayment "card" "pending" (Example.eur 5)]]
              (Example.opened 0)))
  = Ok [("point-of-sale", Example.eur 20)].
Proof. vm_compute. reflexivity. Qed.

(** ** Rendering twice *)

Lemma length_append (a b : string) :
  String.length (a ++ b) = (String.length a + String.length b)%nat.
Proof. induction a as [| c a IH]; cbn; [reflexivity | now rewrite IH]. Qed.

Lemma append_inv_head (p a b : string) : p ++ a = p ++ b -> a = b.
Proof.
  induction p as [| c p IH]; cbn; intro H; [exact H |].
  injection H as H. now apply IH.
Qed.

Lemma append_inv_tail (a b s : string) : a ++ s = b ++ s -> a = b.
Proof.
  revert b. induction a as [| c a IH]; intros [| d b] H; cbn in H.
  - reflexivity.
  - apply (f_equal String.length) in H. cbn in H. rewrite length_append in H. lia.
  - apply (f_equal String.length) in H. cbn in H. rewrite length_append in H. lia.
  - injection H as -> H. f_equal. now apply IH.
Qed.

(** The interim ticket is a function of the reading of the clock made while
    rendering; two readings give the same text exactly when the host renders
    them alike. *)
Lemma generateXTicketText_clock (session : PosSession) (incomes : JsMap Money) (w : World) :
  exists text : Date -> string,
    (forall d1 d2, text d1 = text d2 <-> toLocaleString w d1 = toLocaleString w d2)
    /\ forall w',
        runtimeConfig w' = runtimeConfig w ->
        toLocaleString w' = toLocaleString w ->
        run (generateXTicketText session incomes) w'
        = (Ok (text (clock w' (tick w'))), bump_tick w').
Proof.
  eexists. split.
  2: { intros w' Hconfig Hlocale. unfold generateXTicketText.
       rewrite run_bind, run_sync. cbn [read_runtimeConfig fst snd].
       rewrite run_bind, run_sync. cbn [read_toLocaleString fst snd].
       rewrite run_bind, run_sync. cbn [new_Date fst snd run].
       rewrite Hconfig, Hlocale.
       generalize (clock w' (tick w')). intro now.
       match goal with
       | |- (Ok ?body, _) = _ =>
           let f := eval pattern now in body in
           match f with ?g _ => change body with (g now) end
       end.
       reflexivity. }
  intros d1 d2. cbv beta. split.
  - intro H. repeat apply append_inv_head in H.
    now apply append_inv_tail in H.
  - intros ->. reflexivity.
Qed.

(** C6, as the code has it.  Rendering leaves the collections, the
    configuration and the console as they are.  Rendering the Z-ticket twice
    from one session gives the same text twice.  The X-ticket prints the time
    at which it is rendered, read from the clock by the renderer: two
    renderings of one session and one income snapshot give the same text
    exactly when the host renders their two clock readings alike. *)
Theorem ticket_rendering_twice
    (session : PosSession) (incomes : JsMap Money) (w : World) :
  (exists z,
      run (first <- generateZTicketText session ;;
           second <- generateZTicketText session ;;
           Ret (first, second)) w
      = (Ok (z, z), w))
  /\ (exists x1 x2 w',
         run (first <- generateXTicketText session incomes ;;
              second <- generateXTicketText session incomes ;;
              Ret (first, second)) w
         = (Ok (x1, x2), w')
         /\ collections w' = collections w
         /\ runtimeConfig w' = runtimeConfig w
         /\ console w' = console w
         /\ (x1 = x2
             <-> toLocaleString w (clock w (tick w))
                 = toLocaleString w (clock w (S (tick w))))).
Proof.
  split.
  - destruct (run_generateZTicketText session w) as [z Hz].
    exists z. rewrite run_bind, Hz, run_bind, Hz. reflexivity.
  - destruct (generateXTicketText_clock session incomes w) as (text & Hinj & Hrun).
    exists (text (clock w (tick w))), (text (clock w (S (tick w)))),
           (bump_tick (bump_tick w)).
    split.
    { rewrite run_bind, (Hrun w eq_refl eq_refl).
      rewrite run_bind, (Hrun (bump_tick w) eq_refl eq_refl). reflexivity. }
    do 3 (split; [reflexivity |]). apply Hinj.
Qed.

(** C6, as the claim states it, fails: the same session and the same incomes
    rendered twice in a row, one second apart, give two different X-tickets. *)
Lemma generateXTicketText_twice_differs :
  fst (run (first <- generateXTicketText (Example.session 200)
                                         [("point-of-sale", Example.eur 80)] ;;
            second <- generateXTicketText (Example.session 200)
                                          [("point-of-sale", Example.eur 80)] ;;
            Ret (String.eqb first second))
           (Example.opened 200))
  = Ok false.
Proof. vm_compute. reflexivity. Qed.

(** ** Interim tickets *)

Lemma update_first_split {A : Type} (p : A -> bool) (f : A -> A) (l : list A) (x : A) :
  find p l = Some x ->
  exists before after,
    l = (before ++ x :: after)%list
    /\ update_first p f l = (before ++ f x :: after)%list
    /\ forall z, In z before -> p z = false.
Proof.
  induction l as [| y l IH]; cbn; intro Hfind.
  - discriminate.
  - destruct (p y) eqn:Hy.
    + injection Hfind as ->. exists [], l. cbn. repeat split. intros z [].
    + destruct (IH Hfind) as (before & after & -> & Hupd & Hbefore).
      exists (y :: before), after. cbn. rewrite Hupd. repeat split.
      intros z [<- | Hz]; auto.
Qed.

Lemma replaced_in_update_first (id : ObjectId) (f : PosSession -> PosSession)
    (l : list PosSession) (x : PosSession) :
  find (has_id id) l = Some x ->
  replaced_in x (f x) l (update_first (has_id id) f l).
Proof.
  intro Hfind.
  destruct (update_first_split _ f _ _ Hfind) as (before & after & Hl & Hupd & Hbefore).
  exists before, after. repeat split; auto.
  intros z Hz Heq. apply Hbefore in Hz. unfold has_id in Hz.
  rewrite Heq, (find_has_id _ _ _ Hfind), N.eqb_refl in Hz. discriminate.
Qed.

(** An interim ticket on an active session: the answer and the world left. *)
Lemma xticket_active (params : XTicket.params) (w : World) (session : PosSession) :
  find (has_id (XTicket.sessionId params)) (posSessions (collections w)) = Some session ->
  status session = active ->
  exists text,
    run (generateXTicket params) w
    = (Ok text,
       bump_tick
         (set_posSessions
            (update_first (has_id (XTicket.sessionId params))
               (push_xTicket (mkXTicket (clock w (tick w)) (XTicket.user params))
                             (clock w (S (tick w))))
               (posSessions (collections w)))
            (bump_tick (bump_tick w)))).
Proof.
  intros Hfound Hst. unfold generateXTicket.
  rewrite run_bind, run_await. cbn [posSessions_findOne fst snd].
  rewrite Hfound, Hst. cbn [PosSessionStatus_eqb negb].
  destruct (run_calculateDailyIncomes session w) as [incomesMap Hagg].
  rewrite run_bind, Hagg.
  rewrite run_bind, run_sync. cbn [new_Date fst snd].
  rewrite run_bind, run_sync. cbn [new_Date fst snd bump_tick tick clock].
  rewrite run_bind, run_await. cbn [posSessions_updateOne fst snd].
  match goal with
  | |- context [run (generateXTicketText ?s ?m) ?w'] =>
      destruct (run_generateXTicketText s m w') as [text ->]
  end.
  exists text. reflexivity.
Qed.

(** C7. An interim ticket on an active session appends one entry, holding
    the time of generation and the operator of the request, to the X-ticket
    log of that session and sets its [updatedAt]; every other field of the
    session (its status, which stays [active], and its closing fields among
    them), every other session, the orders and the configuration are as they
    were.  A second interim ticket appends a second entry after the first: on
    a session with an empty log, the log then has length 2. *)
Theorem generateXTicket_appends
    (params : XTicket.params) (w : World) (session : PosSession) :
  find (has_id (XTicket.sessionId params)) (posSessions (collections w)) = Some session ->
  status session = active ->
  exists text w' session',
    run (generateXTicket params) w = (Ok text, w')
    /\ find (has_id (XTicket.sessionId params)) (posSessions (collections w'))
       = Some session'
    /\ xTickets session'
       = (xTickets session ++ [mkXTicket (clock w (tick w)) (XTicket.user params)])%list
    /\ updatedAt session' = clock w (S (tick w))
    /\ same_but_xTickets_updatedAt session session'
    /\ replaced_in session session' (posSessions (collections w))
                   (posSessions (collections w'))
    /\ orders (collections w') = orders (collections w)
    /\ runtimeConfig w' = runtimeConfig w
    /\ forall again : XTicket.params,
        XTicket.sessionId again = XTicket.sessionId params ->
        exists text2 w'' session'',
          run (generateXTicket again) w' = (Ok text2, w'')
          /\ find (has_id (XTicket.sessionId params)) (posSessions (collections w''))
             = Some session''
          /\ xTickets session''
             = (xTickets session
                  ++ [mkXTicket (clock w (tick w)) (XTicket.user params);
                      mkXTicket (clock w' (tick w')) (XTicket.user again)])%list
          /\ status session'' = active
          /\ same_but_xTickets_updatedAt session session''
          /\ (xTickets session = [] -> List.length (xTickets session'') = 2%nat).
Proof.
  intros Hfound Hst.
  destruct (xticket_active params w session Hfound Hst) as [text Hrun].
  set (entry := mkXTicket (clock w (tick w)) (XTicket.user params)) in *.
  set (session' := push_xTicket entry (clock w (S (tick w))) session).
  assert (Hid : has_id (XTicket.sessionId params) session' = true).
  { unfold has_id. cbn [session' push_xTicket _id]. apply N.eqb_eq.
    now apply find_has_id with (l := posSessions (collections w)). }
  eexists text, _, session'. split; [exact Hrun |].
  cbn [bump_tick set_posSessions set_collections collections posSessions orders
       runtimeConfig].
  assert (Hfound' :
            find (has_id (XTicket.sessionId params))
                 (update_first (has_id (XTicket.sessionId params))
                    (push_xTicket entry (clock w (S (tick w))))
                    (posSessions (collections w)))
            = Some session').
  { now apply find_update_first. }
  split; [exact Hfound' |].
  split; [reflexivity |]. split; [reflexivity |].
  split; [repeat split |].
  split; [now apply replaced_in_update_first |].
  split; [reflexivity |]. split; [reflexivity |].
  intros again Hagain.
  match goal with
  | |- context [run (generateXTicket again) ?w1] => set (w' := w1)
  end.
  assert (Hfound2 :
            find (has_id (XTicket.sessionId again)) (posSessions (collections w'))
            = Some session').
  { rewrite Hagain. exact Hfound'. }
  assert (Hst' : status session' = active) by exact Hst.
  destruct (xticket_active again w' session' Hfound2 Hst') as [text2 Hrun2].
  eexists text2, _, _. split; [exact Hrun2 |].
  cbn [bump_tick set_posSessions set_collections collections posSessions].
  rewrite Hagain.
  split.
  { apply find_update_first; [rewrite <- Hagain; exact Hfound2 |].
    exact Hid. }
  cbn [push_xTicket xTickets status session'].
  split; [now rewrite <- app_assoc |].
  split; [exact Hst |].
  split; [repeat split |].
  intros ->. reflexivity.
Qed.

(** Two interim tickets on the till that Alice opened. *)
Lemma generateXTicket_appends_witness :
  exists text w' session',
    run (generateXTicket (XTicket.mk Example.till Example.bob)) (Example.opened 200)
    = (Ok text, w')
    /\ find (has_id Example.till) (posSessions (collections w')) = Some session'
    /\ xTickets session' = [mkXTicket (Example.morning + 3000)%Z Example.bob]
    /\ forall again : XTicket.params,
        XTicket.sessionId again = Example.till ->
        exists text2 w'' session'',
          run (generateXTicket again) w' = (Ok text2, w'')
          /\ find (has_id Example.till) (posSessions (collections w'')) = Some session''
          /\ status session'' = active
          /\ List.length (xTickets session'') = 2%nat.
Proof.
  destruct (generateXTicket_appends (XTicket.mk Example.till Example.bob)
              (Example.opened 200) (Example.session 200) eq_refl eq_refl)
    as (text & w' & session' & Hrun & Hfound & Hlog & _ & _ & _ & _ & _ & Htwice).
  exists text, w', session'. repeat split; auto.
  intros again Hagain.
  destruct (Htwice again Hagain)
    as (text2 & w'' & session'' & Hrun2 & Hfound2 & _ & Hst & _ & Hlen).
  exists text2, w'', session''. repeat split; auto.
Defined.

(** ** At most one active session *)

Lemma sort_desc_first_none (key : PosSession -> option Date) (l : list PosSession) :
  sort_desc_first key l = None <-> l = [].
Proof.
  unfold sort_desc_first. split; [| intros ->; reflexivity].
  destruct l as [| x l]; [reflexivity |]. cbn [fold_left]. intro H. exfalso.
  revert x H. induction l as [| y l IH]; intros x H; cbn [fold_left] in H.
  - discriminate.
  - destruct (key_ltb (key x) (key y)); now apply IH in H.
Qed.

Lemma close_not_found (params : Close.params) (w : World) :
  find (has_id (Close.sessionId params)) (posSessions (collections w)) = None ->
  run (closePosSession params) w = (Err NotFound, w).
Proof.
  intro Hnone. unfold closePosSession.
  rewrite run_bind, run_await. cbn [posSessions_findOne fst snd].
  rewrite Hnone. reflexivity.
Qed.

Lemma xticket_not_active (params : XTicket.params) (w : World) :
  (find (has_id (XTicket.sessionId params)) (posSessions (collections w)) = None ->
   run (generateXTicket params) w = (Err NotFound, w))
  /\ (forall session,
         find (has_id (XTicket.sessionId params)) (posSessions (collections w))
         = Some session ->
         status session = closed ->
         run (generateXTicket params) w = (Err NotActive, w)).
Proof.
  split.
  - intro Hnone. unfold generateXTicket.
    rewrite run_bind, run_await. cbn [posSessions_findOne fst snd].
    rewrite Hnone. reflexivity.
  - intros session Hfound Hst. unfold generateXTicket.
    rewrite run_bind, run_await. cbn [posSessions_findOne fst snd].
    rewrite Hfound, Hst. reflexivity.
Qed.

(** What each operation can do to the collection of sessions. *)
Lemma close_sessions (params : Close.params) (w : World) :
  posSessions (collections (snd (run (closePosSession params) w)))
  = posSessions (collections w)
  \/ exists updated,
      status updated = closed
      /\ posSessions (collections (snd (run (closePosSession params) w)))
         = update_first (has_id (Close.sessionId params)) (fun _ => updated)
                        (posSessions (collections w)).
Proof.
  destruct (find (has_id (Close.sessionId params)) (posSessions (collections w)))
    as [session |] eqn:Hfound.
  - destruct (status session) eqn:Hst.
    + destruct (run_calculateDailyIncomes session w) as [incomesMap Hagg].
      pose proof (close_rejected params w session Hfound incomesMap Hagg Hst) as Hrej.
      pose proof (close_accepted params w session Hfound incomesMap Hagg Hst) as Hacc.
      cbv zeta in Hrej, Hacc.
      destruct (_ && _) in Hrej, Hacc.
      * rewrite (Hrej eq_refl). now left.
      * destruct (Hacc eq_refl) as (updated & text & -> & Hupd).
        right. exists updated. split; [rewrite Hupd; reflexivity | reflexivity].
    + rewrite (close_closed params w session Hfound Hst). now left.
  - rewrite (close_not_found params w Hfound). now left.
Qed.

Lemma xticket_sessions (params : XTicket.params) (w : World) :
  exists f : PosSession -> PosSession,
    (forall s, _id (f s) = _id s /\ status (f s) = status s)
    /\ posSessions (collections (snd (run (generateXTicket params) w)))
       = update_first (has_id (XTicket.sessionId params)) f (posSessions (collections w)).
Proof.
  destruct (find (has_id (XTicket.sessionId params)) (posSessions (collections w)))
    as [session |] eqn:Hfound.
  - destruct (status session) eqn:Hst.
    + destruct (xticket_active params w session Hfound Hst) as [text ->].
      eexists. split; [| reflexivity]. intro s. split; reflexivity.
    + rewrite (proj2 (xticket_not_active params w) session Hfound Hst).
      exists (fun s => s). split; [auto |].
      now rewrite update_first_same.
  - rewrite (proj1 (xticket_not_active params w) Hfound).
    exists (fun s => s). split; [auto |].
    now rewrite update_first_none.
Qed.

Lemma open_sessions (params : Open.params) (w : World) :
  posSessions (collections (snd (run (openPosSession params) w)))
  = posSessions (collections w)
  \/ active_sessions w = []
     /\ exists s,
         status s = active
         /\ posSessions (collections (snd (run (openPosSession params) w)))
            = (posSessions (collections w) ++ [s])%list.
Proof.
  unfold openPosSession.
  rewrite run_bind, run_sync. cbn [read_runtimeConfig fst snd].
  destruct (posSessionsEnabled (runtimeConfig w)); cbn [negb]; [| now left].
  unfold getCurrentPosSession.
  rewrite run_bind, run_await. cbn [posSessions_findOne_sorted fst snd].
  destruct (sort_desc_first _ (filter (has_status active) _)) as [existing |] eqn:Hcur;
    [now left |].
  apply sort_desc_first_none in Hcur.
  unfold getLastClosedSession.
  rewrite run_bind, run_await. cbn [posSessions_findOne_sorted fst snd].
  rewrite run_bind.
  match goal with
  | |- context [run ?warn w] =>
      assert (Hwarn : exists w1, run warn w = (Ok tt, w1)
                                 /\ collections w1 = collections w)
  end.
  { destruct (match sort_desc_first closedAt _ with Some l => _ | None => _ end)
      as [y |].
    - destruct (_ || _).
      + rewrite run_sync. eexists. split; reflexivity.
      + eexists. split; reflexivity.
    - eexists. split; reflexivity. }
  destruct Hwarn as (w1 & -> & Hw1).
  rewrite run_bind, run_sync. cbn [new_ObjectId fst snd].
  rewrite run_bind, run_sync. cbn [new_Date fst snd].
  rewrite run_bind, run_sync. cbn [new_Date fst snd].
  rewrite run_bind, run_sync. cbn [new_Date fst snd].
  rewrite run_bind. unfold awaitResult, posSessions_insertOne. cbn [run].
  cbn [bump_tick bump_minted collections].
  destruct (existsb _ _).
  - left. cbn [run snd bump_tick bump_minted collections]. now rewrite Hw1.
  - right. split; [exact Hcur |]. eexists. split; [| cbn; rewrite Hw1; reflexivity].
    reflexivity.
Qed.

Lemma active_update_first_closed (p : PosSession -> bool) (y : PosSession)
    (l : list PosSession) :
  status y = closed ->
  (List.length (filter (has_status active) (update_first p (fun _ => y) l))
   <= List.length (filter (has_status active) l))%nat.
Proof.
  intro Hy. induction l as [| x l IH]; cbn; [lia |].
  destruct (p x); cbn.
  - unfold has_status at 1. rewrite Hy. cbn. destruct (has_status active x); cbn; lia.
  - destruct (has_status active x); cbn; lia.
Qed.

Lemma update_first_statuses (p : PosSession -> bool) (f : PosSession -> PosSession)
    (l : list PosSession) :
  (forall s, _id (f s) = _id s /\ status (f s) = status s) ->
  map (fun s => (_id s, status s)) (update_first p f l)
  = map (fun s => (_id s, status s)) l.
Proof.
  intro Hf. induction l as [| x l IH]; cbn; [reflexivity |].
  destruct (p x); cbn.
  - destruct (Hf x) as [-> ->]. reflexivity.
  - now rewrite IH.
Qed.

Lemma active_by_statuses (l l' : list PosSession) :
  map (fun s => (_id s, status s)) l' = map (fun s => (_id s, status s)) l ->
  List.length (filter (has_status active) l')
  = List.length (filter (has_status active) l).
Proof.
  revert l'. induction l as [| x l IH]; intros [| x' l'] H; cbn in H;
    try discriminate; [reflexivity |].
  injection H as _ Hst H. cbn [filter].
  replace (has_status active x') with (has_status active x)
    by (unfold has_status; now rewrite Hst).
  destruct (has_status active x); cbn [List.length]; now rewrite (IH l' H).
Qed.

Lemma serve_preserves (r : Request) (w : World) :
  at_most_one_active w -> at_most_one_active (serve r w).
Proof.
  unfold at_most_one_active, active_sessions. intro Hw.
  destruct r as [p | p | p]; cbn [serve].
  - destruct (open_sessions p w) as [-> | (Hnone & s & Hs & ->)]; [exact Hw |].
    unfold active_sessions in Hnone.
    rewrite filter_app, Hnone. cbn. unfold has_status. rewrite Hs. cbn. lia.
  - destruct (close_sessions p w) as [-> | (updated & Hst & ->)]; [exact Hw |].
    etransitivity; [now apply active_update_first_closed | exact Hw].
  - destruct (xticket_sessions p w) as (f & Hf & ->).
    rewrite (active_by_statuses (posSessions (collections w))); [exact Hw |].
    now apply update_first_statuses.
Qed.

(** C8, as the code has it.  Whatever requests are served one after the other,
    from a world with
    at most one active session, at most one session is active after each of
    them.  While a session is active, open fails and changes nothing: with
    'There is already an active POS session' when POS sessions are enabled
    (when they are not, open has already failed with 'POS sessions are not
    enabled').  Open and the interim ticket keep the id and the status of every
    session there is, so that only close takes a session out of [active]. *)
Theorem singleton_invariant (w : World) :
  at_most_one_active w ->
  (forall requests, at_most_one_active (serve_all requests w))
  /\ (forall params,
         active_sessions w <> [] ->
         run (openPosSession params) w
         = (Err (if posSessionsEnabled (runtimeConfig w)
                 then AlreadyActive else NotEnabled), w))
  /\ (forall r,
         (forall p, r <> CloseSession p) ->
         exists new,
           map (fun s => (_id s, status s)) (posSessions (collections (serve r w)))
           = (map (fun s => (_id s, status s)) (posSessions (collections w))
                ++ new)%list).
Proof.
  intro Hw. split; [| split].
  - intro requests. revert w Hw. unfold serve_all.
    induction requests as [| r requests IH]; intros w Hw; cbn [fold_left].
    + exact Hw.
    + apply IH. now apply serve_preserves.
  - intros params Hactive. unfold openPosSession.
    rewrite run_bind, run_sync. cbn [read_runtimeConfig fst snd].
    destruct (posSessionsEnabled (runtimeConfig w)); cbn [negb]; [| reflexivity].
    unfold getCurrentPosSession.
    rewrite run_bind, run_await. cbn [posSessions_findOne_sorted fst snd].
    destruct (sort_desc_first _ _) as [existing |] eqn:Hcur; [reflexivity |].
    apply sort_desc_first_none in Hcur. contradiction.
  - intros r Hr. destruct r as [p | p | p]; cbn [serve].
    + destruct (open_sessions p w) as [-> | (_ & s & _ & ->)].
      * exists []. now rewrite app_nil_r.
      * rewrite map_app. eexists. reflexivity.
    + now destruct (Hr p).
    + destruct (xticket_sessions p w) as (f & Hf & ->).
      exists []. rewrite app_nil_r. now apply update_first_statuses.
Qed.

(** Open, interim ticket, close and open again on the till of the
    examples, with a second open attempted in between. *)
Lemma singleton_invariant_witness :
  at_most_one_active
    (serve_all
       [OpenSession (Open.mk (Example.eur 10) Example.bob);
        InterimTicket (XTicket.mk Example.till Example.bob);
        CloseSession (Close.mk Example.till (Example.eur 200) [] None Example.bob);
        OpenSession (Open.mk (Example.eur 200) Example.bob);
        OpenSession (Open.mk (Example.eur 200) Example.alice)]
       (Example.opened 200))
  /\ run (openPosSession (Open.mk (Example.eur 10) Example.bob)) (Example.opened 200)
     = (Err AlreadyActive, Example.opened 200).
Proof.
  destruct (singleton_invariant (Example.opened 200) (le_n 1)) as (Hall & Hopen & _).
  split.
  - apply Hall.
  - apply (Hopen (Open.mk (Example.eur 10) Example.bob)). discriminate.
Defined.

(** C8, as the claim states it, fails: with POS sessions disabled and the
    till active, open fails with 'POS sessions are not enabled', not with
    'There is already an active POS session'. *)
Lemma openPosSession_active_but_disabled :
  active_sessions (set_runtimeConfig (mkRuntimeConfig false true "be-BOP")
                                     (Example.opened 200))
  = [Example.session 200]
  /\ fst (run (openPosSession (Open.mk (Example.eur 50) Example.bob))
              (set_runtimeConfig (mkRuntimeConfig false true "be-BOP")
                                 (Example.opened 200)))
     = Err NotEnabled
  /\ NotEnabled <> AlreadyActive.
Proof.
  split; [reflexivity |]. split; [reflexivity | discriminate].
Qed.

(** ** Two closes of one session *)

Lemma run_calculateDailyIncomes_value (session : PosSession) (w : World) :
  run (calculateDailyIncomes session) w
  = (Ok (fold_left add_payment
           (filter (fun p => String.eqb (payment_status p) "paid")
              (flat_map payments
                 (filter (fun o => (openedAt session <=? order_createdAt o)%Z
                                   && String.eqb (order_status o) "paid")
                         (orders (collections w)))))
           []), w).
Proof. reflexivity. Qed.

(** Two closes of one session, each of which succeeds when it is served
    alone, served in alternation: both read the session while it is active,
    and both return; the document left is the one written last. *)
Lemma close_race (first second : Close.params) (w : World) :
  Close.sessionId second = Close.sessionId first ->
  (exists r, fst (run (closePosSession first) w) = Ok r) ->
  (exists r, fst (run (closePosSession second) w) = Ok r) ->
  exists r1 r2 w2,
    interleave [First; Second; First; Second; First; Second]
               (closePosSession first) (closePosSession second) w
    = (Ret r1, Ret r2, w2)
    /\ closedBy (fst r1) = Some (Close.user first)
    /\ closedBy (fst r2) = Some (Close.user second)
    /\ find (has_id (Close.sessionId first)) (posSessions (collections w2))
       = Some (fst r2).
Proof.
  intros Hid [ra Ha] [rb Hb].
  destruct (run (closePosSession first) w) as [[[u t] | e] w1] eqn:Hrun;
    [| discriminate Ha].
  pose proof (close_ok_stored _ _ _ _ _ Hrun) as ((session & Hfound & Hst) & _ & _).
  assert (Hfound' :
            find (has_id (Close.sessionId second)) (posSessions (collections w))
            = Some session) by (now rewrite Hid).
  pose proof (run_calculateDailyIncomes_value session w) as Hagg.
  clear Ha ra.
  unfold closePosSession, calculateDailyIncomes, generateZTicketText, await, sync.
  rewrite Hid.
  cbn [interleave turn settle bind posSessions_findOne orders_find
       PosSessionStatus_eqb].
  rewrite Hfound, Hst.
  cbn [interleave turn settle bind posSessions_findOne orders_find
       PosSessionStatus_eqb].
  rewrite Hfound, Hst.
  cbn [interleave turn settle bind posSessions_findOne orders_find
       PosSessionStatus_eqb].
  destruct (_ && negb (truthy (Close.cashDeltaJustification first))) eqn:Hg1.
  { exfalso.
    pose proof (close_rejected first w session Hfound _ Hagg Hst Hg1) as Hrej.
    clear - Hrej Hrun. rewrite Hrej in Hrun. discriminate Hrun. }
  cbn [interleave turn settle bind new_Date orders_find].
  destruct (_ && negb (truthy (Close.cashDeltaJustification second))) eqn:Hg2.
  { exfalso.
    pose proof (close_rejected second w session Hfound' _ Hagg Hst Hg2) as Hrej.
    clear - Hrej Hb. rewrite Hrej in Hb. discriminate Hb. }
  cbn [interleave turn settle bind new_Date posSessions_replaceOne
       read_runtimeConfig read_toLocaleString].
  do 3 eexists. split; [reflexivity |].
  cbn [fst closedBy]. split; [reflexivity |]. split; [reflexivity |].
  cbn [set_posSessions set_collections collections posSessions bump_tick].
  match goal with
  | |- find ?p (update_first ?p (fun _ => ?b) (update_first ?p (fun _ => ?a) ?l)) = _ =>
      assert (Hp : forall doc, _id doc = _id session -> p doc = true);
      [| apply (find_update_first p (fun _ => b) (update_first p (fun _ => a) l) a);
         [apply (find_update_first p (fun _ => a) l session Hfound) |];
         apply Hp; reflexivity]
  end.
  intros doc Hdoc. unfold has_id. rewrite Hdoc. apply N.eqb_eq.
  now apply find_has_id with (l := posSessions (collections w)).
Qed.

(** C9, as the code has it.  Close checks the status of the session when it
    reads it, and its replace is filtered by [_id] alone.  Take two closes of
    one session, each of which succeeds when it is served alone.  Served one
    after the other, the second fails with [AlreadyClosed].  Served in
    alternation, so that both have read the session before either replaces
    it, both succeed, and the replace served last overwrites the other. *)
Theorem closePosSession_check_then_replace
    (first second : Close.params) (w : World) :
  Close.sessionId second = Close.sessionId first ->
  (exists r, fst (run (closePosSession first) w) = Ok r) ->
  (exists r, fst (run (closePosSession second) w) = Ok r) ->
  (exists r1 w1,
      run (closePosSession first) w = (Ok r1, w1)
      /\ run (closePosSession second) w1 = (Err AlreadyClosed, w1))
  /\ (exists r1 r2 w2,
         interleave [First; Second; First; Second; First; Second]
                    (closePosSession first) (closePosSession second) w
         = (Ret r1, Ret r2, w2)
         /\ closedBy (fst r1) = Some (Close.user first)
         /\ closedBy (fst r2) = Some (Close.user second)
         /\ find (has_id (Close.sessionId first)) (posSessions (collections w2))
            = Some (fst r2)).
Proof.
  intros Hid Hfirst Hsecond. split.
  - destruct Hfirst as [[updated text] Hfirst].
    destruct (run (closePosSession first) w) as [[r1 | e] w1] eqn:Hrun;
      [| discriminate Hfirst].
    cbn [fst] in Hfirst. injection Hfirst as ->.
    exists (updated, text), w1. split; [reflexivity |].
    apply close_ok_stored in Hrun as (_ & Hfound & Hclosed).
    rewrite <- Hid in Hfound.
    now apply close_closed with (session := updated).
  - now apply close_race.
Qed.

(** Alice and Bob close the till of the examples; neither gives a
    justification, and Alice's count leaves no delta. *)
Lemma closePosSession_check_then_replace_witness :
  (exists r1 w1,
      run (closePosSession
             (Close.mk Example.till (Example.eur 200) [] None Example.alice))
          (Example.opened 200)
      = (Ok r1, w1)
      /\ run (closePosSession
                (Close.mk Example.till (Example.eur 180) [] (Some "recount") Example.bob))
             w1
         = (Err AlreadyClosed, w1))
  /\ (exists r1 r2 w2,
         interleave [First; Second; First; Second; First; Second]
           (closePosSession
              (Close.mk Example.till (Example.eur 200) [] None Example.alice))
           (closePosSession
              (Close.mk Example.till (Example.eur 180) [] (Some "recount") Example.bob))
           (Example.opened 200)
         = (Ret r1, Ret r2, w2)
         /\ closedBy (fst r1) = Some Example.alice
         /\ closedBy (fst r2) = Some Example.bob
         /\ find (has_id Example.till) (posSessions (collections w2)) = Some (fst r2)).
Proof.
  refine (closePosSession_check_then_replace
            (Close.mk Example.till (Example.eur 200) [] None Example.alice)
            (Close.mk Example.till (Example.eur 180) [] (Some "recount") Example.bob)
            (Example.opened 200) eq_refl _ _).
  - destruct (close_accepted
                (Close.mk Example.till (Example.eur 200) [] None Example.alice)
                (Example.opened 200) (Example.session 200) eq_refl [] eq_refl
                eq_refl eq_refl) as (updated & text & Hrun & _).
    exists (updated, text). now rewrite Hrun.
  - destruct (close_accepted
                (Close.mk Example.till (Example.eur 180) [] (Some "recount") Example.bob)
                (Example.opened 200) (Example.session 200) eq_refl [] eq_refl
                eq_refl eq_refl) as (updated & text & Hrun & _).
    exists (updated, text). now rewrite Hrun.
Defined.

(** C9, as the claim states it, fails: two closes of the same session id,
    served in alternation, both succeed; the session is closed by Alice, then
    closed again by Bob. *)
Lemma closePosSession_race_both_succeed :
  exists r1 r2 w2,
    interleave [First; Second; First; Second; First; Second]
      (closePosSession
         (Close.mk Example.till (Example.eur 200) [] None Example.alice))
      (closePosSession
         (Close.mk Example.till (Example.eur 180) [] (Some "recount") Example.bob))
      (Example.opened 200)
    = (Ret r1, Ret r2, w2)
    /\ closedBy (fst r1) = Some Example.alice
    /\ closedBy (fst r2) = Some Example.bob.
Proof.
  destruct (close_race
              (Close.mk Example.till (Example.eur 200) [] None Example.alice)
              (Close.mk Example.till (Example.eur 180) [] (Some "recount") Example.bob)
              (Example.opened 200) eq_refl) as (r1 & r2 & w2 & Hrace & Hfirst & Hsecond & _).
  - destruct (close_accepted
                (Close.mk Example.till (Example.eur 200) [] None Example.alice)
                (Example.opened 200) (Example.session 200) eq_refl [] eq_refl
                eq_refl eq_refl) as (updated & text & Hrun & _).
    exists (updated, text). rewrite Hrun. reflexivity.
  - destruct (close_accepted
                (Close.mk Example.till (Example.eur 180) [] (Some "recount") Example.bob)
                (Example.opened 200) (Example.session 200) eq_refl [] eq_refl
                eq_refl eq_refl) as (updated & text & Hrun & _).
    exists (updated, text). rewrite Hrun. reflexivity.
  - exists r1, r2, w2. split; [exact Hrace | split; [exact Hfirst | exact Hsecond]].
Qed.

(** ** The flag [posCashDeltaJustificationMandatory] *)

(** C4 at the failing input.  With the flag off, the closing page is told
    that the justification is not mandatory; a close of that session with a
    cash delta of -20 and no justification is rejected all the same, from the
    form as from a direct call, and the session stays active.  The form is
    taken once its fields are read, and as it is posted, on any host that
    reads '100' as 100, '0' as 0 and the 24 hexadecimal digits of the till as
    its identifier. *)
Theorem closePosSession_flag_off_still_rejects :
  (exists page,
      fst (run (Closing.load (Some Example.bob))
               (set_runtimeConfig (mkRuntimeConfig true false "be-BOP")
                                  (Example.opened 120)))
      = Ok page
      /\ Closing.cashDeltaJustificationMandatory page = false)
  /\ fst (run (Closing.submit Example.bob
                              (Closing.mkForm Example.till 100 0 "" "EUR"))
              (set_runtimeConfig (mkRuntimeConfig true false "be-BOP")
                                 (Example.opened 120)))
     = Err JustificationRequired
  /\ (forall (StringToNumber : string -> float) (ObjectId_of : string -> option ObjectId),
         StringToNumber "100" = 100 ->
         StringToNumber "0" = 0 ->
         ObjectId_of (ObjectId_toString Example.till) = Some Example.till ->
         fst (run (Closing.action StringToNumber ObjectId_of (Some Example.bob)
                     (Some [("sessionId",
                             Closing.entry_string (ObjectId_toString Example.till));
                            ("cashClosingAmount", Closing.entry_string "100");
                            ("bankDepositAmount", Closing.entry_string "0");
                            ("justification", Closing.entry_string "");
                            ("currency", Closing.entry_string "EUR")]))
                  (set_runtimeConfig (mkRuntimeConfig true false "be-BOP")
                                     (Example.opened 120)))
         = Err JustificationRequired)
  /\ run (closePosSession (Close.mk Example.till (Example.eur 100) [] None Example.bob))
         (set_runtimeConfig (mkRuntimeConfig true false "be-BOP") (Example.opened 120))
     = (Err JustificationRequired,
        set_runtimeConfig (mkRuntimeConfig true false "be-BOP") (Example.opened 120)).
Proof.
  split; [| split; [| split]].
  - eexists. split; vm_compute; reflexivity.
  - vm_compute. reflexivity.
  - intros StringToNumber ObjectId_of H100 H0 Hid.
    unfold Closing.action, awaitResult, Closing.request_formData. cbn [bind run].
    unfold Closing.read_form.
    change (Closing.FormData_get _ "sessionId")
      with (Some (Closing.entry_string (ObjectId_toString Example.till))).
    cbn [Closing.String_of]. rewrite Hid.
    change (Closing.FormData_get _ "cashClosingAmount")
      with (Some (Closing.entry_string "100")).
    change (Closing.FormData_get _ "bankDepositAmount")
      with (Some (Closing.entry_string "0")).
    change (Closing.FormData_get _ "justification")
      with (Some (Closing.entry_string "")).
    change (Closing.FormData_get _ "currency")
      with (Some (Closing.entry_string "EUR")).
    cbn [Closing.String_of Closing.Number_of]. rewrite H100, H0.
    vm_compute. reflexivity.
  - apply close_rejected with (session := Example.session 120) (incomesMap := []);
      reflexivity.
Qed.

(** X1. [closePosSession] does not read the flag: its answer is the same
    under either value. *)
Lemma closePosSession_ignores_flag (params : Close.params) (w : World) (flag : bool) :
  fst (run (closePosSession params)
           (set_runtimeConfig
              (mkRuntimeConfig (posSessionsEnabled (runtimeConfig w)) flag
                               (brandName (runtimeConfig w))) w))
  = fst (run (closePosSession params) w).
Proof.
  unfold closePosSession, calculateDailyIncomes, generateZTicketText, await, sync.
  cbn [run bind posSessions_findOne set_runtimeConfig collections].
  destruct (find _ _) as [session |]; [| reflexivity].
  destruct (PosSessionStatus_eqb _ _); [reflexivity |].
  cbn [run bind orders_find set_runtimeConfig collections].
  destruct (_ && _); reflexivity.
Qed.

(** ** Further properties *)

(** The boundary example of the specification in binary64: 119.99 counted
    against a theoretical 120 (opening 100, cash income 50, outcomes [30])
    gives a delta of -0.010000000000005116, whose absolute value exceeds
    0.01; the close without a justification is rejected. *)
Lemma closePosSession_119_99_rejected :
  0x1.dff5c28f5c28fp+6 - (100 + 50 - 30) = -0x1.47ae147ae2p-7
  /\ (tolerance <? abs (0x1.dff5c28f5c28fp+6 - (100 + 50 - 30))) = true
  /\ fst (run (closePosSession
                 (Close.mk Example.till (Example.eur 0x1.dff5c28f5c28fp+6)
                           [mkOutcome "bank-deposit" 30 "EUR"] None Example.bob))
              (set_orders [Example.cash (Example.morning + 5000)%Z 50]
                          (Example.opened 100)))
     = Err JustificationRequired.
Proof. repeat split; vm_compute; reflexivity. Qed.

Lemma open_creates (params : Open.params) (w : World) :
  posSessionsEnabled (runtimeConfig w) = true ->
  active_sessions w = [] ->
  existsb (has_id (objectIds w (minted w))) (posSessions (collections w)) = false ->
  exists w',
    run (openPosSession params) w = (Ok (objectIds w (minted w)), w')
    /\ posSessions (collections w')
       = (posSessions (collections w)
            ++ [{| _id := objectIds w (minted w);
                   status := active;
                   openedAt := clock w (tick w);
                   openedBy := Open.user params;
                   closedAt := None;
                   closedBy := None;
                   cashOpening := Open.cashOpening params;
                   cashClosing := None;
                   cashClosingTheoretical := None;
                   cashDelta := None;
                   cashDeltaJustification := None;
                   dailyIncomes := [];
                   dailyOutcomes := [];
                   xTickets := [];
                   createdAt := clock w (S (tick w));
                   updatedAt := clock w (S (S (tick w))) |}])%list
    /\ orders (collections w') = orders (collections w).
Proof.
  intros Hon Hnone Hfresh. unfold openPosSession.
  rewrite run_bind, run_sync. cbn [read_runtimeConfig fst snd].
  rewrite Hon. cbn [negb].
  unfold getCurrentPosSession.
  rewrite run_bind, run_await. cbn [posSessions_findOne_sorted fst snd].
  unfold active_sessions in Hnone. rewrite Hnone. cbn [sort_desc_first fold_left].
  unfold getLastClosedSession.
  rewrite run_bind, run_await. cbn [posSessions_findOne_sorted fst snd].
  rewrite run_bind.
  match goal with
  | |- context [run ?warn w] =>
      assert (Hwarn : exists w1, run warn w = (Ok tt, w1)
                                 /\ collections w1 = collections w
                                 /\ clock w1 = clock w /\ tick w1 = tick w
                                 /\ objectIds w1 = objectIds w /\ minted w1 = minted w)
  end.
  { destruct (match sort_desc_first closedAt _ with Some l => _ | None => _ end)
      as [y |].
    - destruct (_ || _).
      + rewrite run_sync. eexists. repeat split.
      + eexists. repeat split.
    - eexists. repeat split. }
  destruct Hwarn as (w1 & -> & Hcol & Hclock & Htick & Hids & Hminted).
  rewrite run_bind, run_sync. cbn [new_ObjectId fst snd].
  rewrite run_bind, run_sync. cbn [new_Date fst snd].
  rewrite run_bind, run_sync. cbn [new_Date fst snd].
  rewrite run_bind, run_sync. cbn [new_Date fst snd].
  rewrite run_bind. unfold awaitResult, posSessions_insertOne. cbn [run].
  cbn [bump_tick bump_minted collections clock tick _id].
  rewrite Hcol, Hclock, Htick, Hids, Hminted, Hfresh.
  cbn [run]. eexists. split; [reflexivity |].
  cbn [set_posSessions set_collections collections posSessions orders
       bump_tick bump_minted].
  rewrite Hcol. split; reflexivity.
Qed.

(** X2. Open on a world with POS sessions enabled, no active session and a
    fresh identifier: the identifier is returned and one session is added,
    active, with the opening cash and operator of the request and nothing
    else. *)
Theorem openPosSession_creates (params : Open.params) (w : World) :
  posSessionsEnabled (runtimeConfig w) = true ->
  active_sessions w = [] ->
  existsb (has_id (objectIds w (minted w))) (posSessions (collections w)) = false ->
  exists w',
    run (openPosSession params) w = (Ok (objectIds w (minted w)), w')
    /\ posSessions (collections w')
       = (posSessions (collections w)
            ++ [{| _id := objectIds w (minted w);
                   status := active;
                   openedAt := clock w (tick w);
                   openedBy := Open.user params;
                   closedAt := None;
                   closedBy := None;
                   cashOpening := Open.cashOpening params;
                   cashClosing := None;
                   cashClosingTheoretical := None;
                   cashDelta := None;
                   cashDeltaJustification := None;
                   dailyIncomes := [];
                   dailyOutcomes := [];
                   xTickets := [];
                   createdAt := clock w (S (tick w));
                   updatedAt := clock w (S (S (tick w))) |}])%list
    /\ orders (collections w') = orders (collections w).
Proof. exact (open_creates params w). Qed.

Lemma openPosSession_creates_witness :
  exists w',
    run (openPosSession (Open.mk (Example.eur 200) Example.alice)) Example.empty
    = (Ok Example.till, w')
    /\ posSessions (collections w') = [Example.session 200].
Proof.
  destruct (openPosSession_creates (Open.mk (Example.eur 200) Example.alice)
              Example.empty eq_refl eq_refl eq_refl) as (w' & Hrun & Hsessions & _).
  exists w'. split; [exact Hrun | exact Hsessions].
Defined.

(** Two opens served in alternation on the empty world: each sees no
    active session before the other has inserted its own, and two sessions
    end up active. *)
Lemma openPosSession_race_two_active :
  (let '(a, b, w') :=
     interleave [First; Second; First; Second; First; Second; First; Second]
       (openPosSession (Open.mk (Example.eur 200) Example.alice))
       (openPosSession (Open.mk (Example.eur 200) Example.bob))
       Example.empty in
   (settled a, settled b, List.length (active_sessions w')))
  = (Some (Ok Example.till), Some (Ok (Example.till + 1)%N), 2%nat).
Proof. vm_compute. reflexivity. Qed.

(** X3. The guards of the closing form, in their order.  For a signed-in
    user the action awaits the form data and nothing else before its guards:
    served up to its next await, it has thrown, and nothing is written.  It
    throws the rejection of [request.formData()] if there is one; then the
    error of [new ObjectId] if the field 'sessionId' is not accepted; then
    400 'Invalid cash closing amount' if that amount is not a number or is
    negative; then 400 'Invalid bank deposit amount' likewise.  None of them
    looks at the sessions. *)
Lemma action_invalid_input
    (StringToNumber : string -> float) (ObjectId_of : string -> option ObjectId)
    (u : PosSessionUser) (w : World) :
  turn (Closing.action StringToNumber ObjectId_of (Some u) None) w = (Throw TypeError, w)
  /\ (forall formData,
         ObjectId_of (Closing.String_of (Closing.FormData_get formData "sessionId")) = None ->
         turn (Closing.action StringToNumber ObjectId_of (Some u) (Some formData)) w
         = (Throw BSONError, w))
  /\ (forall formData form,
         Closing.read_form StringToNumber ObjectId_of formData = Some form ->
         (Closing.isNaN (Closing.cashClosingAmount form) = true
          \/ (Closing.cashClosingAmount form <? 0) = true ->
          turn (Closing.action StringToNumber ObjectId_of (Some u) (Some formData)) w
          = (Throw (error 400 "Invalid cash closing amount"), w))
         /\ (Closing.isNaN (Closing.cashClosingAmount form)
             || (Closing.cashClosingAmount form <? 0) = false ->
             Closing.isNaN (Closing.bankDepositAmount form) = true
             \/ (Closing.bankDepositAmount form <? 0) = true ->
             turn (Closing.action StringToNumber ObjectId_of (Some u) (Some formData)) w
             = (Throw (error 400 "Invalid bank deposit amount"), w))).
Proof.
  split; [reflexivity |]. split.
  - intros formData Hid. unfold Closing.action, awaitResult, Closing.request_formData.
    cbn [bind turn settle]. unfold Closing.read_form. rewrite Hid. reflexivity.
  - intros formData form Hread.
    unfold Closing.action, awaitResult, Closing.request_formData.
    cbn [bind turn settle]. rewrite Hread. unfold Closing.submit. split.
    + intro H. apply orb_true_iff in H. rewrite H. reflexivity.
    + intros -> H. apply orb_true_iff in H. rewrite H. reflexivity.
Qed.

(** The end-to-end scenario of the specification: a till opened with 200
    EUR, two cash payments of 50 and 30, an interim ticket, and a close at
    250 with no outcome. *)
Example end_to_end :
  fst (run (id <- openPosSession (Open.mk (Example.eur 200) Example.alice) ;;
            sync (fun w => (tt, set_orders [Example.cash (Example.morning + 5000)%Z 50;
                                            Example.cash (Example.morning + 6000)%Z 30] w)) ;;;
            ticket <- generateXTicket (XTicket.mk id Example.bob) ;;
            (closePosSession (Close.mk id (Example.eur 250) [] None Example.bob) ;;;
             Ret ticket))
           Example.empty)
  = Err JustificationRequired
  /\ fst (run (id <- openPosSession (Open.mk (Example.eur 200) Example.alice) ;;
               sync (fun w => (tt, set_orders [Example.cash (Example.morning + 5000)%Z 50;
                                               Example.cash (Example.morning + 6000)%Z 30] w)) ;;;
               ticket <- generateXTicket (XTicket.mk id Example.bob) ;;
               answer <- closePosSession
                           (Close.mk id (Example.eur 250) [] (Some "counted error")
                                     Example.bob) ;;
               Ret (ticket, cashClosingTheoretical (fst answer), cashDelta (fst answer)))
              Example.empty)
     = Ok ("be-BOP X ticket
Opening time : 02/11/2026, 08:00:00 by Alice
X ticket current time : 02/11/2026, 08:00:05 by Alice

Daily incomes so far :
  - point-of-sale : 80.00 EUR
Daily incomes total so far :
  - 80.00 EUR",
           Some (Example.eur 280), Some (Example.eur (-30))).
Proof. split; vm_compute; reflexivity. Qed.

(** * More of the code *)

(** ** Slugs of tabs *)

Lemma is_slug_char_not_dash (c : ascii) : is_slug_char c = true -> c <> dash.
Proof. intros H ->. discriminate H. Qed.

Lemma no_double_dash_cons (c : ascii) (s : string) :
  c <> dash \/ String.get 0 s <> Some dash ->
  no_double_dash s -> no_double_dash (String c s).
Proof.
  intros H Hs. destruct s as [| d s]; [exact I |].
  split; [| exact Hs]. intros [-> ->]. destruct H as [H | H]; now apply H.
Qed.

Lemma no_double_dash_tail (c : ascii) (s : string) :
  no_double_dash (String c s) -> no_double_dash s.
Proof. destruct s as [| d s]; [intros; exact I | intros [_ H]; exact H]. Qed.

Lemma no_double_dash_second (s : string) :
  no_double_dash (String dash s) -> String.get 0 s <> Some dash.
Proof.
  destruct s as [| d s]; cbn; [discriminate |].
  intros [H _] Heq. injection Heq as ->. now apply H.
Qed.

Lemma replace_runs_shape (in_run : bool) (s : string) :
  all_chars (fun c => is_slug_char c || Ascii.eqb c dash) (replace_runs in_run s)
  /\ no_double_dash (replace_runs in_run s)
  /\ (in_run = true -> String.get 0 (replace_runs in_run s) <> Some dash).
Proof.
  revert in_run. induction s as [| c s IH]; intro in_run; cbn [replace_runs].
  - repeat split. discriminate.
  - destruct (is_slug_char c) eqn:Hc.
    + destruct (IH false) as (Hchars & Hdd & _). repeat split.
      * now rewrite Hc.
      * exact Hchars.
      * apply no_double_dash_cons; [left; now apply is_slug_char_not_dash | exact Hdd].
      * intros _. cbn. intro H. injection H as ->. discriminate Hc.
    + destruct in_run.
      * apply IH.
      * destruct (IH true) as (Hchars & Hdd & Hhead). repeat split.
        -- exact Hchars.
        -- apply no_double_dash_cons; [right; now apply Hhead | exact Hdd].
        -- discriminate.
Qed.

Lemma drop_last_dash_empty (s : string) :
  drop_last_dash s = EmptyString -> s = EmptyString \/ s = String dash EmptyString.
Proof.
  destruct s as [| c [| d s]]; cbn; intro H.
  - now left.
  - destruct (Ascii.eqb c dash) eqn:Hc; [| discriminate H].
    apply Ascii.eqb_eq in Hc. subst c. now right.
  - discriminate H.
Qed.

Lemma last_char_cons (c : ascii) (s : string) :
  s <> EmptyString -> last_char (String c s) = last_char s.
Proof. destruct s; [intro H; now destruct H | reflexivity]. Qed.

Lemma drop_last_dash_shape (s : string) :
  all_chars (fun c => is_slug_char c || Ascii.eqb c dash) s ->
  no_double_dash s ->
  all_chars (fun c => is_slug_char c || Ascii.eqb c dash) (drop_last_dash s)
  /\ no_double_dash (drop_last_dash s)
  /\ last_char (drop_last_dash s) <> Some dash
  /\ (String.get 0 s <> Some dash -> String.get 0 (drop_last_dash s) <> Some dash).
Proof.
  induction s as [| c s IH]; intros Hchars Hdd.
  - cbn. repeat split; try discriminate.
  - destruct s as [| d s].
    + cbn [drop_last_dash]. destruct (Ascii.eqb c dash) eqn:Hc.
      * cbn. repeat split; discriminate.
      * split; [exact Hchars |]. split; [exact I |]. split; [| auto].
        cbn. intro H. injection H as ->. discriminate Hc.
    + change (drop_last_dash (String c (String d s)))
        with (String c (drop_last_dash (String d s))).
      destruct Hchars as [Hc Hchars].
      destruct (IH Hchars (no_double_dash_tail _ _ Hdd)) as (A1 & A2 & A3 & A4).
      assert (Hcd : c = dash -> String.get 0 (String d s) <> Some dash).
      { intros ->. now apply no_double_dash_second. }
      repeat split.
      * exact Hc.
      * exact A1.
      * apply no_double_dash_cons; [| exact A2].
        destruct (Ascii.eqb c dash) eqn:Hc'.
        -- apply Ascii.eqb_eq in Hc'. right. now apply A4, Hcd.
        -- left. intros ->. discriminate Hc'.
      * destruct (drop_last_dash (String d s)) as [| h t] eqn:Hdrop.
        -- apply drop_last_dash_empty in Hdrop as [Hdrop | Hdrop];
             [discriminate Hdrop |].
           injection Hdrop as -> ->. cbn. intro H. injection H as ->.
           now apply (Hcd eq_refl).
        -- rewrite last_char_cons by discriminate. exact A3.
      * intros Hhead. exact Hhead.
Qed.

Lemma strip_dashes_shape (s : string) :
  all_chars (fun c => is_slug_char c || Ascii.eqb c dash) s ->
  no_double_dash s ->
  is_slug (strip_dashes s).
Proof.
  intros Hchars Hdd. unfold strip_dashes, is_slug.
  destruct s as [| c s].
  - cbn. repeat split; discriminate.
  - destruct (Ascii.eqb c dash) eqn:Hc.
    + apply Ascii.eqb_eq in Hc. subst c.
      destruct (drop_last_dash_shape s (proj2 Hchars) (no_double_dash_tail _ _ Hdd))
        as (A1 & A2 & A3 & A4).
      repeat split; auto. now apply A4, no_double_dash_second.
    + destruct (drop_last_dash_shape (String c s) Hchars Hdd) as (A1 & A2 & A3 & A4).
      repeat split; auto. apply A4. cbn. intro H. injection H as ->. discriminate Hc.
Qed.

Lemma replace_runs_fixed (s : string) :
  all_chars (fun c => is_slug_char c || Ascii.eqb c dash) s ->
  no_double_dash s ->
  forall in_run,
    (in_run = true -> String.get 0 s <> Some dash) ->
    replace_runs in_run s = s.
Proof.
  induction s as [| c s IH]; intros Hchars Hdd in_run Hrun; [reflexivity |].
  destruct Hchars as [Hc Hchars]. cbn [replace_runs].
  destruct (is_slug_char c) eqn:Hslug.
  - f_equal. apply IH; [exact Hchars | exact (no_double_dash_tail _ _ Hdd) |].
    discriminate.
  - cbn in Hc. apply Ascii.eqb_eq in Hc. subst c.
    destruct in_run; [now destruct (Hrun eq_refl) |].
    f_equal. apply IH; [exact Hchars | exact (no_double_dash_tail _ _ Hdd) |].
    intros _. now apply no_double_dash_second.
Qed.

Lemma drop_last_dash_fixed (s : string) :
  last_char s <> Some dash -> drop_last_dash s = s.
Proof.
  induction s as [| c s IH]; [reflexivity |].
  destruct s as [| d s]; intro Hlast.
  - cbn. destruct (Ascii.eqb c dash) eqn:Hc; [| reflexivity].
    apply Ascii.eqb_eq in Hc. subst c. now destruct Hlast.
  - change (drop_last_dash (String c (String d s)))
      with (String c (drop_last_dash (String d s))).
    f_equal. apply IH. exact Hlast.
Qed.

Lemma array_index_nonneg (i : float) (n : Z) :
  array_index i = Some n -> (0 <= n)%Z.
Proof.
  unfold array_index.
  destruct (Prim2SF i) as [| | | [|] m e]; try discriminate.
  - intro H. injection H as <-. lia.
  - destruct (0 <=? e)%Z eqn:He.
    + assert (Hpos : (0 <= Z.pos m * 2 ^ e)%Z).
      { apply Z.leb_le in He.
        apply Z.mul_nonneg_nonneg; [lia | now apply Z.pow_nonneg]. }
      intro H. injection H as <-. exact Hpos.
    + destruct (_ =? 0)%Z; [| discriminate].
      assert (Hpos : (0 <= Z.pos m / 2 ^ (- e))%Z).
      { apply Z.div_pos; [lia |].
        apply Z.pow_pos_nonneg; [lia |]. apply Z.leb_gt in He. lia. }
      intro H. injection H as <-. exact Hpos.
Qed.

Lemma is_slug_fixed (s : string) :
  is_slug s -> strip_dashes (replace_runs false s) = s.
Proof.
  intros (H1 & H2 & H3 & H4).
  rewrite (replace_runs_fixed _ H1 H4 false) by discriminate.
  unfold strip_dashes. destruct s as [| c s]; [reflexivity |].
  destruct (Ascii.eqb c dash) eqn:Hc.
  - apply Ascii.eqb_eq in Hc. subst c. now destruct H2.
  - now apply drop_last_dash_fixed.
Qed.

(** X4. [sluggifyTab] throws exactly when there is no group at
    [groupIndex] (an index that is negative, fractional, [NaN] or beyond the
    array).  Otherwise its result is a slug whatever the name of the group and
    the host's lower-casing and number rendering: it holds only the
    characters [a-z], [0-9] and [-], neither starts nor ends with a dash, and
    has no two dashes in a row.  A slug is a fixed point of the two
    replacements. *)
Theorem sluggifyTab_slug
    (toLowerCase : string -> string) (Number_toString : float -> string)
    (posTabGroups : list PosTabGroup) (groupIndex tabIndex : float) :
  match sluggifyTab toLowerCase Number_toString posTabGroups groupIndex tabIndex with
  | Some slug =>
      (exists n group,
          array_index groupIndex = Some n
          /\ nth_error posTabGroups (Z.to_nat n) = Some group)
      /\ is_slug slug
      /\ strip_dashes (replace_runs false slug) = slug
  | None =>
      forall n, array_index groupIndex = Some n ->
                (Z.of_nat (List.length posTabGroups) <= n)%Z
  end.
Proof.
  unfold sluggifyTab, array_get.
  destruct (array_index groupIndex) as [n |] eqn:Hidx; [| discriminate].
  apply array_index_nonneg in Hidx.
  destruct (n <? _)%Z eqn:Hlt.
  - destruct (nth_error posTabGroups (Z.to_nat n)) as [group |] eqn:Hnth.
    + split; [now exists n, group |].
      destruct (replace_runs_shape false
                  (toLowerCase (name group ++ "-" ++ Number_toString tabIndex)))
        as (Hchars & Hdd & _).
      pose proof (strip_dashes_shape _ Hchars Hdd) as Hslug.
      split; [exact Hslug | now apply is_slug_fixed].
    + intros m Hm. injection Hm as <-. apply nth_error_None in Hnth. lia.
  - intros m Hm. injection Hm as <-. apply Z.ltb_ge in Hlt. exact Hlt.
Qed.

(** ** What the operations only read *)

Lemma keeps_bind {A B : Type} (R : World -> World -> Prop)
    (m : Async A) (f : A -> Async B) :
  keeps R m -> (forall a, keeps R (f a)) -> keeps R (bind m f).
Proof.
  intros Hm Hf. induction m as [a | e | X op k IH | X op k IH]; cbn.
  - apply Hf.
  - exact I.
  - destruct Hm as [Hop Hk]. split; [exact Hop |]. intro x. now apply IH.
  - destruct Hm as [Hop Hk]. split; [exact Hop |]. intro x. now apply IH.
Qed.

Section Kept.

Variable R : World -> World -> Prop.
Hypothesis R_refl : forall w, R w w.
Hypothesis R_trans : forall w1 w2 w3, R w1 w2 -> R w2 w3 -> R w1 w3.

Lemma keeps_run {A : Type} (m : Async A) (w : World) :
  keeps R m -> R w (snd (run m w)).
Proof.
  revert w. induction m as [a | e | X op k IH | X op k IH]; intros w Hm; cbn.
  - apply R_refl.
  - apply R_refl.
  - destruct Hm as [Hop Hk]. specialize (Hop w).
    destruct (op w) as [x w1]. eapply R_trans; [exact Hop | now apply IH].
  - destruct Hm as [Hop Hk]. specialize (Hop w).
    destruct (op w) as [x w1]. eapply R_trans; [exact Hop | now apply IH].
Qed.

Lemma keeps_settle {A : Type} (m : Async A) (w : World) :
  keeps R m -> keeps R (fst (settle m w)) /\ R w (snd (settle m w)).
Proof.
  revert w. induction m as [a | e | X op k IH | X op k IH]; intros w Hm; cbn.
  - split; [exact I | apply R_refl].
  - split; [exact I | apply R_refl].
  - destruct Hm as [Hop Hk]. specialize (Hop w).
    destruct (op w) as [x w1]. destruct (IH x w1 (Hk x)) as [H1 H2].
    split; [exact H1 | eapply R_trans; [exact Hop | exact H2]].
  - split; [exact Hm | apply R_refl].
Qed.

Lemma keeps_turn {A : Type} (m : Async A) (w : World) :
  keeps R m -> keeps R (fst (turn m w)) /\ R w (snd (turn m w)).
Proof.
  intro Hm. destruct m as [a | e | X op k | X op k].
  - now apply keeps_settle.
  - now apply keeps_settle.
  - now apply (keeps_settle (Sync op k)).
  - cbn [turn]. destruct Hm as [Hop Hk]. specialize (Hop w).
    destruct (op w) as [x w1]. destruct (keeps_settle (k x) w1 (Hk x)) as [H1 H2].
    split; [exact H1 | eapply R_trans; [exact Hop | exact H2]].
Qed.

Lemma keeps_interleave {A B : Type} (schedule : list Who)
    (a : Async A) (b : Async B) (w : World) :
  keeps R a -> keeps R b -> R w (snd (interleave schedule a b w)).
Proof.
  revert a b w. induction schedule as [| who schedule IH]; intros a b w Ha Hb.
  - apply R_refl.
  - destruct who; cbn [interleave].
    + destruct (keeps_turn a w Ha) as [Ha' Hw].
      destruct (turn a w) as [a' w']. eapply R_trans; [exact Hw | now apply IH].
    + destruct (keeps_turn b w Hb) as [Hb' Hw].
      destruct (turn b w) as [b' w']. eapply R_trans; [exact Hw | now apply IH].
Qed.

End Kept.

Lemma reads_only_refl (w : World) : reads_only w w.
Proof. unfold reads_only. repeat split; lia. Qed.

Lemma reads_only_trans (w1 w2 w3 : World) :
  reads_only w1 w2 -> reads_only w2 w3 -> reads_only w1 w3.
Proof.
  unfold reads_only.
  intros (A1 & A2 & A3 & A4 & A5 & A6 & A7) (B1 & B2 & B3 & B4 & B5 & B6 & B7).
  repeat split; try congruence; lia.
Qed.

Ltac reads_only_effect :=
  intro; unfold reads_only, new_Date, new_ObjectId, console_warn, read_runtimeConfig,
    read_toLocaleString, posSessions_findOne_sorted, posSessions_findOne,
    posSessions_replaceOne, posSessions_updateOne, orders_find, posSessions_insertOne;
  try match goal with |- context [if ?c then _ else _] => destruct c end;
  cbn; repeat split; lia.

Ltac reads_only_step :=
  lazymatch goal with
  | |- keeps _ (bind _ _) => apply keeps_bind; [| intro]
  | |- keeps _ (sync _) => split; [reads_only_effect | intro; exact I]
  | |- keeps _ (await _) => split; [reads_only_effect | intro; exact I]
  | |- keeps _ (awaitResult _) =>
      split; [reads_only_effect | intros [|]; exact I]
  | |- keeps _ (Ret _) => exact I
  | |- keeps _ (Throw _) => exact I
  | |- keeps _ (match ?x with _ => _ end) => destruct x
  | |- keeps _ (if ?c then _ else _) => destruct c
  end.

Lemma reads_only_calculateDailyIncomes (session : PosSession) :
  keeps reads_only (calculateDailyIncomes session).
Proof. unfold calculateDailyIncomes. repeat reads_only_step. Qed.

Lemma reads_only_generateZTicketText (session : PosSession) :
  keeps reads_only (generateZTicketText session).
Proof. unfold generateZTicketText. repeat reads_only_step. Qed.

Lemma reads_only_generateXTicketText (session : PosSession) (incomes : JsMap Money) :
  keeps reads_only (generateXTicketText session incomes).
Proof. unfold generateXTicketText. repeat reads_only_step. Qed.

Lemma reads_only_openPosSession (params : Open.params) :
  keeps reads_only (openPosSession params).
Proof.
  unfold openPosSession, getCurrentPosSession, getLastClosedSession.
  repeat reads_only_step.
Qed.

Lemma reads_only_closePosSession (params : Close.params) :
  keeps reads_only (closePosSession params).
Proof.
  unfold closePosSession.
  repeat (reads_only_step
          || apply reads_only_calculateDailyIncomes
          || apply reads_only_generateZTicketText).
Qed.

Lemma reads_only_generateXTicket (params : XTicket.params) :
  keeps reads_only (generateXTicket params).
Proof.
  unfold generateXTicket.
  repeat (reads_only_step
          || apply reads_only_calculateDailyIncomes
          || apply reads_only_generateXTicketText).
Qed.

Lemma reads_only_request (r : Request) : keeps reads_only (request r).
Proof.
  destruct r; cbn [request]; apply keeps_bind; try (intro; exact I).
  - apply reads_only_openPosSession.
  - apply reads_only_closePosSession.
  - apply reads_only_generateXTicket.
Qed.

Lemma serve_request (r : Request) (w : World) : serve r w = snd (run (request r) w).
Proof.
  destruct r as [p | p | p]; cbn [serve request]; rewrite run_bind.
  - now destruct (run (openPosSession p) w) as [[a | e] w'].
  - now destruct (run (closePosSession p) w) as [[a | e] w'].
  - now destruct (run (generateXTicket p) w) as [[a | e] w'].
Qed.

(** ** How the collection of sessions evolves *)

Lemma is_prefix_refl {A : Type} (l : list A) : is_prefix l l.
Proof. exists []. now rewrite app_nil_r. Qed.

Lemma is_prefix_trans {A : Type} (l1 l2 l3 : list A) :
  is_prefix l1 l2 -> is_prefix l2 l3 -> is_prefix l1 l3.
Proof. intros [m1 ->] [m2 ->]. exists (m1 ++ m2)%list. now rewrite app_assoc. Qed.

Lemma step_doc_refl (x : PosSession) : step_doc x x.
Proof. repeat split. apply is_prefix_refl. Qed.

Lemma step_doc_trans (x y z : PosSession) :
  step_doc x y -> step_doc y z -> step_doc x z.
Proof.
  intros ((A1 & A2 & A3 & A4 & A5) & Ap & Ac) ((B1 & B2 & B3 & B4 & B5) & Bp & Bc).
  split; [| split].
  - repeat split; congruence.
  - now apply is_prefix_trans with (l2 := xTickets y).
  - intro Hx. rewrite (Ac Hx) in *. now apply Bc.
Qed.

Lemma Forall2_step_refl (l : list PosSession) : Forall2 step_doc l l.
Proof. induction l; constructor; [apply step_doc_refl | assumption]. Qed.

Lemma Forall2_update_first (p : PosSession -> bool) (f : PosSession -> PosSession)
    (l : list PosSession) (x : PosSession) :
  find p l = Some x -> step_doc x (f x) -> Forall2 step_doc l (update_first p f l).
Proof.
  induction l as [| y l IH]; cbn; intros Hfind Hstep.
  - constructor.
  - destruct (p y).
    + injection Hfind as ->. constructor; [exact Hstep | apply Forall2_step_refl].
    + constructor; [apply step_doc_refl | now apply IH].
Qed.

(** One request: every document there was is still there, in place, changed
    at most as [step_doc] allows; at most one document is added, active, under
    an identifier not used before. *)
Lemma serve_step (r : Request) (w : World) :
  exists l1 new,
    Forall2 step_doc (posSessions (collections w)) l1
    /\ posSessions (collections (serve r w)) = (l1 ++ new)%list
    /\ (new = []
        \/ exists s, new = [s]
                     /\ existsb (has_id (_id s)) (posSessions (collections w)) = false).
Proof.
  destruct r as [p | p | p]; cbn [serve].
  - (* open *)
    exists (posSessions (collections w)).
    assert (H : posSessions (collections (snd (run (openPosSession p) w)))
                = posSessions (collections w)
                \/ exists s,
                    existsb (has_id (_id s)) (posSessions (collections w)) = false
                    /\ posSessions (collections (snd (run (openPosSession p) w)))
                       = (posSessions (collections w) ++ [s])%list).
    { unfold openPosSession.
      rewrite run_bind, run_sync. cbn [read_runtimeConfig fst snd].
      destruct (posSessionsEnabled (runtimeConfig w)); cbn [negb]; [| now left].
      unfold getCurrentPosSession.
      rewrite run_bind, run_await. cbn [posSessions_findOne_sorted fst snd].
      destruct (sort_desc_first _ (filter (has_status active) _)); [now left |].
      unfold getLastClosedSession.
      rewrite run_bind, run_await. cbn [posSessions_findOne_sorted fst snd].
      rewrite run_bind.
      match goal with
      | |- context [run ?warn w] =>
          assert (Hwarn : exists w1, run warn w = (Ok tt, w1)
                                     /\ collections w1 = collections w)
      end.
      { destruct (match sort_desc_first closedAt _ with Some l => _ | None => _ end)
          as [y |].
        - destruct (_ || _).
          + rewrite run_sync. eexists. split; reflexivity.
          + eexists. split; reflexivity.
        - eexists. split; reflexivity. }
      destruct Hwarn as (w1 & -> & Hw1).
      rewrite run_bind, run_sync. cbn [new_ObjectId fst snd].
      rewrite run_bind, run_sync. cbn [new_Date fst snd].
      rewrite run_bind, run_sync. cbn [new_Date fst snd].
      rewrite run_bind, run_sync. cbn [new_Date fst snd].
      rewrite run_bind. unfold awaitResult, posSessions_insertOne. cbn [run].
      cbn [bump_tick bump_minted collections _id].
      rewrite Hw1.
      destruct (existsb _ _) eqn:Hdup.
      - left. cbn [run snd bump_tick bump_minted collections]. now rewrite ?Hw1.
      - right. eexists. split; [| cbn; rewrite ?Hw1; reflexivity]. exact Hdup. }
    destruct H as [-> | (s & Hfresh & ->)].
    + exists []. rewrite app_nil_r. repeat split; [apply Forall2_step_refl | now left].
    + exists [s]. repeat split; [apply Forall2_step_refl |]. right. now exists s.
  - (* close *)
    exists (posSessions (collections (snd (run (closePosSession p) w)))), [].
    rewrite app_nil_r. split; [| split; [reflexivity | now left]].
    destruct (find (has_id (Close.sessionId p)) (posSessions (collections w)))
      as [session |] eqn:Hfound.
    + destruct (status session) eqn:Hst.
      * destruct (run_calculateDailyIncomes session w) as [incomesMap Hagg].
        pose proof (close_rejected p w session Hfound incomesMap Hagg Hst) as Hrej.
        pose proof (close_accepted p w session Hfound incomesMap Hagg Hst) as Hacc.
        cbv zeta in Hrej, Hacc.
        destruct (_ && _) in Hrej, Hacc.
        -- rewrite (Hrej eq_refl). apply Forall2_step_refl.
        -- destruct (Hacc eq_refl) as (updated & text & -> & Hupd).
           cbn [snd set_posSessions set_collections collections posSessions].
           apply (Forall2_update_first _ (fun _ => updated) _ session Hfound).
           rewrite Hupd. repeat split; cbn.
           ++ apply is_prefix_refl.
           ++ rewrite Hst. discriminate.
      * rewrite (close_closed p w session Hfound Hst). apply Forall2_step_refl.
    + rewrite (close_not_found p w Hfound). apply Forall2_step_refl.
  - (* interim ticket *)
    exists (posSessions (collections (snd (run (generateXTicket p) w)))), [].
    rewrite app_nil_r. split; [| split; [reflexivity | now left]].
    destruct (find (has_id (XTicket.sessionId p)) (posSessions (collections w)))
      as [session |] eqn:Hfound.
    + destruct (status session) eqn:Hst.
      * destruct (xticket_active p w session Hfound Hst) as [text ->].
        cbn [snd bump_tick set_posSessions set_collections collections posSessions].
        apply (Forall2_update_first _ _ _ session Hfound).
        repeat split; cbn.
        -- now eexists.
        -- rewrite Hst. discriminate.
      * rewrite (proj2 (xticket_not_active p w) session Hfound Hst).
        apply Forall2_step_refl.
    + rewrite (proj1 (xticket_not_active p w) Hfound). apply Forall2_step_refl.
Qed.

Lemma find_step (l l1 new : list PosSession) (id : ObjectId) (x : PosSession) :
  Forall2 step_doc l l1 ->
  find (has_id id) l = Some x ->
  exists y, find (has_id id) (l1 ++ new)%list = Some y /\ step_doc x y.
Proof.
  intros Hall. induction Hall as [| a b l l1 Hab Hall IH]; cbn; intro Hfind.
  - discriminate.
  - assert (Hid : has_id id b = has_id id a).
    { unfold has_id. destruct Hab as ((-> & _) & _). reflexivity. }
    rewrite Hid. destruct (has_id id a).
    + injection Hfind as <-. now exists b.
    + now apply IH.
Qed.

Lemma find_serve_all (rs : list Request) (w : World) (id : ObjectId) (s : PosSession) :
  find (has_id id) (posSessions (collections w)) = Some s ->
  exists s',
    find (has_id id) (posSessions (collections (serve_all rs w))) = Some s'
    /\ step_doc s s'.
Proof.
  revert w s. unfold serve_all.
  induction rs as [| r rs IH]; intros w s Hfind; cbn [fold_left].
  - exists s. split; [exact Hfind | apply step_doc_refl].
  - destruct (serve_step r w) as (l1 & new & Hall & Heq & _).
    destruct (find_step _ _ new id s Hall Hfind) as (y & Hy & Hsy).
    rewrite <- Heq in Hy.
    destruct (IH (serve r w) y Hy) as (z & Hz & Hyz).
    exists z. split; [exact Hz | now apply step_doc_trans with (y := y)].
Qed.

(** X5. A closed session is final: whatever requests are served afterwards
    (opens, closes, interim tickets, with any parameters), the document found
    under its id is the same, field for field. *)
Theorem closed_session_is_final
    (rs : list Request) (w : World) (id : ObjectId) (s : PosSession) :
  find (has_id id) (posSessions (collections w)) = Some s ->
  status s = closed ->
  find (has_id id) (posSessions (collections (serve_all rs w))) = Some s.
Proof.
  intros Hfind Hclosed.
  destruct (find_serve_all rs w id s Hfind) as (s' & Hfind' & _ & _ & Hfinal).
  now rewrite <- (Hfinal Hclosed).
Qed.

Lemma closed_session_is_final_witness :
  exists w1 s,
    run (closePosSession (Close.mk Example.till (Example.eur 200) [] None Example.bob))
        (Example.opened 200)
    = (Ok s, w1)
    /\ find (has_id Example.till)
            (posSessions
               (collections
                  (serve_all
                     [CloseSession (Close.mk Example.till (Example.eur 0) []
                                             (Some "again") Example.alice);
                      InterimTicket (XTicket.mk Example.till Example.alice);
                      OpenSession (Open.mk (Example.eur 200) Example.alice);
                      CloseSession (Close.mk Example.till (Example.eur 200) [] None
                                             Example.alice)]
                     w1)))
       = Some (fst s).
Proof.
  destruct (close_accepted
              (Close.mk Example.till (Example.eur 200) [] None Example.bob)
              (Example.opened 200) (Example.session 200) eq_refl [] eq_refl
              eq_refl eq_refl) as (updated & text & Hrun & _).
  match type of Hrun with _ = (_, ?world) => set (w1 := world) in * end.
  destruct (close_ok_stored _ _ _ _ _ Hrun) as (_ & Hstored & Hclosed).
  exists w1, (updated, text). split; [exact Hrun |].
  exact (closed_session_is_final _ w1 Example.till updated Hstored Hclosed).
Defined.

(** X6. The past of a session is kept: after any requests, the document
    found under the id of a session has the same [_id], [openedAt],
    [openedBy], [cashOpening] and [createdAt], and its log of interim tickets
    starts with the log there was. *)
Theorem session_history_is_kept
    (rs : list Request) (w : World) (id : ObjectId) (s : PosSession) :
  find (has_id id) (posSessions (collections w)) = Some s ->
  exists s',
    find (has_id id) (posSessions (collections (serve_all rs w))) = Some s'
    /\ _id s' = _id s
    /\ openedAt s' = openedAt s
    /\ openedBy s' = openedBy s
    /\ cashOpening s' = cashOpening s
    /\ createdAt s' = createdAt s
    /\ exists more, xTickets s' = (xTickets s ++ more)%list.
Proof.
  intro Hfind.
  destruct (find_serve_all rs w id s Hfind)
    as (s' & Hfind' & (A1 & A2 & A3 & A4 & A5) & Hlog & _).
  exists s'. repeat split; assumption.
Qed.

Lemma session_history_is_kept_witness :
  exists s',
    find (has_id Example.till)
         (posSessions
            (collections
               (serve_all
                  [InterimTicket (XTicket.mk Example.till Example.bob);
                   CloseSession (Close.mk Example.till (Example.eur 200) [] None
                                          Example.bob);
                   OpenSession (Open.mk (Example.eur 200) Example.alice)]
                  (Example.opened 200))))
    = Some s'
    /\ openedBy s' = Example.alice
    /\ cashOpening s' = Example.eur 200.
Proof.
  destruct (session_history_is_kept
              [InterimTicket (XTicket.mk Example.till Example.bob);
               CloseSession (Close.mk Example.till (Example.eur 200) [] None Example.bob);
               OpenSession (Open.mk (Example.eur 200) Example.alice)]
              (Example.opened 200) Example.till (Example.session 200) eq_refl)
    as (s' & Hfound & _ & _ & Hby & Hcash & _).
  exists s'. split; [exact Hfound |]. split; [exact Hby | exact Hcash].
Defined.

Lemma step_ids (l l1 : list PosSession) :
  Forall2 step_doc l l1 -> map _id l1 = map _id l.
Proof.
  induction 1 as [| a b l l1 Hab Hall IH]; cbn; [reflexivity |].
  destruct Hab as ((-> & _) & _). now rewrite IH.
Qed.

Lemma existsb_has_id (id : ObjectId) (l : list PosSession) :
  existsb (has_id id) l = false -> ~ In id (map _id l).
Proof.
  induction l as [| x l IH]; cbn; intros H Hin; [exact Hin |].
  apply orb_false_iff in H as [Hx H]. destruct Hin as [Heq | Hin].
  - unfold has_id in Hx. rewrite Heq, N.eqb_refl in Hx. discriminate.
  - now apply IH.
Qed.

(** X7. Identifiers stay unique: if no two sessions share an [_id], no
    sequence of requests makes two sessions share one (open inserts under a
    new identifier or not at all; close and interim tickets keep the
    identifier of the document they write). *)
Theorem session_ids_stay_unique (rs : list Request) (w : World) :
  NoDup (map _id (posSessions (collections w))) ->
  NoDup (map _id (posSessions (collections (serve_all rs w)))).
Proof.
  revert w. unfold serve_all.
  induction rs as [| r rs IH]; intros w Hw; cbn [fold_left]; [exact Hw |].
  apply IH.
  destruct (serve_step r w) as (l1 & new & Hall & -> & Hnew).
  rewrite map_app, (step_ids _ _ Hall).
  destruct Hnew as [-> | (s & -> & Hfresh)].
  - cbn. now rewrite app_nil_r.
  - cbn. apply NoDup_app.
    + exact Hw.
    + constructor; [intros [] | constructor].
    + intros id Hin Hnew. cbn in Hnew. destruct Hnew as [<- | Hnew];
        [now apply (existsb_has_id _ _ Hfresh) | contradiction].
Qed.

Lemma session_ids_stay_unique_witness :
  NoDup (map _id
           (posSessions
              (collections
                 (serve_all
                    [CloseSession (Close.mk Example.till (Example.eur 200) [] None
                                            Example.bob);
                     OpenSession (Open.mk (Example.eur 200) Example.alice);
                     OpenSession (Open.mk (Example.eur 200) Example.bob)]
                    (Example.opened 200))))).
Proof.
  apply session_ids_stay_unique. cbn [Example.opened collections posSessions map].
  constructor; [intros [] | constructor].
Defined.

(** X8. The session operations only read the orders, the configuration
    and the host: after any sequence of requests served one after the other,
    and after any interleaving of two requests at their await points, the
    orders, the runtime configuration, the clock, the identifier supply and
    the date rendering are what they were, and neither the count of clock
    readings nor the count of identifiers drawn has gone down. *)
Theorem requests_read_only (w : World) :
  (forall rs, reads_only w (serve_all rs w))
  /\ (forall r1 r2 schedule,
         reads_only w (snd (interleave schedule (request r1) (request r2) w))).
Proof.
  split.
  - intro rs. revert w. unfold serve_all.
    induction rs as [| r rs IH]; intro w; cbn [fold_left].
    + apply reads_only_refl.
    + apply reads_only_trans with (w2 := serve r w); [| apply IH].
      rewrite serve_request.
      apply (keeps_run reads_only reads_only_refl reads_only_trans).
      apply reads_only_request.
  - intros r1 r2 schedule.
    apply (keeps_interleave reads_only reads_only_refl reads_only_trans);
      apply reads_only_request.
Qed.

(** ** The current and the last session *)

Lemma key_ltb_trans (a b c : option Date) :
  key_ltb a b = true -> key_ltb c b = false -> key_ltb c a = false.
Proof.
  destruct a as [a |], b as [b |], c as [c |]; cbn; try discriminate; try reflexivity.
  - intros H1 H2. apply Z.ltb_lt in H1. apply Z.ltb_ge in H2. apply Z.ltb_ge. lia.
Qed.

Lemma key_ltb_trans' (a b c : option Date) :
  key_ltb a b = false -> key_ltb a c = true -> key_ltb b c = true.
Proof.
  destruct a as [a |], b as [b |], c as [c |]; cbn; try discriminate; try reflexivity.
  intros H1 H2. apply Z.ltb_lt in H2. apply Z.ltb_ge in H1. apply Z.ltb_lt. lia.
Qed.

Lemma key_ltb_irrefl (a : option Date) : key_ltb a a = false.
Proof. destruct a as [a |]; cbn; [apply Z.ltb_irrefl | reflexivity]. Qed.

Lemma sort_desc_first_greatest (key : PosSession -> option Date)
    (l : list PosSession) (s : PosSession) :
  sort_desc_first key l = Some s ->
  In s l /\ forall x, In x l -> key_ltb (key s) (key x) = false.
Proof.
  unfold sort_desc_first.
  assert (Hgen : forall l b,
             fold_left (fun best s =>
                          match best with
                          | None => Some s
                          | Some b => if key_ltb (key b) (key s) then Some s else Some b
                          end) l (Some b) = Some s ->
             (s = b \/ In s l)
             /\ key_ltb (key s) (key b) = false
             /\ forall x, In x l -> key_ltb (key s) (key x) = false).
  { clear l. induction l as [| y l IH]; intros b H; cbn [fold_left] in H.
    - injection H as <-. split; [now left |]. split; [apply key_ltb_irrefl |].
      intros x [].
    - destruct (key_ltb (key b) (key y)) eqn:Hby.
      + destruct (IH y H) as (Hin & Hy & Hall).
        split; [destruct Hin as [-> | Hin]; right; [now left | now right] |].
        split; [exact (key_ltb_trans _ _ _ Hby Hy) |].
        intros x [Heq | Hx]; [subst x; exact Hy | now apply Hall].
      + destruct (IH b H) as (Hin & Hb & Hall).
        split; [destruct Hin as [-> | Hin]; [now left | right; now right] |].
        split; [exact Hb |].
        intros x [Heq | Hx]; [subst x | now apply Hall].
        destruct (key_ltb (key s) (key y)) eqn:Hsx; [| reflexivity].
        pose proof (key_ltb_trans' _ _ _ Hb Hsx) as Hc. congruence. }
  destruct l as [| b l]; cbn [fold_left]; [discriminate |].
  intro H. destruct (Hgen l b H) as (Hin & Hb & Hall).
  split.
  - destruct Hin as [-> | Hin]; [now left | now right].
  - intros x [Heq | Hx]; [subst x; exact Hb | now apply Hall].
Qed.

(** X9. [getCurrentPosSession] answers with an active session of the
    collection whose [openedAt] no other active session exceeds, and with
    nothing exactly when no session is active; [getLastClosedSession] does the
    same for closed sessions and [closedAt].  Neither writes anything. *)
Theorem current_and_last_session (w : World) :
  (exists current,
      run getCurrentPosSession w = (Ok current, w)
      /\ match current with
         | Some s =>
             In s (posSessions (collections w)) /\ status s = active
             /\ forall x, In x (posSessions (collections w)) -> status x = active ->
                          (openedAt x <= openedAt s)%Z
         | None =>
             forall x, In x (posSessions (collections w)) -> status x <> active
         end)
  /\ (exists last,
         run getLastClosedSession w = (Ok last, w)
         /\ match last with
            | Some s =>
                In s (posSessions (collections w)) /\ status s = closed
                /\ forall x t, In x (posSessions (collections w)) -> status x = closed ->
                               closedAt x = Some t ->
                               exists t', closedAt s = Some t' /\ (t <= t')%Z
            | None =>
                forall x, In x (posSessions (collections w)) -> status x <> closed
            end).
Proof.
  assert (Hfilter : forall st x,
             In x (filter (has_status st) (posSessions (collections w)))
             <-> In x (posSessions (collections w)) /\ status x = st).
  { intros st x. rewrite filter_In. unfold has_status.
    split; intros [H1 H2]; (split; [exact H1 |]).
    - now destruct (status x), st.
    - rewrite H2. now destruct st. }
  split.
  - eexists. split; [reflexivity |].
    destruct (sort_desc_first _ _) as [s |] eqn:Hs.
    + apply sort_desc_first_greatest in Hs as [Hin Hmax].
      apply Hfilter in Hin as [Hin Hst]. repeat split; auto.
      intros x Hx Hxa. specialize (Hmax x (proj2 (Hfilter _ _) (conj Hx Hxa))).
      cbn in Hmax. now apply Z.ltb_ge in Hmax.
    + apply sort_desc_first_none in Hs. intros x Hx Hxa.
      assert (H := proj2 (Hfilter _ _) (conj Hx Hxa)). now rewrite Hs in H.
  - eexists. split; [reflexivity |].
    destruct (sort_desc_first _ _) as [s |] eqn:Hs.
    + apply sort_desc_first_greatest in Hs as [Hin Hmax].
      apply Hfilter in Hin as [Hin Hst]. repeat split; auto.
      intros x t Hx Hxc Ht.
      specialize (Hmax x (proj2 (Hfilter _ _) (conj Hx Hxc))).
      rewrite Ht in Hmax. destruct (closedAt s) as [t' |]; cbn in Hmax;
        [| discriminate].
      exists t'. split; [reflexivity |]. now apply Z.ltb_ge in Hmax.
    + apply sort_desc_first_none in Hs. intros x Hx Hxc.
      assert (H := proj2 (Hfilter _ _) (conj Hx Hxc)). now rewrite Hs in H.
Qed.

(** ** What a successful close leaves *)

Lemma close_accepted_text (params : Close.params) (w w' : World)
    (updated : PosSession) (text : string) :
  run (closePosSession params) w = (Ok (updated, text), w') ->
  run (generateZTicketText updated) w' = (Ok text, w').
Proof.
  intro Hrun.
  destruct (close_ok_stored _ _ _ _ _ Hrun) as ((session & Hfound & Hst) & _ & _).
  revert Hrun. unfold closePosSession.
  rewrite run_bind, run_await. cbn [posSessions_findOne fst snd].
  rewrite Hfound, Hst. cbn [PosSessionStatus_eqb].
  destruct (run_calculateDailyIncomes session w) as [incomesMap Hagg].
  rewrite run_bind, Hagg. cbv zeta.
  destruct (_ && _); [discriminate |].
  rewrite run_bind, run_sync. cbn [new_Date fst snd].
  rewrite run_bind, run_sync. cbn [new_Date fst snd bump_tick tick clock].
  rewrite run_bind, run_await. cbn [posSessions_replaceOne fst snd].
  rewrite run_bind.
  match goal with
  | |- context [run (generateZTicketText ?u) ?w1] =>
      destruct (run_generateZTicketText u w1) as [t Ht]; rewrite Ht
  end.
  cbn [run]. intro H. injection H as <- <- <-. exact Ht.
Qed.

Lemma active_after_close (p : PosSession -> bool) (y x : PosSession)
    (l : list PosSession) :
  find p l = Some x ->
  status x = active ->
  status y = closed ->
  (List.length (filter (has_status active) l) <= 1)%nat ->
  filter (has_status active) (update_first p (fun _ => y) l) = [].
Proof.
  intros Hfind Hx Hy. induction l as [| z l IH]; cbn; intro Hone.
  - discriminate.
  - cbn in Hfind. destruct (p z).
    + injection Hfind as ->. cbn. unfold has_status at 1. rewrite Hy. cbn.
      unfold has_status at 1 in Hone. rewrite Hx in Hone. cbn in Hone.
      destruct (filter _ l); [reflexivity | cbn in Hone; lia].
    + cbn. destruct (has_status active z) eqn:Hz.
      * exfalso. cbn in Hone.
        apply find_some in Hfind as [Hin _].
        assert (Hin' : In x (filter (has_status active) l)).
        { apply filter_In. split; [exact Hin |]. unfold has_status. now rewrite Hx. }
        destruct (filter _ l); [contradiction | cbn in Hone; lia].
      * now apply IH.
Qed.

Lemma close_leaves
    (params : Close.params) (w w' : World) (updated : PosSession) (text : string) :
  run (closePosSession params) w = (Ok (updated, text), w') ->
  exists session incomesMap theoretical delta,
    find (has_id (Close.sessionId params)) (posSessions (collections w)) = Some session
    /\ status session = active
    /\ replaced_in session updated (posSessions (collections w))
                   (posSessions (collections w'))
    /\ orders (collections w') = orders (collections w)
    /\ status updated = closed
    /\ closedAt updated = Some (clock w (tick w))
    /\ closedBy updated = Some (Close.user params)
    /\ updatedAt updated = clock w (S (tick w))
    /\ cashClosing updated = Some (Close.cashClosing params)
    /\ dailyOutcomes updated = Close.outcomes params
    /\ cashDeltaJustification updated = Close.cashDeltaJustification params
    /\ run (calculateDailyIncomes session) w = (Ok incomesMap, w)
    /\ dailyIncomes updated
       = map (fun e => mkIncome (fst e) (amount (snd e)) (currency (snd e))) incomesMap
    /\ same_opening session updated
    /\ xTickets updated = xTickets session
    /\ cashClosingTheoretical updated = Some theoretical
    /\ cashDelta updated = Some delta
    /\ amount delta = amount (Close.cashClosing params) - amount theoretical
    /\ ((tolerance <? abs (amount delta)) = true ->
        exists j, cashDeltaJustification updated = Some j /\ j <> "")
    /\ run (generateZTicketText updated) w' = (Ok text, w').
Proof.
  intro Hrun.
  pose proof (close_accepted_text _ _ _ _ _ Hrun) as Htext.
  destruct (close_ok_stored _ _ _ _ _ Hrun) as ((session & Hfound & Hst) & _ & _).
  destruct (run_calculateDailyIncomes session w) as [incomesMap Hagg].
  pose proof (close_rejected params w session Hfound incomesMap Hagg Hst) as Hrej.
  pose proof (close_accepted params w session Hfound incomesMap Hagg Hst) as Hacc.
  cbv zeta in Hrej, Hacc.
  destruct (_ && _) eqn:Hgate in Hrej, Hacc.
  { rewrite (Hrej eq_refl) in Hrun. discriminate. }
  destruct (Hacc eq_refl) as (u & t & Hrun' & Hu).
  rewrite Hrun' in Hrun. injection Hrun as <- <- <-.
  exists session, incomesMap. subst u.
  eexists _, _.
  split; [exact Hfound |]. split; [exact Hst |].
  split.
  { cbn [set_posSessions set_collections collections posSessions].
    apply (replaced_in_update_first _ (fun _ => _) _ session Hfound). }
  split; [reflexivity |].
  cbn [status closedAt closedBy updatedAt cashClosing dailyOutcomes
       cashDeltaJustification dailyIncomes xTickets cashClosingTheoretical cashDelta].
  do 7 (split; [reflexivity |]).
  split; [exact Hagg |]. split; [reflexivity |].
  split; [repeat split |].
  do 3 (split; [reflexivity |]).
  split; [reflexivity |].
  split; [| exact Htext].
  cbn [amount]. intro Hbig. rewrite Hbig in Hgate. cbn [andb] in Hgate.
  apply negb_false_iff in Hgate.
  destruct (Close.cashDeltaJustification params) as [[| c j] |];
    try discriminate Hgate.
  eexists. split; [reflexivity | discriminate].
Qed.

(** X10. What a successful close leaves.  The session found under the id
    was active; the session returned is stored in its place, every other
    document and the orders being as they were.  It is closed, by the operator
    of the request at the first clock reading, with the declared cash, the
    outcomes and the justification of the request and one income row per entry
    of the aggregation; its opening facts and interim tickets are those of the
    session found.  Its cash delta is the declared amount minus its
    theoretical amount, and if the absolute value of the delta exceeds 0.01
    its justification is a non-empty string.  The text returned is the
    Z-ticket of the session returned. *)
Theorem closePosSession_leaves
    (params : Close.params) (w w' : World) (updated : PosSession) (text : string) :
  run (closePosSession params) w = (Ok (updated, text), w') ->
  exists session incomesMap theoretical delta,
    find (has_id (Close.sessionId params)) (posSessions (collections w)) = Some session
    /\ status session = active
    /\ replaced_in session updated (posSessions (collections w))
                   (posSessions (collections w'))
    /\ orders (collections w') = orders (collections w)
    /\ status updated = closed
    /\ closedAt updated = Some (clock w (tick w))
    /\ closedBy updated = Some (Close.user params)
    /\ updatedAt updated = clock w (S (tick w))
    /\ cashClosing updated = Some (Close.cashClosing params)
    /\ dailyOutcomes updated = Close.outcomes params
    /\ cashDeltaJustification updated = Close.cashDeltaJustification params
    /\ run (calculateDailyIncomes session) w = (Ok incomesMap, w)
    /\ dailyIncomes updated
       = map (fun e => mkIncome (fst e) (amount (snd e)) (currency (snd e))) incomesMap
    /\ same_opening session updated
    /\ xTickets updated = xTickets session
    /\ cashClosingTheoretical updated = Some theoretical
    /\ cashDelta updated = Some delta
    /\ amount delta = amount (Close.cashClosing params) - amount theoretical
    /\ ((tolerance <? abs (amount delta)) = true ->
        exists j, cashDeltaJustification updated = Some j /\ j <> "")
    /\ run (generateZTicketText updated) w' = (Ok text, w').
Proof. exact (close_leaves params w w' updated text). Qed.

Lemma closePosSession_leaves_witness :
  exists updated text w1,
    run (closePosSession (Close.mk Example.till (Example.eur 200) [] None Example.bob))
        (Example.opened 200)
    = (Ok (updated, text), w1)
    /\ status updated = closed
    /\ closedBy updated = Some Example.bob
    /\ run (generateZTicketText updated) w1 = (Ok text, w1).
Proof.
  destruct (close_accepted
              (Close.mk Example.till (Example.eur 200) [] None Example.bob)
              (Example.opened 200) (Example.session 200) eq_refl [] eq_refl
              eq_refl eq_refl) as (updated & text & Hrun & _).
  match type of Hrun with _ = (_, ?world) => set (w1 := world) in * end.
  destruct (closePosSession_leaves _ _ _ _ _ Hrun)
    as (_ & _ & _ & _ & _ & _ & _ & _ & Hclosed & _ & Hby & _ & _ & _ & _ & _ & _ & _ & _
        & _ & _ & _ & _ & Htext).
  exists updated, text, w1. split; [exact Hrun |]. split; [exact Hclosed |].
  split; [exact Hby | exact Htext].
Defined.

(** X11. Close makes room for the next session.  After a successful close
    in a world with at most one active session no session is active, and an
    open is accepted again: with POS sessions enabled and a new identifier at
    hand, it returns that identifier and leaves exactly one active session. *)
Theorem close_then_open
    (params : Close.params) (next : Open.params) (w w' : World)
    (answer : PosSession * string) :
  at_most_one_active w ->
  run (closePosSession params) w = (Ok answer, w') ->
  active_sessions w' = []
  /\ (posSessionsEnabled (runtimeConfig w') = true ->
      existsb (has_id (objectIds w' (minted w'))) (posSessions (collections w')) = false ->
      exists w'',
        run (openPosSession next) w' = (Ok (objectIds w' (minted w')), w'')
        /\ List.length (active_sessions w'') = 1%nat).
Proof.
  intros Hone Hrun. destruct answer as [updated text].
  assert (Hnone : active_sessions w' = []).
  { destruct (close_ok_stored _ _ _ _ _ Hrun) as ((session & Hfound & Hst) & _ & Hclosed).
    destruct (close_sessions params w) as [Hsame | (u & Hu & Heq)].
    - (* the collection cannot be unchanged: the session found was active *)
      rewrite Hrun in Hsame. cbn [snd] in Hsame.
      destruct (close_ok_stored _ _ _ _ _ Hrun) as (_ & Hfound' & _).
      rewrite Hsame, Hfound in Hfound'. injection Hfound' as ->.
      rewrite Hst in Hclosed. discriminate.
    - rewrite Hrun in Heq. cbn [snd] in Heq.
      unfold active_sessions. rewrite Heq.
      now apply active_after_close with (x := session). }
  split; [exact Hnone |].
  intros Hon Hfresh.
  destruct (open_creates next w' Hon Hnone Hfresh) as (w'' & Hopen & Hsessions & _).
  exists w''. split; [exact Hopen |].
  unfold active_sessions in *. rewrite Hsessions, filter_app, Hnone. reflexivity.
Qed.

Lemma close_then_open_witness :
  exists answer w1,
    run (closePosSession (Close.mk Example.till (Example.eur 200) [] None Example.bob))
        (Example.opened 200)
    = (Ok answer, w1)
    /\ active_sessions w1 = [].
Proof.
  destruct (close_accepted
              (Close.mk Example.till (Example.eur 200) [] None Example.bob)
              (Example.opened 200) (Example.session 200) eq_refl [] eq_refl
              eq_refl eq_refl) as (updated & text & Hrun & _).
  match type of Hrun with _ = (_, ?world) => set (w1 := world) in * end.
  exists (updated, text), w1. split; [exact Hrun |].
  exact (proj1 (close_then_open _ (Open.mk (Example.eur 200) Example.alice)
                                (Example.opened 200) w1 (updated, text) (le_n 1) Hrun)).
Defined.

(** ** Answers that change nothing *)

(** X12. A request for a session that is not there, or not in the right
    state, changes nothing.  Close and the interim ticket answer 404 'POS
    session not found' when no document has the id; the interim ticket
    answers 400 'POS session is not active' on a closed session.  In general,
    whenever open, close or the interim ticket answers with an error, the
    collections are what they were. *)
Theorem failed_requests_write_nothing (w : World) :
  (forall params,
      find (has_id (Close.sessionId params)) (posSessions (collections w)) = None ->
      run (closePosSession params) w = (Err NotFound, w))
  /\ (forall params,
         find (has_id (XTicket.sessionId params)) (posSessions (collections w)) = None ->
         run (generateXTicket params) w = (Err NotFound, w))
  /\ (forall params session,
         find (has_id (XTicket.sessionId params)) (posSessions (collections w))
         = Some session ->
         status session = closed ->
         run (generateXTicket params) w = (Err NotActive, w))
  /\ (forall r e, failure r w = Some e -> collections (serve r w) = collections w).
Proof.
  split; [intro; apply close_not_found |].
  split; [intro; apply xticket_not_active |].
  split; [intro; apply xticket_not_active |].
  intros r e Hfail.
  assert (Horders : orders (collections (serve r w)) = orders (collections w)).
  { rewrite serve_request.
    apply (keeps_run reads_only reads_only_refl reads_only_trans).
    apply reads_only_request. }
  assert (Hsessions : posSessions (collections (serve r w)) = posSessions (collections w)).
  { destruct r as [p | p | p]; cbn [serve failure] in *.
    - (* open *)
      destruct (posSessionsEnabled (runtimeConfig w)) eqn:Hon.
      + destruct (active_sessions w) as [| a rest] eqn:Hact.
        * destruct (existsb (has_id (objectIds w (minted w))) (posSessions (collections w)))
            eqn:Hfresh.
          -- destruct (open_sessions p w) as [H | (_ & s & _ & H)]; [exact H |].
             (* an insert under a used identifier is refused *)
             exfalso. revert H. unfold openPosSession.
             rewrite run_bind, run_sync. cbn [read_runtimeConfig fst snd].
             rewrite Hon. cbn [negb]. unfold getCurrentPosSession.
             rewrite run_bind, run_await. cbn [posSessions_findOne_sorted fst snd].
             unfold active_sessions in Hact. rewrite Hact. cbn [sort_desc_first fold_left].
             unfold getLastClosedSession.
             rewrite run_bind, run_await. cbn [posSessions_findOne_sorted fst snd].
             rewrite run_bind.
             match goal with
             | |- context [run ?warn w] =>
                 assert (Hwarn : exists w1, run warn w = (Ok tt, w1)
                                            /\ collections w1 = collections w
                                            /\ objectIds w1 = objectIds w
                                            /\ minted w1 = minted w)
             end.
             { destruct (match sort_desc_first closedAt _ with Some l => _ | None => _ end)
                 as [y |].
               - destruct (_ || _).
                 + rewrite run_sync. eexists. repeat split.
                 + eexists. repeat split.
               - eexists. repeat split. }
             destruct Hwarn as (w1 & -> & Hcol & Hids & Hminted).
             rewrite run_bind, run_sync. cbn [new_ObjectId fst snd].
             rewrite run_bind, run_sync. cbn [new_Date fst snd].
             rewrite run_bind, run_sync. cbn [new_Date fst snd].
             rewrite run_bind, run_sync. cbn [new_Date fst snd].
             rewrite run_bind. unfold awaitResult, posSessions_insertOne. cbn [run].
             cbn [bump_tick bump_minted collections _id].
             rewrite Hcol, Hids, Hminted, Hfresh.
             cbn [run snd bump_tick bump_minted collections]. rewrite Hcol.
             intro H. apply (f_equal (@List.length _)) in H.
             rewrite length_app in H. cbn in H. lia.
          -- destruct (open_creates p w Hon Hact Hfresh) as (w' & Hrun & _).
             rewrite Hrun in Hfail. discriminate.
        * assert (Hne : active_sessions w <> []) by (rewrite Hact; discriminate).
          destruct (open_sessions p w) as [H | (Hnone & _)]; [exact H | contradiction].
      + destruct (open_sessions p w) as [H | (_ & s & _ & H)]; [exact H |].
        exfalso. revert H. unfold openPosSession.
        rewrite run_bind, run_sync. cbn [read_runtimeConfig fst snd].
        rewrite Hon. cbn. intro H. apply (f_equal (@List.length _)) in H.
        rewrite length_app in H. cbn in H. lia.
    - (* close *)
      destruct (run (closePosSession p) w) as [[[u t] | e'] w'] eqn:Hrun;
        [discriminate |].
      destruct (find (has_id (Close.sessionId p)) (posSessions (collections w)))
        as [session |] eqn:Hfound.
      + destruct (status session) eqn:Hst.
        * destruct (run_calculateDailyIncomes session w) as [incomesMap Hagg].
          pose proof (close_rejected p w session Hfound incomesMap Hagg Hst) as Hrej.
          pose proof (close_accepted p w session Hfound incomesMap Hagg Hst) as Hacc.
          cbv zeta in Hrej, Hacc.
          destruct (_ && _) in Hrej, Hacc.
          -- rewrite (Hrej eq_refl) in Hrun. now injection Hrun as _ <-.
          -- destruct (Hacc eq_refl) as (u & t & Hrun' & _).
             rewrite Hrun' in Hrun. discriminate.
        * rewrite (close_closed p w session Hfound Hst) in Hrun.
          now injection Hrun as _ <-.
      + rewrite (close_not_found p w Hfound) in Hrun. now injection Hrun as _ <-.
    - (* interim ticket *)
      destruct (run (generateXTicket p) w) as [[t | e'] w'] eqn:Hrun; [discriminate |].
      destruct (find (has_id (XTicket.sessionId p)) (posSessions (collections w)))
        as [session |] eqn:Hfound.
      + destruct (status session) eqn:Hst.
        * destruct (xticket_active p w session Hfound Hst) as [text Hrun'].
          rewrite Hrun' in Hrun. discriminate.
        * rewrite (proj2 (xticket_not_active p w) session Hfound Hst) in Hrun.
          now injection Hrun as _ <-.
      + rewrite (proj1 (xticket_not_active p w) Hfound) in Hrun.
        now injection Hrun as _ <-. }
  destruct (collections (serve r w)), (collections w). cbn in *. congruence.
Qed.

(** ** The closing page *)

Lemma first_seen_acc_NoDup (l seen : list string) :
  NoDup seen ->
  NoDup (fold_left (fun seen x => if existsb (String.eqb x) seen then seen
                                  else (seen ++ [x])%list) l seen).
Proof.
  revert seen. induction l as [| x l IH]; intros seen Hnd; cbn; [exact Hnd |].
  apply IH. destruct (existsb (String.eqb x) seen) eqn:Hex; [exact Hnd |].
  apply NoDup_app; [exact Hnd | repeat constructor; intros [] |].
  intros a Ha [Heq | []]. subst a.
  assert (H : existsb (String.eqb x) seen = true).
  { apply existsb_exists. exists x. split; [exact Ha | apply String.eqb_refl]. }
  congruence.
Qed.

Lemma first_seen_NoDup (l : list string) : NoDup (first_seen l).
Proof. apply first_seen_acc_NoDup. constructor. Qed.

Lemma Map_get_NoDup {V : Type} (m : JsMap V) (k : string) (v : V) :
  NoDup (map fst m) -> In (k, v) m -> Map_get m k = Some v.
Proof.
  unfold Map_get. induction m as [| [k' v'] m IH]; cbn; intros Hnd Hin; [contradiction |].
  inversion Hnd as [| ? ? Hnotin Hnd']; subst.
  destruct Hin as [Heq | Hin].
  - injection Heq as -> ->. rewrite String.eqb_refl. reflexivity.
  - destruct (String.eqb k' k) eqn:Hk.
    + apply String.eqb_eq in Hk. subst k'. exfalso. apply Hnotin.
      apply in_map_iff. exists (k, v). split; [reflexivity | exact Hin].
    + now apply IH.
Qed.

Lemma one_active_is_current (l : list PosSession) (s : PosSession) :
  In s l -> status s = active ->
  (List.length (filter (has_status active) l) <= 1)%nat ->
  filter (has_status active) l = [s].
Proof.
  intros Hin Hst Hone.
  assert (Hin' : In s (filter (has_status active) l)).
  { apply filter_In. split; [exact Hin |]. unfold has_status. now rewrite Hst. }
  destruct (filter (has_status active) l) as [| a [| b rest]].
  - contradiction.
  - destruct Hin' as [-> | []]. reflexivity.
  - cbn in Hone. lia.
Qed.

Lemma run_load (locals_user : option PosSessionUser) (w : World) :
  run (Closing.load locals_user) w
  = (match sort_desc_first (fun s => Some (openedAt s)) (active_sessions w) with
     | None => Err (error 404 "No active POS session")
     | Some posSession =>
         Ok {| Closing.session :=
                 {| Closing.session_id := ObjectId_toString (_id posSession);
                    Closing.session_openedAt := openedAt posSession;
                    Closing.session_cashOpening := cashOpening posSession |};
               Closing.incomes :=
                 map (fun e => Closing.mkIncomeRow (fst e) (amount (snd e))
                                                   (currency (snd e)))
                     (fold_left add_payment
                                (counted posSession (orders (collections w))) []);
               Closing.cashDeltaJustificationMandatory :=
                 posCashDeltaJustificationMandatory (runtimeConfig w);
               Closing.user :=
                 match locals_user with
                 | Some u => Some (Closing.mkUserInfo (userAlias u) (userLogin u))
                 | None => None
                 end |}
     end, w).
Proof.
  unfold Closing.load, getCurrentPosSession.
  rewrite run_bind, run_await. cbn [posSessions_findOne_sorted fst snd].
  fold (active_sessions w).
  destruct (sort_desc_first _ (active_sessions w)) as [posSession |]; [| reflexivity].
  rewrite run_bind, run_calculateDailyIncomes_value, paid_payments_counted.
  rewrite run_bind, run_sync. reflexivity.
Qed.

(** X13. The closing page only reads.  It answers 404 'No active POS
    session' exactly when no session is active.  Otherwise it shows the active
    session opened last, with one income row per payment method of the
    payments that count for it, in the order in which the methods first occur;
    the amount of a row is the total of the counted payments of its method. *)
Theorem closing_page (locals_user : option PosSessionUser) (w : World) :
  snd (run (Closing.load locals_user) w) = w
  /\ (fst (run (Closing.load locals_user) w) = Err (error 404 "No active POS session")
      <-> active_sessions w = [])
  /\ (active_sessions w <> [] ->
      exists page s,
        fst (run (Closing.load locals_user) w) = Ok page
        /\ In s (active_sessions w)
        /\ (forall x, In x (active_sessions w) -> (openedAt x <= openedAt s)%Z)
        /\ Closing.session_id (Closing.session page) = ObjectId_toString (_id s)
        /\ Closing.session_openedAt (Closing.session page) = openedAt s
        /\ Closing.session_cashOpening (Closing.session page) = cashOpening s
        /\ map Closing.row_method (Closing.incomes page)
           = first_seen (map method (counted s (orders (collections w))))
        /\ forall row, In row (Closing.incomes page) ->
             method_total (Closing.row_method row) (counted s (orders (collections w)))
             = Some (mkMoney (Closing.row_amount row) (Closing.row_currency row))).
Proof.
  rewrite run_load. cbn [fst snd].
  split; [reflexivity |].
  destruct (sort_desc_first _ (active_sessions w)) as [s |] eqn:Hcur.
  - assert (Hne : active_sessions w <> []).
    { intro H. rewrite H in Hcur. discriminate. }
    split; [split; [discriminate | contradiction] |].
    intros _. eexists _, s. split; [reflexivity |].
    destruct (sort_desc_first_greatest _ _ _ Hcur) as [Hin Hmax].
    split; [exact Hin |].
    split.
    { intros x Hx. specialize (Hmax x Hx). cbn in Hmax. lia. }
    cbn [Closing.session Closing.session_id Closing.session_openedAt
         Closing.session_cashOpening Closing.incomes].
    do 3 (split; [reflexivity |]).
    destruct (aggregate_payments (counted s (orders (collections w)))) as [Hkeys Hget].
    split.
    + rewrite map_map. cbn [Closing.row_method]. exact Hkeys.
    + intros row Hrow. apply in_map_iff in Hrow as ([m data] & <- & Hin').
      cbn [Closing.row_method Closing.row_amount Closing.row_currency fst snd].
      rewrite <- Hget.
      assert (Hnd : NoDup (map fst (fold_left add_payment
                                      (counted s (orders (collections w))) []))).
      { rewrite Hkeys. apply first_seen_NoDup. }
      rewrite (Map_get_NoDup _ _ _ Hnd Hin'). now destruct data.
  - apply sort_desc_first_none in Hcur.
    split; [split; [intros _; exact Hcur | reflexivity] | contradiction].
Qed.

(** X14. The closing page announces what the close records.  In a world
    with at most one active session, whenever a close succeeds the page loaded
    in the same world shows the session that is closed, with its opening time
    and opening cash, and its income rows are, one for one, the daily incomes
    stored in the closed session. *)
Theorem closing_page_matches_close
    (locals_user : option PosSessionUser) (params : Close.params) (w w' : World)
    (updated : PosSession) (text : string) :
  at_most_one_active w ->
  run (closePosSession params) w = (Ok (updated, text), w') ->
  exists page,
    run (Closing.load locals_user) w = (Ok page, w)
    /\ _id updated = Close.sessionId params
    /\ Closing.session_id (Closing.session page) = ObjectId_toString (_id updated)
    /\ Closing.session_openedAt (Closing.session page) = openedAt updated
    /\ Closing.session_cashOpening (Closing.session page) = cashOpening updated
    /\ dailyIncomes updated
       = map (fun row => mkIncome (Closing.row_method row) (Closing.row_amount row)
                                  (Closing.row_currency row))
             (Closing.incomes page).
Proof.
  intros Hone Hrun.
  destruct (close_leaves _ _ _ _ _ Hrun)
    as (session & incomesMap & _ & _ & Hfound & Hst & _ & _ & _ & _ & _ & _ & _ & _ & _
        & Hagg & Hincomes & (Hid & HopenedAt & _ & Hcash & _) & _).
  rewrite run_calculateDailyIncomes_value, paid_payments_counted in Hagg.
  injection Hagg as <-.
  assert (Hact : active_sessions w = [session]).
  { apply one_active_is_current; [| exact Hst | exact Hone].
    now apply find_some in Hfound. }
  rewrite run_load, Hact. cbn [sort_desc_first fold_left].
  eexists. split; [reflexivity |].
  cbn [Closing.session Closing.session_id Closing.session_openedAt
       Closing.session_cashOpening Closing.incomes].
  split; [rewrite Hid; now apply find_has_id with (l := posSessions (collections w)) |].
  split; [now rewrite Hid |]. split; [now rewrite HopenedAt |].
  split; [now rewrite Hcash |].
  rewrite Hincomes, map_map. reflexivity.
Qed.

Lemma closing_page_matches_close_witness :
  exists updated text w1 page,
    run (closePosSession (Close.mk Example.till (Example.eur 200) [] None Example.bob))
        (Example.opened 200)
    = (Ok (updated, text), w1)
    /\ run (Closing.load (Some Example.bob)) (Example.opened 200)
       = (Ok page, Example.opened 200)
    /\ Closing.session_cashOpening (Closing.session page) = cashOpening updated.
Proof.
  destruct (close_accepted
              (Close.mk Example.till (Example.eur 200) [] None Example.bob)
              (Example.opened 200) (Example.session 200) eq_refl [] eq_refl
              eq_refl eq_refl) as (updated & text & Hrun & _).
  match type of Hrun with _ = (_, ?world) => set (w1 := world) in * end.
  destruct (closing_page_matches_close (Some Example.bob) _ (Example.opened 200) w1
              updated text (le_n 1) Hrun)
    as (page & Hpage & _ & _ & _ & Hcash & _).
  exists updated, text, w1, page. split; [exact Hrun |].
  split; [exact Hpage | exact Hcash].
Defined.

(** ** The closing form *)

Lemma close_failed (params : Close.params) (w w' : World) (e : Thrown) :
  run (closePosSession params) w = (Err e, w') ->
  w' = w /\ (e = NotFound \/ e = AlreadyClosed \/ e = JustificationRequired).
Proof.
  intro Hrun.
  destruct (find (has_id (Close.sessionId params)) (posSessions (collections w)))
    as [session |] eqn:Hfound.
  - destruct (status session) eqn:Hst.
    + destruct (run_calculateDailyIncomes session w) as [incomesMap Hagg].
      pose proof (close_rejected params w session Hfound incomesMap Hagg Hst) as Hrej.
      pose proof (close_accepted params w session Hfound incomesMap Hagg Hst) as Hacc.
      cbv zeta in Hrej, Hacc.
      destruct (_ && _) in Hrej, Hacc.
      * rewrite (Hrej eq_refl) in Hrun. injection Hrun as <- <-. auto.
      * destruct (Hacc eq_refl) as (u & t & Hrun' & _).
        rewrite Hrun' in Hrun. discriminate.
    + rewrite (close_closed params w session Hfound Hst) in Hrun.
      injection Hrun as <- <-. auto.
  - rewrite (close_not_found params w Hfound) in Hrun. injection Hrun as <- <-. auto.
Qed.

(** X15. The closing form never returns: it ends by throwing.  Without a
    signed-in user it throws 401 'Unauthorized'; with one, it throws the
    rejection of [request.formData()] when the body cannot be read, and the
    error of [new ObjectId] when the field 'sessionId' is not accepted.  It
    throws a redirect only after a successful close, and then with code 303
    to the Z-ticket of the session of the form; the fields of the form were
    read, both amounts were numbers and not negative; the session stored under
    that id is closed by the signed-in user, with the declared cash of the
    form, the bank deposit as its only outcome, and a justification that is
    absent or not empty.  Whenever it throws anything else, nothing has
    changed. *)
Theorem closing_form_outcome
    (StringToNumber : string -> float) (ObjectId_of : string -> option ObjectId)
    (locals_user : option PosSessionUser) (body : option Closing.FormData) (w : World) :
  exists thrown w',
    run (Closing.action StringToNumber ObjectId_of locals_user body) w = (Err thrown, w')
    /\ (locals_user = None -> thrown = error 401 "Unauthorized")
    /\ (locals_user <> None -> body = None -> thrown = TypeError)
    /\ (forall formData,
           locals_user <> None -> body = Some formData ->
           Closing.read_form StringToNumber ObjectId_of formData = None ->
           thrown = BSONError)
    /\ (forall code location, thrown = redirect code location ->
        exists u formData form,
          locals_user = Some u
          /\ body = Some formData
          /\ Closing.read_form StringToNumber ObjectId_of formData = Some form
          /\ code = 303%Z
          /\ location = ("/pos/history/" ++ ObjectId_toString (Closing.sessionId form)
                         ++ "/z-ticket?justClosed=true")%string
          /\ Closing.isNaN (Closing.cashClosingAmount form) = false
          /\ (Closing.cashClosingAmount form <? 0) = false
          /\ Closing.isNaN (Closing.bankDepositAmount form) = false
          /\ (Closing.bankDepositAmount form <? 0) = false
          /\ exists updated,
               find (has_id (Closing.sessionId form)) (posSessions (collections w'))
               = Some updated
               /\ status updated = closed
               /\ closedBy updated = Some u
               /\ cashClosing updated
                  = Some (mkMoney (Closing.cashClosingAmount form)
                                  (Closing.form_currency form))
               /\ dailyOutcomes updated
                  = [mkOutcome "bank-deposit" (Closing.bankDepositAmount form)
                               (Closing.form_currency form)]
               /\ cashDeltaJustification updated <> Some ""%string)
    /\ ((forall code location, thrown <> redirect code location) -> w' = w).
Proof.
  unfold Closing.action.
  destruct locals_user as [u |].
  2: { eexists _, _. split; [reflexivity |]. split; [reflexivity |].
       split; [intro H; now destruct H |]. split; [intros ? H; now destruct H |].
       split; [discriminate | reflexivity]. }
  unfold awaitResult, Closing.request_formData.
  destruct body as [formData |]; cbn [bind run].
  2: { eexists _, _. split; [reflexivity |]. split; [discriminate |].
       split; [reflexivity |]. split; [discriminate |].
       split; [discriminate | reflexivity]. }
  destruct (Closing.read_form StringToNumber ObjectId_of formData) as [form |] eqn:Hread.
  2: { eexists _, _. split; [reflexivity |]. split; [discriminate |].
       split; [discriminate |]. split; [reflexivity |].
       split; [discriminate | reflexivity]. }
  assert (Hparsed : forall (thrown : Thrown),
             (Some u = None -> thrown = error 401 "Unauthorized")
             /\ (Some u <> None -> Some formData = None -> thrown = TypeError)
             /\ (forall formData0,
                    Some u <> None -> Some formData = Some formData0 ->
                    Closing.read_form StringToNumber ObjectId_of formData0 = None ->
                    thrown = BSONError)).
  { intro thrown. split; [discriminate |]. split; [discriminate |].
    intros formData0 _ Heq Hnone. injection Heq as <-. congruence. }
  unfold Closing.submit.
  destruct (Closing.isNaN (Closing.cashClosingAmount form)) eqn:Hnan1.
  { eexists _, _. split; [reflexivity |]. repeat (split; [apply Hparsed |]).
    split; [discriminate | reflexivity]. }
  destruct (Closing.cashClosingAmount form <? 0) eqn:Hneg1.
  { eexists _, _. split; [reflexivity |]. repeat (split; [apply Hparsed |]).
    split; [discriminate | reflexivity]. }
  destruct (Closing.isNaN (Closing.bankDepositAmount form)) eqn:Hnan2.
  { eexists _, _. split; [reflexivity |]. repeat (split; [apply Hparsed |]).
    split; [discriminate | reflexivity]. }
  destruct (Closing.bankDepositAmount form <? 0) eqn:Hneg2.
  { eexists _, _. split; [reflexivity |]. repeat (split; [apply Hparsed |]).
    split; [discriminate | reflexivity]. }
  cbn [orb]. rewrite run_bind.
  match goal with
  | |- context [run (closePosSession ?p) w] =>
      set (params := p);
      destruct (run (closePosSession params) w) as [[[updated text] | e] w'] eqn:Hrun
  end.
  - exists (redirect 303 ("/pos/history/" ++ ObjectId_toString (Closing.sessionId form)
                          ++ "/z-ticket?justClosed=true")), w'.
    split; [reflexivity |]. repeat (split; [apply Hparsed |]).
    split.
    + intros code location Heq. injection Heq as <- <-.
      exists u, formData, form.
      do 9 (split; [reflexivity || assumption |]).
      destruct (close_ok_stored _ _ _ _ _ Hrun) as (_ & Hstored & Hclosed).
      destruct (close_leaves _ _ _ _ _ Hrun)
        as (_ & _ & _ & _ & _ & _ & _ & _ & _ & _ & Hby & _ & Hcash & Hout & Hjust & _).
      exists updated.
      split; [exact Hstored |]. split; [exact Hclosed |].
      split; [exact Hby |]. split; [exact Hcash |]. split; [exact Hout |].
      rewrite Hjust. cbn [params Close.cashDeltaJustification].
      destruct (Closing.justification form); cbn; discriminate.
    + intro Hnot. exfalso. exact (Hnot _ _ eq_refl).
  - destruct (close_failed _ _ _ _ Hrun) as [-> He].
    exists e, w. split; [reflexivity |]. repeat (split; [apply Hparsed |]).
    split; [| reflexivity].
    intros code location ->. destruct He as [He | [He | He]]; discriminate He.
Qed.

(** The form as it is posted for the example till, counted at its opening
    cash of 200 EUR with nothing deposited: on any host that reads '200' as
    200, '0' as 0 and the 24 hexadecimal digits of the till as its identifier,
    the action redirects to the Z-ticket of the till. *)
Example closing_form_redirects
    (StringToNumber : string -> float) (ObjectId_of : string -> option ObjectId) :
  StringToNumber "200" = 200 ->
  StringToNumber "0" = 0 ->
  ObjectId_of (ObjectId_toString Example.till) = Some Example.till ->
  fst (run (Closing.action StringToNumber ObjectId_of (Some Example.bob)
              (Some [("sessionId", Closing.entry_string (ObjectId_toString Example.till));
                     ("cashClosingAmount", Closing.entry_string "200");
                     ("bankDepositAmount", Closing.entry_string "0");
                     ("currency", Closing.entry_string "EUR")]))
           (Example.opened 200))
  = Err (redirect 303 "/pos/history/6907000000000000000000a0/z-ticket?justClosed=true").
Proof.
  intros H200 H0 Hid.
  unfold Closing.action, awaitResult, Closing.request_formData. cbn [bind run].
  unfold Closing.read_form.
  change (Closing.FormData_get _ "sessionId")
    with (Some (Closing.entry_string (ObjectId_toString Example.till))).
  cbn [Closing.String_of]. rewrite Hid.
  change (Closing.FormData_get _ "cashClosingAmount")
    with (Some (Closing.entry_string "200")).
  change (Closing.FormData_get _ "bankDepositAmount")
    with (Some (Closing.entry_string "0")).
  change (Closing.FormData_get _ "justification") with (@None Closing.FormDataEntryValue).
  change (Closing.FormData_get _ "currency")
    with (Some (Closing.entry_string "EUR")).
  cbn [Closing.String_of Closing.Number_of]. rewrite H200, H0.
  vm_compute. reflexivity.
Qed.

(** ** Two opens at once *)

(** X16. The check for an active session and the insert of the new one
    are two separate awaits.  Take a world where POS sessions are enabled, no
    session is active and the next two identifiers are new and distinct.  Two
    opens served in alternation both read that no session is active before
    either inserts; both return their identifier, and two sessions are
    active afterwards. *)
Theorem openPosSession_race (first second : Open.params) (w : World) :
  posSessionsEnabled (runtimeConfig w) = true ->
  active_sessions w = [] ->
  existsb (has_id (objectIds w (minted w))) (posSessions (collections w)) = false ->
  existsb (has_id (objectIds w (S (minted w)))) (posSessions (collections w)) = false ->
  objectIds w (minted w) <> objectIds w (S (minted w)) ->
  exists w',
    interleave [First; Second; First; Second; First; Second; First; Second]
               (openPosSession first) (openPosSession second) w
    = (Ret (objectIds w (minted w)), Ret (objectIds w (S (minted w))), w')
    /\ List.length (active_sessions w') = 2%nat.
Proof.
  intros Hon Hnone Hfresh1 Hfresh2 Hneq.
  unfold openPosSession, getCurrentPosSession, getLastClosedSession,
    sync, await, awaitResult.
  unfold active_sessions in Hnone.
  cbn [interleave turn settle bind read_runtimeConfig].
  rewrite Hon.
  cbn [interleave turn settle bind negb read_runtimeConfig].
  rewrite Hon.
  cbn [interleave turn settle bind negb posSessions_findOne_sorted].
  rewrite Hnone.
  cbn [interleave turn settle bind sort_desc_first fold_left posSessions_findOne_sorted].
  rewrite ?Hnone.
  cbn [interleave turn settle bind sort_desc_first fold_left posSessions_findOne_sorted].
  assert (Hdistinct : N.eqb (objectIds w (minted w)) (objectIds w (S (minted w))) = false)
    by now apply N.eqb_neq.
  assert (Hfinish :
    forall (a b : PosSession) w1,
      collections w1 = collections w ->
      _id a = objectIds w (minted w) -> status a = active ->
      _id b = objectIds w (S (minted w)) -> status b = active ->
      exists w',
        (let (a', w'0) :=
           let (x, w'0) := posSessions_insertOne a w1 in
           settle (match x with Ok x0 => Ret x0 | Err e => Throw e end ;;;
                   Ret (objectIds w (minted w))) w'0 in
         let (b', w'1) :=
           let (x, w'1) := posSessions_insertOne b w'0 in
           settle (match x with Ok x0 => Ret x0 | Err e => Throw e end ;;;
                   Ret (objectIds w (S (minted w)))) w'1 in
         (a', b', w'1))
        = (Ret (objectIds w (minted w)), Ret (objectIds w (S (minted w))), w')
        /\ List.length (filter (has_status active) (posSessions (collections w')))
           = 2%nat).
  { intros a b w1 Hcol Ha Hsa Hb Hsb. unfold posSessions_insertOne.
    rewrite Hcol, Ha, Hfresh1. cbn [settle bind].
    cbn [set_posSessions set_collections collections posSessions].
    rewrite Hb, existsb_app, Hfresh2. cbn [existsb orb]. unfold has_id at 1.
    rewrite Ha, Hdistinct. cbn [settle bind orb].
    eexists. split; [reflexivity |].
    cbn [set_posSessions set_collections collections posSessions].
    rewrite !filter_app, Hnone. cbn [filter app]. unfold has_status.
    rewrite Hsa, Hsb. reflexivity. }
  destruct (match sort_desc_first closedAt _ with
            | Some l => cashClosing l
            | None => None
            end) as [y |] eqn:Hy.
  - destruct (negb (amount y =? amount (Open.cashOpening first)) || _);
      cbn [interleave turn settle bind new_ObjectId new_Date console_warn
           bump_tick bump_minted collections objectIds minted clock tick];
      rewrite Hy;
      destruct (negb (amount y =? amount (Open.cashOpening second)) || _);
      cbn [interleave turn settle bind new_ObjectId new_Date console_warn
           bump_tick bump_minted collections objectIds minted clock tick _id];
      apply Hfinish; reflexivity.
  - cbn [interleave turn settle bind new_ObjectId new_Date console_warn
         bump_tick bump_minted collections objectIds minted clock tick].
    rewrite Hy.
    cbn [interleave turn settle bind new_ObjectId new_Date console_warn
         bump_tick bump_minted collections objectIds minted clock tick _id].
    apply Hfinish; reflexivity.
Qed.

Lemma openPosSession_race_witness :
  exists w',
    interleave [First; Second; First; Second; First; Second; First; Second]
               (openPosSession (Open.mk (Example.eur 200) Example.alice))
               (openPosSession (Open.mk (Example.eur 50) Example.bob))
               Example.empty
    = (Ret Example.till, Ret (Example.till + 1)%N, w')
    /\ List.length (active_sessions w') = 2%nat.
Proof.
  refine (openPosSession_race (Open.mk (Example.eur 200) Example.alice)
                              (Open.mk (Example.eur 50) Example.bob)
                              Example.empty eq_refl eq_refl eq_refl eq_refl _).
  intro H. vm_compute in H. discriminate H.
Defined.

(** ** What open looks at *)

Lemma open_passed (params : Open.params) (w : World) :
  posSessionsEnabled (runtimeConfig w) = true ->
  active_sessions w = [] ->
  fst (run (openPosSession params) w)
  = (if existsb (has_id (objectIds w (minted w))) (posSessions (collections w))
     then Err MongoDuplicateKey else Ok (objectIds w (minted w)))
  /\ console (snd (run (openPosSession params) w))
     = (console w
          ++ match sort_desc_first closedAt
                     (filter (has_status closed) (posSessions (collections w))) with
             | Some l =>
                 match cashClosing l with
                 | Some y =>
                     if (amount y =? amount (Open.cashOpening params))
                        && String.eqb (currency y) (currency (Open.cashOpening params))
                     then []
                     else [mkWarning y (Open.cashOpening params)]
                 | None => []
                 end
             | None => []
             end)%list.
Proof.
  intros Hon Hnone. unfold openPosSession.
  rewrite run_bind, run_sync. cbn [read_runtimeConfig fst snd].
  rewrite Hon. cbn [negb].
  unfold getCurrentPosSession.
  rewrite run_bind, run_await. cbn [posSessions_findOne_sorted fst snd].
  unfold active_sessions in Hnone. rewrite Hnone. cbn [sort_desc_first fold_left].
  unfold getLastClosedSession.
  rewrite run_bind, run_await. cbn [posSessions_findOne_sorted fst snd].
  rewrite run_bind.
  match goal with
  | |- context [run ?warn w] =>
      assert (Hwarn : exists w1, run warn w = (Ok tt, w1)
                                 /\ collections w1 = collections w
                                 /\ objectIds w1 = objectIds w /\ minted w1 = minted w
                                 /\ console w1
                                    = (console w
                                         ++ match sort_desc_first closedAt
                                                    (filter (has_status closed)
                                                       (posSessions (collections w))) with
                                            | Some l =>
                                                match cashClosing l with
                                                | Some y =>
                                                    if (amount y
                                                        =? amount (Open.cashOpening params))
                                                       && String.eqb
                                                            (currency y)
                                                            (currency (Open.cashOpening params))
                                                    then []
                                                    else [mkWarning y (Open.cashOpening params)]
                                                | None => []
                                                end
                                            | None => []
                                            end)%list)
  end.
  { destruct (sort_desc_first closedAt _) as [l |].
    - destruct (cashClosing l) as [y |].
      + rewrite <- negb_andb. destruct (_ && _); cbn [negb].
        * eexists. repeat split. symmetry. apply app_nil_r.
        * rewrite run_sync. eexists. repeat split.
      + eexists. repeat split. symmetry. apply app_nil_r.
    - eexists. repeat split. symmetry. apply app_nil_r. }
  destruct Hwarn as (w1 & -> & Hcol & Hids & Hminted & Hconsole).
  rewrite run_bind, run_sync. cbn [new_ObjectId fst snd].
  rewrite run_bind, run_sync. cbn [new_Date fst snd].
  rewrite run_bind, run_sync. cbn [new_Date fst snd].
  rewrite run_bind, run_sync. cbn [new_Date fst snd].
  rewrite run_bind. unfold awaitResult, posSessions_insertOne. cbn [run].
  cbn [bump_tick bump_minted collections _id].
  rewrite Hcol, Hids, Hminted.
  destruct (existsb _ _); cbn [run fst snd]; (split; [reflexivity |]);
    cbn [set_posSessions set_collections console bump_tick bump_minted];
    exact Hconsole.
Qed.

(** X17. Open looks at the configuration and at the sessions, never at
    what it is given: for any two requests the answer is the same, whatever
    the amounts, the currencies and the operators.  An opening cash that
    differs from the declared cash of the session closed last (in amount or in
    currency) does not stop the open; past the two checks exactly one warning
    naming both is written to the console, and none when the two agree or when
    there is no closed session with a declared cash. *)
Theorem openPosSession_never_checks_amount (params other : Open.params) (w : World) :
  fst (run (openPosSession params) w) = fst (run (openPosSession other) w)
  /\ (posSessionsEnabled (runtimeConfig w) = true ->
      active_sessions w = [] ->
      forall last,
        fst (run getLastClosedSession w) = Ok last ->
        console (snd (run (openPosSession params) w))
        = (console w
             ++ match last with
                | Some l =>
                    match cashClosing l with
                    | Some y =>
                        if (amount y =? amount (Open.cashOpening params))
                           && String.eqb (currency y) (currency (Open.cashOpening params))
                        then []
                        else [mkWarning y (Open.cashOpening params)]
                    | None => []
                    end
                | None => []
                end)%list).
Proof.
  split.
  - destruct (posSessionsEnabled (runtimeConfig w)) eqn:Hon.
    + destruct (active_sessions w) as [| a rest] eqn:Hact.
      * destruct (open_passed params w Hon Hact) as [-> _].
        destruct (open_passed other w Hon Hact) as [-> _]. reflexivity.
      * unfold openPosSession.
        rewrite !run_bind, !run_sync. cbn [read_runtimeConfig fst snd].
        rewrite Hon. cbn [negb]. unfold getCurrentPosSession.
        rewrite !run_bind, !run_await. cbn [posSessions_findOne_sorted fst snd].
        fold (active_sessions w).
        destruct (sort_desc_first _ (active_sessions w)) eqn:Hcur; [reflexivity |].
        apply sort_desc_first_none in Hcur. congruence.
    + unfold openPosSession.
      rewrite !run_bind, !run_sync. cbn [read_runtimeConfig fst snd].
      rewrite Hon. reflexivity.
  - intros Hon Hact last Hlast.
    destruct (open_passed params w Hon Hact) as [_ ->].
    unfold getLastClosedSession in Hlast. rewrite run_await in Hlast.
    cbn [posSessions_findOne_sorted fst] in Hlast. injection Hlast as <-.
    reflexivity.
Qed.

(** ** A close that overlaps an interim ticket *)

(** X18. Close writes back the session it read, interim tickets included.
    Take a close that succeeds when it is served alone, and an interim ticket
    for the same session.  If the ticket is served between the read and the
    replace of the close, both requests return, the session stored is the one
    the close returns, and its log of interim tickets is the log the close
    read: the entry pushed by the ticket is gone. *)
Theorem close_drops_overlapping_ticket
    (c : Close.params) (x : XTicket.params) (w : World) :
  XTicket.sessionId x = Close.sessionId c ->
  (exists r, fst (run (closePosSession c) w) = Ok r) ->
  exists session updated ztext xtext w',
    find (has_id (Close.sessionId c)) (posSessions (collections w)) = Some session
    /\ interleave [First; Second; Second; Second; First; First]
                  (closePosSession c) (generateXTicket x) w
       = (Ret (updated, ztext), Ret xtext, w')
    /\ find (has_id (Close.sessionId c)) (posSessions (collections w')) = Some updated
    /\ xTickets updated = xTickets session.
Proof.
  intros Hid [r Hr].
  destruct (run (closePosSession c) w) as [[[u t] | e] w1] eqn:Hrun;
    [| discriminate Hr].
  pose proof (close_ok_stored _ _ _ _ _ Hrun) as ((session & Hfound & Hst) & _ & _).
  pose proof (run_calculateDailyIncomes_value session w) as Hagg.
  clear Hr r. exists session.
  unfold closePosSession, generateXTicket, calculateDailyIncomes, generateZTicketText,
    generateXTicketText, await, sync.
  rewrite Hid.
  cbn [interleave turn settle bind posSessions_findOne orders_find
       PosSessionStatus_eqb].
  rewrite Hfound, Hst.
  cbn [interleave turn settle bind posSessions_findOne orders_find
       PosSessionStatus_eqb negb].
  rewrite Hfound, Hst.
  cbn [interleave turn settle bind posSessions_findOne orders_find
       PosSessionStatus_eqb negb new_Date posSessions_updateOne
       read_runtimeConfig read_toLocaleString].
  cbn [collections orders set_posSessions set_collections bump_tick].
  destruct (_ && negb (truthy (Close.cashDeltaJustification c))) eqn:Hgate.
  { exfalso.
    pose proof (close_rejected c w session Hfound _ Hagg Hst Hgate) as Hrej.
    clear - Hrej Hrun. rewrite Hrej in Hrun. discriminate Hrun. }
  cbn [interleave turn settle bind new_Date posSessions_replaceOne
       read_runtimeConfig read_toLocaleString].
  do 4 eexists. split; [reflexivity |]. split; [reflexivity |].
  split; [| reflexivity].
  cbn [set_posSessions set_collections collections posSessions bump_tick].
  match goal with
  | |- find ?p (update_first ?p (fun _ => ?b) (update_first ?p ?f ?l)) = _ =>
      apply (find_update_first p (fun _ => b) (update_first p f l) (f session));
        [apply (find_update_first p f l session Hfound) |]
  end.
  - unfold has_id, push_xTicket. cbn [_id]. apply N.eqb_eq.
    now apply find_has_id with (l := posSessions (collections w)).
  - unfold has_id. cbn [_id]. apply N.eqb_eq.
    now apply find_has_id with (l := posSessions (collections w)).
Qed.

Lemma close_drops_overlapping_ticket_witness :
  exists session updated ztext xtext w',
    find (has_id Example.till) (posSessions (collections (Example.opened 200)))
    = Some session
    /\ interleave [First; Second; Second; Second; First; First]
                  (closePosSession
                     (Close.mk Example.till (Example.eur 200) [] None Example.bob))
                  (generateXTicket (XTicket.mk Example.till Example.alice))
                  (Example.opened 200)
       = (Ret (updated, ztext), Ret xtext, w')
    /\ find (has_id Example.till) (posSessions (collections w')) = Some updated
    /\ xTickets updated = xTickets session.
Proof.
  destruct (close_accepted
              (Close.mk Example.till (Example.eur 200) [] None Example.bob)
              (Example.opened 200) (Example.session 200) eq_refl [] eq_refl
              eq_refl eq_refl) as (updated & text & Hrun & _).
  match type of Hrun with _ = (_, ?world) => set (w1 := world) in * end.
  exact (close_drops_overlapping_ticket
           (Close.mk Example.till (Example.eur 200) [] None Example.bob)
           (XTicket.mk Example.till Example.alice) (Example.opened 200) eq_refl
           (ex_intro _ (updated, text) (f_equal fst Hrun))).
Defined.

(** ** Interim tickets and opens that overlap *)

Lemma logged_refl (x : PosSession) : logged x x.
Proof. split; [repeat split | apply is_prefix_refl]. Qed.

Lemma logged_trans (x y z : PosSession) : logged x y -> logged y z -> logged x z.
Proof.
  intros [A Ap] [B Bp]. split.
  - unfold same_but_xTickets_updatedAt in *.
    repeat match goal with H : _ /\ _ |- _ => destruct H end.
    repeat split; congruence.
  - now apply is_prefix_trans with (l2 := xTickets y).
Qed.

Lemma Forall2_logged_refl (l : list PosSession) : Forall2 logged l l.
Proof. induction l; constructor; [apply logged_refl | assumption]. Qed.

Lemma Forall2_logged_trans (l1 l2 l3 : list PosSession) :
  Forall2 logged l1 l2 -> Forall2 logged l2 l3 -> Forall2 logged l1 l3.
Proof.
  intro H12. revert l3. induction H12 as [| x y l1 l2 Hxy H12 IH]; intros l3 H23.
  - inversion H23. constructor.
  - inversion H23 as [| ? z ? l3' Hyz H23']; subst. constructor.
    + now apply logged_trans with (y := y).
    + now apply IH.
Qed.

Lemma only_logs_refl (w : World) : only_logs w w.
Proof.
  exists (posSessions (collections w)), [].
  split; [now rewrite app_nil_r | apply Forall2_logged_refl].
Qed.

Lemma only_logs_trans (w1 w2 w3 : World) :
  only_logs w1 w2 -> only_logs w2 w3 -> only_logs w1 w3.
Proof.
  intros (l1 & n1 & E1 & F1) (l2 & n2 & E2 & F2).
  rewrite E1 in F2. apply Forall2_app_inv_l in F2 as (l2a & l2b & Fa & Fb & ->).
  exists l2a, (l2b ++ n2)%list. split.
  - now rewrite E2, app_assoc.
  - now apply Forall2_logged_trans with (l2 := l1).
Qed.

Lemma only_logs_same (w w' : World) :
  posSessions (collections w') = posSessions (collections w) -> only_logs w w'.
Proof.
  intro H. exists (posSessions (collections w)), [].
  split; [now rewrite app_nil_r | apply Forall2_logged_refl].
Qed.

Lemma Forall2_logged_update_first (p : PosSession -> bool)
    (f : PosSession -> PosSession) (l : list PosSession) :
  (forall x, logged x (f x)) -> Forall2 logged l (update_first p f l).
Proof.
  intro Hf. induction l as [| y l IH]; cbn.
  - constructor.
  - destruct (p y); constructor;
      [apply Hf | apply Forall2_logged_refl | apply logged_refl | exact IH].
Qed.

Lemma logged_push_xTicket (entry : PosSessionXTicket) (updated : Date) (s : PosSession) :
  logged s (push_xTicket entry updated s).
Proof. split; [repeat split | now exists [entry]]. Qed.

Ltac only_logs_effect :=
  intro; unfold new_Date, new_ObjectId, console_warn, read_runtimeConfig,
    read_toLocaleString, posSessions_findOne_sorted, posSessions_findOne, orders_find;
  cbn [snd]; apply only_logs_same; reflexivity.

Ltac only_logs_step :=
  lazymatch goal with
  | |- keeps _ (bind _ _) => apply keeps_bind; [| intro]
  | |- keeps _ (sync _) => split; [only_logs_effect | intro; exact I]
  | |- keeps _ (await _) => split; [only_logs_effect | intro; exact I]
  | |- keeps _ (Ret _) => exact I
  | |- keeps _ (Throw _) => exact I
  | |- keeps _ (match ?x with _ => _ end) => destruct x
  | |- keeps _ (if ?c then _ else _) => destruct c
  end.

Lemma only_logs_calculateDailyIncomes (session : PosSession) :
  keeps only_logs (calculateDailyIncomes session).
Proof. unfold calculateDailyIncomes. repeat only_logs_step. Qed.

Lemma only_logs_generateXTicketText (session : PosSession) (incomes : JsMap Money) :
  keeps only_logs (generateXTicketText session incomes).
Proof. unfold generateXTicketText. repeat only_logs_step. Qed.

Lemma only_logs_updateOne (id : ObjectId) (entry : PosSessionXTicket) (updated : Date) :
  keeps only_logs (await (posSessions_updateOne id (push_xTicket entry updated))).
Proof.
  split; [| intro; exact I].
  intro w. unfold posSessions_updateOne. cbn [snd].
  exists (update_first (has_id id) (push_xTicket entry updated)
                       (posSessions (collections w))), [].
  split; [now rewrite app_nil_r |].
  apply Forall2_logged_update_first. intro x. apply logged_push_xTicket.
Qed.

Lemma only_logs_insertOne (doc : PosSession) :
  keeps only_logs (awaitResult (posSessions_insertOne doc)).
Proof.
  split; [| intros [|]; exact I].
  intro w. unfold posSessions_insertOne.
  destruct (existsb _ _); cbn [snd]; [apply only_logs_refl |].
  exists (posSessions (collections w)), [doc].
  split; [reflexivity | apply Forall2_logged_refl].
Qed.

Ltac only_logs_call :=
  lazymatch goal with
  | |- keeps _ (await (posSessions_updateOne _ _)) => apply only_logs_updateOne
  | |- keeps _ (awaitResult (posSessions_insertOne _)) => apply only_logs_insertOne
  | |- keeps _ (calculateDailyIncomes _) => apply only_logs_calculateDailyIncomes
  | |- keeps _ (generateXTicketText _ _) => apply only_logs_generateXTicketText
  | |- _ => only_logs_step
  end.

Lemma only_logs_generateXTicket (params : XTicket.params) :
  keeps only_logs (generateXTicket params).
Proof. unfold generateXTicket. repeat only_logs_call. Qed.

Lemma only_logs_openPosSession (params : Open.params) :
  keeps only_logs (openPosSession params).
Proof.
  unfold openPosSession, getCurrentPosSession, getLastClosedSession.
  repeat only_logs_call.
Qed.

Lemma find_logged (l l1 new : list PosSession) (id : ObjectId) (x : PosSession) :
  Forall2 logged l l1 ->
  find (has_id id) l = Some x ->
  exists y, find (has_id id) (l1 ++ new)%list = Some y /\ logged x y.
Proof.
  intros Hall. induction Hall as [| a b l l1 Hab Hall IH]; cbn; intro Hfind.
  - discriminate.
  - assert (Hid : has_id id b = has_id id a).
    { unfold has_id. destruct Hab as ((-> & _) & _). reflexivity. }
    rewrite Hid. destruct (has_id id a).
    + injection Hfind as <-. now exists b.
    + now apply IH.
Qed.

(** X19. Interim tickets and opens never take anything back, however they
    overlap.  Let two requests, neither of them a close, be served in any
    interleaving at their await points, for any number of turns.  The document
    found under the id of a session is then the one there was in every field
    but [updatedAt] and the log of interim tickets, and that log starts with
    the log there was. *)
Theorem overlapping_tickets_keep_the_log
    (r1 r2 : Request) (schedule : list Who) (w : World)
    (id : ObjectId) (s : PosSession) :
  (forall p, r1 <> CloseSession p) ->
  (forall p, r2 <> CloseSession p) ->
  find (has_id id) (posSessions (collections w)) = Some s ->
  exists s',
    find (has_id id)
         (posSessions (collections (snd (interleave schedule (request r1) (request r2) w))))
    = Some s'
    /\ same_but_xTickets_updatedAt s s'
    /\ exists more, xTickets s' = (xTickets s ++ more)%list.
Proof.
  intros H1 H2 Hfind.
  assert (Hkeeps : forall r, (forall p, r <> CloseSession p) -> keeps only_logs (request r)).
  { intros [p | p | p] Hr; cbn [request].
    - apply keeps_bind; [apply only_logs_openPosSession | intro; exact I].
    - now destruct (Hr p).
    - apply keeps_bind; [apply only_logs_generateXTicket | intro; exact I]. }
  destruct (keeps_interleave only_logs only_logs_refl only_logs_trans schedule
              (request r1) (request r2) w (Hkeeps r1 H1) (Hkeeps r2 H2))
    as (l1 & new & Heq & Hall).
  destruct (find_logged _ _ new id s Hall Hfind) as (s' & Hs' & Hsame & Hprefix).
  exists s'. rewrite Heq. split; [exact Hs' |]. split; [exact Hsame | exact Hprefix].
Qed.

Lemma overlapping_tickets_keep_the_log_witness :
  exists s',
    find (has_id Example.till)
         (posSessions
            (collections
               (snd (interleave [First; Second; Second; First; First; Second]
                       (request (InterimTicket (XTicket.mk Example.till Example.alice)))
                       (request (InterimTicket (XTicket.mk Example.till Example.bob)))
                       (Example.opened 200)))))
    = Some s'
    /\ status s' = active.
Proof.
  destruct (overlapping_tickets_keep_the_log
              (InterimTicket (XTicket.mk Example.till Example.alice))
              (InterimTicket (XTicket.mk Example.till Example.bob))
              [First; Second; Second; First; First; Second]
              (Example.opened 200) Example.till (Example.session 200))
    as (s' & Hfound & Hsame & _).
  - intros p H. discriminate H.
  - intros p H. discriminate H.
  - reflexivity.
  - exists s'. split; [exact Hfound |]. exact (proj1 (proj2 Hsame)).
Defined.

(** ** Orders that do not count *)

(** X20. An order that was created before the session was opened, or whose
    status is not 'paid', or none of whose payments has the status 'paid',
    changes nothing in the incomes of the session, wherever it stands among
    the orders. *)
Theorem calculateDailyIncomes_ignores
    (session : PosSession) (w : World) (before after : list Order) (o : Order) :
  (order_createdAt o < openedAt session)%Z
  \/ order_status o <> "paid"%string
  \/ (forall p, In p (payments o) -> payment_status p <> "paid"%string) ->
  fst (run (calculateDailyIncomes session) (set_orders (before ++ o :: after) w))
  = fst (run (calculateDailyIncomes session) (set_orders (before ++ after) w)).
Proof.
  intro Hout.
  rewrite !run_calculateDailyIncomes_value, !paid_payments_counted. cbn [fst].
  cbn [set_orders set_collections collections orders].
  do 2 f_equal. unfold counted. rewrite !flat_map_app. f_equal. cbn [flat_map].
  match goal with |- (?x ++ _)%list = _ => assert (Hx : x = []); [| now rewrite Hx] end.
  destruct Hout as [Hbefore | [Hstatus | Hpayments]].
  - assert (H : (openedAt session <=? order_createdAt o)%Z = false)
      by (apply Z.leb_gt; exact Hbefore).
    now rewrite H.
  - assert (H : String.eqb (order_status o) "paid" = false)
      by (now apply String.eqb_neq).
    rewrite H, andb_false_r. reflexivity.
  - destruct (_ && _); [| reflexivity].
    induction (payments o) as [| p ps IH]; cbn [filter]; [reflexivity |].
    assert (H : String.eqb (payment_status p) "paid" = false).
    { apply String.eqb_neq. apply Hpayments. now left. }
    rewrite H. apply IH. intros q Hq. apply Hpayments. now right.
Qed.

Lemma calculateDailyIncomes_ignores_witness :
  fst (run (calculateDailyIncomes (Example.session 0))
           (set_orders
              ([] ++ mkOrder (Example.morning - 1)%Z "paid"
                             [mkPayment "point-of-sale" "paid" (Example.eur 10)]
                  :: [Example.cash (Example.morning + 1)%Z 20])
              (Example.opened 0)))
  = fst (run (calculateDailyIncomes (Example.session 0))
             (set_orders ([] ++ [Example.cash (Example.morning + 1)%Z 20])
                         (Example.opened 0))).
Proof.
  apply (calculateDailyIncomes_ignores (Example.session 0) (Example.opened 0) []
           [Example.cash (Example.morning + 1)%Z 20]).
  left. reflexivity.
Defined.
